(** * PredictionEngine: a shallow embedding of the adaptive performance predictor

    The JavaScript class [PredictionEngine] is translated function by
    function.  Conventions of the embedding:

    - a JavaScript number is a [number]: a real, one of the two infinities,
      or NaN.  Sums, products and quotients of finite numbers are exact real
      arithmetic: the rounding of binary64, its overflow and the sign of zero
      are idealised away, so a statement about values is stated for inputs
      on which the binary64 operations involved are exact (integers of
      moderate size) or as an order fact that rounding preserves.
      [Math.exp] saturates as in binary64 (0 below -746, Infinity from 710).
      The non-finite cases follow IEEE 754 as JavaScript applies it (0/0 is
      NaN, x/0 is an infinity, every comparison with NaN is false, Math.max
      and Math.min return NaN when an argument is NaN);
    - a thrown exception is the [Throw] case of [completion]; [try_catch]
      is the try/catch statement;
    - timestamps and [Date.now()] are integers (milliseconds since the
      epoch); a [Date] built from a timestamp beyond 8.64e15 milliseconds
      either side of the epoch is invalid; one call of a public method
      observes one clock reading;
    - an object literal used as a dictionary inherits from
      [Object.prototype]: reading a name it defines gives the inherited
      member, and writing [__proto__] creates no key;
    - code that mutates an array it was handed returns the array's new
      contents next to its result;
    - [getUserData] parses a new object at every call: what a method does
      to it is gone when the method returns. *)

From Stdlib Require Import Reals Lra Lia ZArith List String Bool.
From Stdlib Require Import Permutation Sorted.
From stdpp Require Import gmap strings pretty.
Import ListNotations.

Local Open Scope R_scope.

(** ** JavaScript numbers *)

Module JS.

Inductive number : Type :=
| Fin (r : R)
| PInf
| NInf
| NaN.

Definition Rltb (a b : R) : bool := if Rlt_dec a b then true else false.
Definition Reqb (a b : R) : bool := if Req_dec_T a b then true else false.

Definition of_Z (z : Z) : number := Fin (IZR z).
Definition of_nat (n : nat) : number := Fin (INR n).

Definition neg (a : number) : number :=
  match a with
  | Fin r => Fin (- r)
  | PInf => NInf
  | NInf => PInf
  | NaN => NaN
  end.

(** [a + b], and below [a * b] and [a / b]: on finite operands the exact
    real result, where binary64 rounds it to the nearest number it holds
    (and to an infinity beyond 1.8e308). *)
Definition add (a b : number) : number :=
  match a, b with
  | NaN, _ | _, NaN => NaN
  | Fin x, Fin y => Fin (x + y)
  | PInf, NInf | NInf, PInf => NaN
  | PInf, _ | _, PInf => PInf
  | NInf, _ | _, NInf => NInf
  end.

Definition sub (a b : number) : number := add a (neg b).

(** The sign of a non-zero real, as an infinity. *)
Definition inf_of_sign (r : R) : number := if Rltb r 0 then NInf else PInf.

Definition mul (a b : number) : number :=
  match a, b with
  | NaN, _ | _, NaN => NaN
  | Fin x, Fin y => Fin (x * y)
  | Fin x, PInf | PInf, Fin x => if Reqb x 0 then NaN else inf_of_sign x
  | Fin x, NInf | NInf, Fin x => if Reqb x 0 then NaN else inf_of_sign (- x)
  | PInf, PInf | NInf, NInf => PInf
  | PInf, NInf | NInf, PInf => NInf
  end.

Definition div (a b : number) : number :=
  match a, b with
  | NaN, _ | _, NaN => NaN
  | Fin x, Fin y =>
      if Reqb y 0 then (if Reqb x 0 then NaN else inf_of_sign x)
      else Fin (x / y)
  | Fin _, (PInf | NInf) => Fin 0
  | PInf, Fin y => inf_of_sign y
  | NInf, Fin y => inf_of_sign (- y)
  | (PInf | NInf), (PInf | NInf) => NaN
  end.

(** [a < b]; false as soon as an operand is NaN. *)
Definition lt (a b : number) : bool :=
  match a, b with
  | NaN, _ | _, NaN => false
  | Fin x, Fin y => Rltb x y
  | NInf, (Fin _ | PInf) => true
  | Fin _, PInf => true
  | _, _ => false
  end.

Definition gt (a b : number) : bool := lt b a.

(** [a <= b]. *)
Definition le (a b : number) : bool :=
  match a, b with
  | NaN, _ | _, NaN => false
  | Fin x, Fin y => negb (Rltb y x)
  | NInf, _ => true
  | _, PInf => true
  | _, _ => false
  end.

(** [a === b] on numbers. *)
Definition strict_eq (a b : number) : bool :=
  match a, b with
  | Fin x, Fin y => Reqb x y
  | PInf, PInf | NInf, NInf => true
  | _, _ => false
  end.

(** [Math.max(a, b)] and [Math.min(a, b)]. *)
Definition max (a b : number) : number :=
  match a, b with
  | NaN, _ | _, NaN => NaN
  | _, _ => if lt a b then b else a
  end.

Definition min (a b : number) : number :=
  match a, b with
  | NaN, _ | _, NaN => NaN
  | _, _ => if lt b a then b else a
  end.

(** [Math.floor] and [Math.round] (halves round towards +Infinity). *)
Definition floor (a : number) : number :=
  match a with
  | Fin r => Fin (IZR (Zfloor r))
  | _ => a
  end.

Definition round (a : number) : number :=
  match a with
  | Fin r => Fin (IZR (Zfloor (r + / 2)))
  | _ => a
  end.

Definition sqrt (a : number) : number :=
  match a with
  | Fin r => if Rltb r 0 then NaN else Fin (R_sqrt.sqrt r)
  | PInf => PInf
  | NInf | NaN => NaN
  end.

(** [Math.exp]: in binary64 the result overflows to Infinity for an
    argument of 709.79 or more and underflows to 0 below -745.14; the model
    saturates from 710 on and below -746 and is exact in between. *)
Definition exp (a : number) : number :=
  match a with
  | Fin r =>
      if Rltb r (- 746) then Fin 0
      else if Rltb r 710 then Fin (Rtrigo_def.exp r)
      else PInf
  | PInf => PInf
  | NInf => Fin 0
  | NaN => NaN
  end.

Definition sin (a : number) : number :=
  match a with
  | Fin r => Fin (Rtrigo_def.sin r)
  | _ => NaN
  end.

(** [Math.pow(a, 2)]. *)
Definition square (a : number) : number :=
  match a with
  | Fin r => Fin (r * r)
  | PInf | NInf => PInf
  | NaN => NaN
  end.

(** [a || 0]: the value itself unless it is falsy (0 or NaN). *)
Definition or_zero (a : number) : number :=
  match a with
  | Fin r => Fin r
  | NaN => Fin 0
  | _ => a
  end.

(** *** Completions: a value, or a thrown exception *)

Inductive exn : Type :=
| TypeError (msg : string)
| Error (msg : string).

Inductive completion (A : Type) : Type :=
| Normal (a : A)
| Throw (e : exn).

Arguments Normal {A} a.
Arguments Throw {A} e.

Definition bind {A B} (c : completion A) (k : A -> completion B) : completion B :=
  match c with
  | Normal a => k a
  | Throw e => Throw e
  end.

Definition try_catch {A} (body : completion A) (handler : exn -> completion A)
  : completion A :=
  match body with
  | Normal a => Normal a
  | Throw e => handler e
  end.

(** *** Arrays *)

(** [start] or [end] argument of [slice] resolved against the length. *)
Definition rel_index (len k : Z) : Z :=
  if (k <? 0)%Z then Z.max (len + k) 0 else Z.min k len.

(** [arr.slice(from, to)] *)
Definition slice {A} (from to : Z) (l : list A) : list A :=
  let len := Z.of_nat (length l) in
  let s := rel_index len from in
  let e := rel_index len to in
  firstn (Z.to_nat (e - s)) (skipn (Z.to_nat s) l).

(** [arr.slice(from)] *)
Definition slice_from {A} (from : Z) (l : list A) : list A :=
  skipn (Z.to_nat (rel_index (Z.of_nat (length l)) from)) l.

(** [arr.map((item, index) => f(item, index))] *)
Definition mapi {A B} (f : A -> nat -> B) (l : list A) : list B :=
  map (fun p => f (snd p) (fst p)) (combine (seq 0 (length l)) l).

(** [arr.reduce((sum, v) => sum + v, 0)] *)
Definition sum (l : list number) : number := fold_left add l (Fin 0).

(** [arr.sort(cmp)] for a comparator that orders by a key: a stable
    insertion sort (Array.prototype.sort is stable).  [must_precede x y]
    is [cmp(x, y) < 0]: elements that compare equal keep their order. *)
Fixpoint insert_sorted {A} (must_precede : A -> A -> bool) (x : A) (l : list A)
  : list A :=
  match l with
  | [] => [x]
  | y :: l' =>
      if must_precede x y then x :: l
      else y :: insert_sorted must_precede x l'
  end.

Definition sort_by {A} (must_precede : A -> A -> bool) (l : list A) : list A :=
  fold_left (fun acc x => insert_sorted must_precede x acc) l [].

End JS.

Declare Scope js_scope.
Delimit Scope js_scope with js.
Infix "+" := JS.add : js_scope.
Infix "-" := JS.sub : js_scope.
Infix "*" := JS.mul : js_scope.
Infix "/" := JS.div : js_scope.
Infix "<?" := JS.lt : js_scope.
Infix ">?" := JS.gt : js_scope.
Notation "'let*' x ':=' c 'in' k" := (JS.bind c (fun x => k))
  (at level 10, x name, c at level 100, k at level 200).

Import JS.

(** ** Data model *)

(** A game record as the record store serves it.  A numeric field that is
    missing from the object behaves as NaN in arithmetic and as 0 under
    [|| 0], so NaN stands for it. *)
Record GameRecord : Type := {
  gameType : string;
  difficulty : string;
  score : number;
  playTime : number;
  mistakes : number;
  completed : bool;
  timestamp : Z
}.

(** The object [getUserData] resolves to; [games] is [None] when the
    property is absent. *)
Record UserData : Type := {
  games : option (list GameRecord)
}.

Record ScoreFeatures : Type := {
  averageScore : number;
  scoreTrend : number;
  scoreVariance : number;
  averagePlayTime : number;
  averageMistakes : number;
  completionRate : number;
  recentImprovement : number;
  consistency : number;
  difficultyLevel : number;
  gameExperience : number
}.

Record EngagementFeatures : Type := {
  dailyPlayFrequency : number;
  sessionDuration : number;
  sessionFrequency : number;
  gameDiversity : number;
  eCompletionRate : number;
  returnRate : number;
  socialEngagement : number;
  achievementRate : number
}.

Record ChurnFeatures : Type := {
  activityDecline : number;
  cAverageScore : number;
  scoreDecline : number;
  sessionDropoff : number;
  gameAbandonment : number;
  satisfactionScore : number;
  engagementScore : number;
  daysSinceLastActivity : number
}.

Record DifficultyFeatures : Type := {
  dAverageScore : number;
  scoreConsistency : number;
  preferredDifficulty : string;
  improvementRate : number;
  challengePreference : number;
  frustrationLevel : number
}.

Record GameRecommendationFeatures : Type := {
  gamePreferences : gmap string number;
  performanceByGame : gmap string number;
  engagementByGame : gmap string number;
  explorationTendency : number;
  skillLevel : number;
  timeAvailability : number
}.

Record Range : Type := { rmin : number; rmax : number }.

Record ScoreFactors : Type := {
  baseScore : number;
  sTrendEffect : number;
  improvementEffect : number;
  consistencyEffect : number
}.

(** [factors] is [None] for the empty object of the default results. *)
Record ScorePrediction : Type := {
  prediction : number;
  confidence : number;
  range : Range;
  factors : option ScoreFactors;
  horizon : Z
}.

Record EngagementFactors : Type := {
  baseEngagement : number;
  eTrendEffect : number;
  seasonalEffect : number
}.

Record EngagementPrediction : Type := {
  ePrediction : number;
  eConfidence : number;
  trend : string;
  eFactors : option EngagementFactors;
  eHorizon : Z
}.

Record ChurnFactors : Type := {
  fActivityDecline : number;
  fScoreDecline : number;
  fSessionDropoff : number;
  fGameAbandonment : number;
  fDaysSinceLastActivity : number
}.

Record ChurnPrediction : Type := {
  probability : number;
  cConfidence : number;
  riskLevel : string;
  cFactors : option ChurnFactors;
  recommendations : list string;
  cHorizon : Z
}.

(** [reasoning] is [None] in the fallback object of [recommendDifficulty]. *)
Record DifficultyRecommendation : Type := {
  recommended : string;
  dConfidence : number;
  reasoning : option string
}.

Record GameRecommendation : Type := {
  rank : Z;
  rGameType : string;
  gameName : string;
  rScore : number;
  rConfidence : number
}.

(** The objects [calculateSatisfactionMetrics] and
    [calculateEngagementMetrics] return: [{ score: ... }]. *)
Record Metrics : Type := { mScore : number }.

Record Session : Type := {
  sGames : list GameRecord;
  duration : number;
  startTime : Z;
  endTime : Z
}.

(** What the result cache holds and the cached methods return. *)
Inductive Value : Type :=
| VScore (p : ScorePrediction)
| VEngagement (p : EngagementPrediction)
| VChurn (p : ChurnPrediction).

Definition day_ms : Z := 24 * 60 * 60 * 1000.

(** [userData.games]; using it when the property is absent throws. *)
Definition games_of (userData : UserData) : completion (list GameRecord) :=
  match games userData with
  | Some gs => Normal gs
  | None => Throw (TypeError "Cannot read properties of undefined")
  end.

Definition count {A} (f : A -> bool) (l : list A) : number :=
  of_nat (length (List.filter f l)).

(** ** Statistics helpers *)

Definition mean (array : list number) : number :=
  (sum array / of_nat (length array))%js.

Definition variance (array : list number) : number :=
  let mean := mean array in
  (fold_left (fun sum val => sum + square (val - mean)) array (Fin 0)
   / of_nat (length array))%js.

Definition calculateTrend (array : list number) : number :=
  if (length array <? 2)%nat then Fin 0
  else
    let n := length array in
    let x := map of_nat (seq 0 n) in
    let xMean := mean x in
    let yMean := mean array in
    let '(numerator, denominator) :=
      fold_left
        (fun acc xy =>
           ((fst acc + (fst xy - xMean) * (snd xy - yMean))%js,
            (snd acc + square (fst xy - xMean))%js))
        (combine x array) (Fin 0, Fin 0) in
    if strict_eq denominator (Fin 0) then Fin 0
    else (numerator / denominator)%js.

Definition calculateConsistency (array : list number) : number :=
  if (length array <? 2)%nat then Fin 1
  else
    let mean := mean array in
    let variance := variance array in
    let coefficientOfVariation := (JS.sqrt variance / mean)%js in
    JS.max (Fin 0) (Fin 1 - coefficientOfVariation)%js.

Definition calculateRecentImprovement (array : list number) : number :=
  if (length array <? 10)%nat then Fin 0
  else
    let recent := slice_from (-5) array in
    let older := slice (-10) (-5) array in
    (mean recent - mean older)%js.

(** The property names every object literal inherits from
    [Object.prototype] (ECMAScript with its Annex B).  All but [__proto__]
    name a built-in function; [__proto__] reads as the prototype object. *)
Definition Object_prototype_names : list string :=
  ["constructor"; "__defineGetter__"; "__defineSetter__"; "hasOwnProperty";
   "__lookupGetter__"; "__lookupSetter__"; "isPrototypeOf";
   "propertyIsEnumerable"; "toString"; "valueOf"; "__proto__";
   "toLocaleString"]%string.

Definition inherited (name : string) : bool :=
  existsb (String.eqb name) Object_prototype_names.

(** [encoding[difficulty] || 2].  For a name [Object.prototype] defines the
    lookup gives the inherited member, which is truthy and is returned as it
    is: a function or an object, not a number.  NaN stands for it, which is
    what arithmetic on it ends in (in [mean], [0 + member] is a string and
    the final division gives NaN). *)
Definition encodeDifficulty (difficulty : string) : number :=
  if String.eqb difficulty "easy" then Fin 1
  else if String.eqb difficulty "medium" then Fin 2
  else if String.eqb difficulty "hard" then Fin 3
  else if String.eqb difficulty "expert" then Fin 4
  else if inherited difficulty then NaN
  else Fin 2.

Definition calculateGameExperience (userData : UserData) (gameType' : string)
  : completion number :=
  let* gs := games_of userData in
  Normal (count (fun g => String.eqb (gameType g) gameType') gs).

Section Clock.

(** [Date.now()] as the running call reads it, and the offset of local time
    from UTC in milliseconds (what [getDay] and [toDateString] depend on). *)
Variable now : Z.
Variable tzOffset : Z.

(** [new Date(ts)] holds a time value only within 8.64e15 milliseconds of
    the epoch; outside, the date is invalid. *)
Definition validTime (ts : Z) : bool :=
  ((- 8640000000000000 <=? ts) && (ts <=? 8640000000000000))%Z.

(** Days since the epoch of the local calendar day of an instant. *)
Definition local_day (ts : Z) : Z := ((ts + tzOffset) / day_ms)%Z.

(** [new Date(ts).toDateString()] up to the spelling of the day: two valid
    instants have the same string exactly when their local day agrees, and
    every invalid date reads "Invalid Date" ([None]). *)
Definition toDateString (ts : Z) : option Z :=
  if validTime ts then Some (local_day ts) else None.

(** [new Date(ts).getDay()]: 1 January 1970 was a Thursday.  [None] is the
    NaN of an invalid date. *)
Definition getDay (ts : Z) : option Z :=
  if validTime ts then Some ((local_day ts + 4) mod 7)%Z else None.

(** [dailyCounts[day]++] for every game: with [day] NaN the increment
    creates a property named NaN and touches none of the seven counts. *)
Definition calculateDailyActivity (games' : list GameRecord) : list number :=
  map (fun day =>
         count (fun game => bool_decide (getDay (timestamp game) = Some day)) games')
      [0; 1; 2; 3; 4; 5; 6]%Z.

(** The session object pushed for [currentSession], which is never empty
    where the source builds it. *)
Definition closeSession (currentSession : list GameRecord) : Session :=
  {| sGames := currentSession;
     duration := of_nat (length currentSession);
     startTime := match currentSession with g :: _ => timestamp g | [] => 0%Z end;
     endTime := match rev currentSession with g :: _ => timestamp g | [] => 0%Z end |}.

Definition sessionStep (st : list Session * list GameRecord) (game : GameRecord)
  : list Session * list GameRecord :=
  let '(sessions, currentSession) := st in
  match rev currentSession with
  | [] => (sessions, [game])
  | lastGame :: _ =>
      let timeDiff := (timestamp game - timestamp lastGame)%Z in
      if (timeDiff <? 30 * 60 * 1000)%Z
      then (sessions, currentSession ++ [game])
      else (sessions ++ [closeSession currentSession], [game])
  end.

(** [games.sort((a, b) => a.timestamp - b.timestamp)] *)
Definition sortByTimestamp (games' : list GameRecord) : list GameRecord :=
  sort_by (fun a b => (timestamp a <? timestamp b)%Z) games'.

(** Returns the sessions and the contents of the array [games] after the
    call: the source sorts the array it is given in place. *)
Definition groupIntoSessions (games' : list GameRecord)
  : list Session * list GameRecord :=
  let sorted := sortByTimestamp games' in
  let '(sessions, currentSession) := fold_left sessionStep sorted ([], []) in
  let sessions :=
    if (0 <? length currentSession)%nat
    then sessions ++ [closeSession currentSession]
    else sessions in
  (sessions, sorted).

Record SessionPatterns : Type := {
  durations : list number;
  frequency : number
}.

Definition analyzeSessionPatterns (games' : list GameRecord)
  : SessionPatterns * list GameRecord :=
  let '(sessions, games') := groupIntoSessions games' in
  ({| durations := map duration sessions;
      frequency := (of_nat (length sessions) / Fin 7)%js |}, games').

Definition calculateGameDiversity (games' : list GameRecord) : number :=
  let gameTypes : gset string := list_to_set (map gameType games') in
  (of_nat (size gameTypes) / Fin 5)%js.

Definition calculateCompletionRate (games' : list GameRecord) : number :=
  (count completed games' / of_nat (length games'))%js.

Definition calculateReturnRate (userData : UserData) : completion number :=
  let* gs := games_of userData in
  let totalDays := of_nat (length gs) in
  let uniqueDays : gset (option Z) :=
    list_to_set (map (fun g => toDateString (timestamp g)) gs) in
  Normal (of_nat (size uniqueDays) / JS.max totalDays (Fin 1))%js.

Definition calculateSocialEngagement (userData : UserData) : number := Fin 0.5.

Definition calculateAchievementRate (userData : UserData) : number := Fin 0.3.

Definition withinDays (days : Z) (g : GameRecord) : bool :=
  (now - days * day_ms <? timestamp g)%Z.

Definition calculateActivityDecline (userData : UserData) : completion number :=
  let* gs := games_of userData in
  let recent := count (withinDays 7) gs in
  let older :=
    count (fun g => withinDays 14 g && (timestamp g <=? now - 7 * day_ms)%Z) gs in
  Normal ((older - recent) / JS.max older (Fin 1))%js.

Definition calculateSatisfactionMetrics (games' : list GameRecord) : Metrics :=
  let scores := map score games' in
  let completionRate := calculateCompletionRate games' in
  {| mScore := ((mean scores / Fin 100) * Fin 0.7 + completionRate * Fin 0.3)%js |}.

Definition calculateEngagementMetrics (userData : UserData) : completion Metrics :=
  let* gs := games_of userData in
  let recentActivity := List.filter (withinDays 7) gs in
  let dailyFrequency := (of_nat (length recentActivity) / Fin 7)%js in
  let sessionDuration := durations (fst (analyzeSessionPatterns recentActivity)) in
  Normal
    {| mScore := (JS.min (dailyFrequency / Fin 3) (Fin 1) * Fin 0.6
                  + JS.min (mean sessionDuration / Fin 5) (Fin 1) * Fin 0.4)%js |}.

Definition calculateScoreDecline (games' : list GameRecord) : number :=
  if (length games' <? 10)%nat then Fin 0
  else
    let recent := map score (slice_from (-5) games') in
    let older := map score (slice (-10) (-5) games') in
    (mean older - mean recent)%js.

(** Hands [userData.games] itself to [groupIntoSessions]: the result comes
    with the user data as the call leaves it. *)
Definition calculateSessionDropoff (userData : UserData)
  : completion (number * UserData) :=
  let* gs := games_of userData in
  let '(sessions, gs') := groupIntoSessions gs in
  let userData' := {| games := Some gs' |} in
  if (length sessions <? 2)%nat then Normal (Fin 0, userData')
  else
    let recentSessions := slice_from (-3) sessions in
    let olderSessions := slice (-6) (-3) sessions in
    if (length olderSessions =? 0)%nat then Normal (Fin 0, userData')
    else
      let recentAvg := mean (map duration recentSessions) in
      let olderAvg := mean (map duration olderSessions) in
      Normal (((olderAvg - recentAvg) / JS.max olderAvg (Fin 1))%js, userData').

Definition calculateGameAbandonment (games' : list GameRecord) : number :=
  (count (fun g => negb (completed g)) games' / of_nat (length games'))%js.

Definition calculateDaysSinceLastActivity (userData : UserData) : completion number :=
  let* gs := games_of userData in
  match rev gs with
  | [] => Normal (Fin 999)
  | lastGame :: _ =>
      let daysDiff := (Fin (IZR (now - timestamp lastGame)) / Fin (IZR day_ms))%js in
      Normal (JS.floor daysDiff)
  end.

(** What a property of the [counts] object of [getMostFrequent] holds: a
    count, or the text that [member + 1] gave when the name was first read
    from [Object.prototype]. *)
Inductive tally : Type :=
| Count (n : nat)
| Text (s : string).

(** [String(f)] for the built-in function [Object.prototype] holds under
    [name], as V8 prints it; engines differ in the white space after the
    parameter list. *)
Definition nativeFunctionText (name : string) : string :=
  ("function "
   +:+ (if String.eqb name "constructor" then "Object" else name)
   +:+ "() { [native code] }")%string.

(** [(counts[item] || 0) + 1]: an own property is a positive count or a
    non-empty text, both truthy; an absent name reads as undefined unless
    [Object.prototype] defines it. *)
Definition nextTally (counts : gmap string tally) (item : string) : tally :=
  match counts !! item with
  | Some (Count c) => Count (S c)
  | Some (Text s) => Text (s +:+ "1")
  | None =>
      if String.eqb item "__proto__" then Text "[object Object]1"
      else if inherited item then Text (nativeFunctionText item +:+ "1")
      else Count 1
  end.

(** The [counts] object after the loop: its own keys in the order of their
    creation, and the value of each.  Assigning a text to [__proto__] runs
    the inherited setter, which ignores it: no own property is created. *)
Definition countItems (array : list string) : list string * gmap string tally :=
  fold_left
    (fun acc item =>
       let '(keys, counts) := acc in
       let value := nextTally counts item in
       if String.eqb item "__proto__" then acc
       else
         (match counts !! item with
          | Some _ => keys
          | None => keys ++ [item]
          end,
          <[item := value]> counts))
    array ([], ∅).

(** The array index a property key spells: the canonical decimal form of an
    integer below 2^32 - 1. *)
Definition digitOf (c : Ascii.ascii) : option N :=
  let n := Ascii.N_of_ascii c in
  if ((48 <=? n) && (n <=? 57))%N then Some (n - 48)%N else None.

Fixpoint parseDecimal (s : string) (acc : N) : option N :=
  match s with
  | EmptyString => Some acc
  | String c s' =>
      match digitOf c with
      | Some d => parseDecimal s' (10 * acc + d)%N
      | None => None
      end
  end.

Definition arrayIndex (key : string) : option N :=
  match key with
  | EmptyString => None
  | String c rest =>
      if (Ascii.N_of_ascii c =? 48)%N && negb (String.eqb rest "") then None
      else
        match parseDecimal key 0 with
        | Some n => if (n <? 4294967295)%N then Some n else None
        | None => None
        end
  end.

(** [Object.keys(obj)] for own keys created in the order [keys]: the array
    indices first, in ascending numeric order, then the other names in the
    order of their creation. *)
Definition Object_keys (keys : list string) : list string :=
  sort_by (fun a b =>
             (default 0%N (arrayIndex a) <? default 0%N (arrayIndex b))%N)
    (List.filter (fun k => bool_decide (arrayIndex k <> None)) keys)
  ++ List.filter (fun k => bool_decide (arrayIndex k = None)) keys.

(** [a > b] on two property values: numbers compare as numbers, texts by
    code units, and a text against a number converts to NaN. *)
Definition tallyGt (a b : option tally) : bool :=
  match a, b with
  | Some (Count x), Some (Count y) => (y <? x)%nat
  | Some (Text x), Some (Text y) =>
      match String.compare x y with Gt => true | _ => false end
  | _, _ => false
  end.

(** [reduce] without an initial value throws on an empty array. *)
Definition getMostFrequent (array : list string) : completion string :=
  let '(keys, counts) := countItems array in
  match Object_keys keys with
  | [] => Throw (TypeError "Reduce of empty array with no initial value")
  | k :: ks =>
      Normal (fold_left
                (fun a b => if tallyGt (counts !! a) (counts !! b) then a else b)
                ks k)
  end.

Definition calculateImprovementRate (array : list number) : number :=
  if (length array <? 5)%nat then Fin 0
  else
    let recent := slice_from (-3) array in
    let older := slice (-6) (-3) array in
    if (length older =? 0)%nat then Fin 0
    else ((mean recent - mean older) / JS.max (mean older) (Fin 1))%js.

Definition calculateChallengePreference (games' : list GameRecord) : number :=
  let difficulties := map (fun g => encodeDifficulty (difficulty g)) games' in
  (mean difficulties / Fin 4)%js.

Definition calculateFrustrationLevel (games' : list GameRecord) : number :=
  let incompleteGames := List.filter (fun g => negb (completed g)) games' in
  let lowScores := List.filter (fun g => (score g <? Fin 30)%js) games' in
  ((of_nat (length incompleteGames) + of_nat (length lowScores))
   / of_nat (length games'))%js.

Definition gameTypes : list string :=
  ["memory_game"; "reaction_game"; "calculation_game"; "pattern_memory";
   "puzzle_game"]%string.

Definition analyzeGamePreferences (games' : list GameRecord) : gmap string number :=
  list_to_map
    (map (fun gameType' =>
            let gameCount := count (fun g => String.eqb (gameType g) gameType') games' in
            (gameType', (gameCount / of_nat (length games'))%js))
         gameTypes).

Definition analyzePerformanceByGame (games' : list GameRecord) : gmap string number :=
  list_to_map
    (map (fun gameType' =>
            let gameScores :=
              map score (List.filter (fun g => String.eqb (gameType g) gameType') games') in
            (gameType',
             if (0 <? length gameScores)%nat then (mean gameScores / Fin 100)%js
             else Fin 0))
         gameTypes).

Definition analyzeEngagementByGame (games' : list GameRecord) : gmap string number :=
  list_to_map
    (map (fun gameType' =>
            let gameCount := count (fun g => String.eqb (gameType g) gameType') games' in
            (gameType', (gameCount / of_nat (length games'))%js))
         gameTypes).

Definition calculateExplorationTendency (userData : UserData) : completion number :=
  let* gs := games_of userData in
  let uniqueGames : gset string := list_to_set (map gameType gs) in
  Normal (of_nat (size uniqueGames) / Fin 5)%js.

Definition calculateOverallSkillLevel (userData : UserData) : completion number :=
  let* gs := games_of userData in
  Normal (mean (map score gs) / Fin 100)%js.

Definition calculateTimeAvailability (userData : UserData) : completion number :=
  let* gs := games_of userData in
  let recentGames := List.filter (withinDays 7) gs in
  let totalPlayTime :=
    fold_left (fun sum g => (sum + or_zero (playTime g))%js) recentGames (Fin 0) in
  Normal (JS.min (totalPlayTime / Fin (7 * 60 * 60)) (Fin 1))%js.

(** ** Default results *)

Definition getDefaultFeatures : ScoreFeatures :=
  {| averageScore := Fin 50;
     scoreTrend := Fin 0;
     scoreVariance := Fin 25;
     averagePlayTime := Fin 300;
     averageMistakes := Fin 3;
     completionRate := Fin 0.7;
     recentImprovement := Fin 0;
     consistency := Fin 0.5;
     difficultyLevel := Fin 2;
     gameExperience := Fin 5 |}.

Definition getDefaultDifficultyFeatures : DifficultyFeatures :=
  {| dAverageScore := Fin 50;
     scoreConsistency := Fin 0.5;
     preferredDifficulty := "medium";
     improvementRate := Fin 0;
     challengePreference := Fin 0.5;
     frustrationLevel := Fin 0.3 |}.

Definition getDefaultPrediction : ScorePrediction :=
  {| prediction := Fin 50;
     confidence := Fin 0.5;
     range := {| rmin := Fin 30; rmax := Fin 70 |};
     factors := None;
     horizon := 7 |}.

Definition getDefaultEngagementPrediction : EngagementPrediction :=
  {| ePrediction := Fin 0.5;
     eConfidence := Fin 0.5;
     trend := "stable";
     eFactors := None;
     eHorizon := 7 |}.

Definition getDefaultChurnPrediction : ChurnPrediction :=
  {| probability := Fin 0.3;
     cConfidence := Fin 0.5;
     riskLevel := "medium";
     cFactors := None;
     recommendations := [];
     cHorizon := 30 |}.

Definition getDefaultGameRecommendations (count' : Z) : list GameRecommendation :=
  let defaultGames :=
    [("memory_game", "記憶ゲーム"); ("reaction_game", "反応速度ゲーム");
     ("calculation_game", "計算ゲーム")]%string in
  mapi (fun (game : string * string) index =>
          {| rank := Z.of_nat index + 1;
             rGameType := fst game;
             gameName := snd game;
             rScore := Fin 0.5;
             rConfidence := Fin 0.5 |})
       (slice 0 count' defaultGames).

(** ** Feature extraction *)

Definition extractScoreFeatures (userData : UserData) (gameType' difficulty' : string)
  : completion ScoreFeatures :=
  let* gs := games_of userData in
  let recentGames :=
    List.filter
      (fun g => String.eqb (gameType g) gameType'
                && String.eqb (difficulty g) difficulty'
                && withinDays 30 g) gs in
  if (length recentGames <? 5)%nat then Normal getDefaultFeatures
  else
    let scores := map score recentGames in
    let playTimes := map playTime recentGames in
    let mistakes' := map (fun g => or_zero (mistakes g)) recentGames in
    let* experience := calculateGameExperience userData gameType' in
    Normal
      {| averageScore := mean scores;
         scoreTrend := calculateTrend scores;
         scoreVariance := variance scores;
         averagePlayTime := mean playTimes;
         averageMistakes := mean mistakes';
         completionRate :=
           (count completed recentGames / of_nat (length recentGames))%js;
         recentImprovement := calculateRecentImprovement scores;
         consistency := calculateConsistency scores;
         difficultyLevel := encodeDifficulty difficulty';
         gameExperience := experience |}.

Definition extractEngagementFeatures (userData : UserData)
  : completion EngagementFeatures :=
  let* gs := games_of userData in
  let recentActivity := List.filter (withinDays 7) gs in
  let dailyActivity := calculateDailyActivity recentActivity in
  let '(sessionPatterns, recentActivity) := analyzeSessionPatterns recentActivity in
  let gameDiversity' := calculateGameDiversity recentActivity in
  let* returnRate' := calculateReturnRate userData in
  Normal
    {| dailyPlayFrequency := mean dailyActivity;
       sessionDuration := mean (durations sessionPatterns);
       sessionFrequency := frequency sessionPatterns;
       gameDiversity := gameDiversity';
       eCompletionRate := calculateCompletionRate recentActivity;
       returnRate := returnRate';
       socialEngagement := calculateSocialEngagement userData;
       achievementRate := calculateAchievementRate userData |}.

(** Returns the features and the user data as the call leaves it:
    [calculateSessionDropoff] has [userData.games] sorted in place, and
    [calculateDaysSinceLastActivity] runs after it, on the sorted array. *)
Definition extractChurnFeatures (userData : UserData)
  : completion (ChurnFeatures * UserData) :=
  let* gs := games_of userData in
  let recentGames := List.filter (withinDays 30) gs in
  let* activityDecline' := calculateActivityDecline userData in
  let satisfactionMetrics := calculateSatisfactionMetrics recentGames in
  let* engagementMetrics := calculateEngagementMetrics userData in
  let averageScore' := mean (map score recentGames) in
  let scoreDecline' := calculateScoreDecline recentGames in
  let* dropoff := calculateSessionDropoff userData in
  let '(sessionDropoff', userData) := dropoff in
  let gameAbandonment' := calculateGameAbandonment recentGames in
  let* days := calculateDaysSinceLastActivity userData in
  Normal
    ({| activityDecline := activityDecline';
        cAverageScore := averageScore';
        scoreDecline := scoreDecline';
        sessionDropoff := sessionDropoff';
        gameAbandonment := gameAbandonment';
        satisfactionScore := mScore satisfactionMetrics;
        engagementScore := mScore engagementMetrics;
        daysSinceLastActivity := days |}, userData).

Definition extractDifficultyFeatures (userData : UserData) (gameType' : string)
  : completion DifficultyFeatures :=
  let* gs := games_of userData in
  let gameHistory := List.filter (fun g => String.eqb (gameType g) gameType') gs in
  if (length gameHistory =? 0)%nat then Normal getDefaultDifficultyFeatures
  else
    let recentGames := slice_from (-10) gameHistory in
    let scores := map score recentGames in
    let difficulties := map difficulty recentGames in
    let* preferred := getMostFrequent difficulties in
    Normal
      {| dAverageScore := mean scores;
         scoreConsistency := calculateConsistency scores;
         preferredDifficulty := preferred;
         improvementRate := calculateImprovementRate scores;
         challengePreference := calculateChallengePreference recentGames;
         frustrationLevel := calculateFrustrationLevel recentGames |}.

Definition extractGameRecommendationFeatures (userData : UserData)
  : completion GameRecommendationFeatures :=
  let* gs := games_of userData in
  let gamePreferences' := analyzeGamePreferences gs in
  let performanceByGame' := analyzePerformanceByGame gs in
  let engagementByGame' := analyzeEngagementByGame gs in
  let* exploration := calculateExplorationTendency userData in
  let* skill := calculateOverallSkillLevel userData in
  let* availability := calculateTimeAvailability userData in
  Normal
    {| gamePreferences := gamePreferences';
       performanceByGame := performanceByGame';
       engagementByGame := engagementByGame';
       explorationTendency := exploration;
       skillLevel := skill;
       timeAvailability := availability |}.

(** ** Prediction formulas *)

Definition calculatePredictionConfidence (features : ScoreFeatures) : number :=
  let factors' :=
    [ (consistency features * Fin 0.3)%js;
      (JS.min (gameExperience features / Fin 20) (Fin 1) * Fin 0.2)%js;
      ((Fin 1 - scoreVariance features / Fin 100) * Fin 0.3)%js;
      (JS.min (recentImprovement features / Fin 10) (Fin 1) * Fin 0.2)%js ] in
  JS.min (sum factors') (Fin 1).

Definition calculatePredictionMargin (features : ScoreFeatures) (horizon' : Z) : number :=
  let baseMargin := (scoreVariance features * Fin 0.5)%js in
  let horizonFactor := (JS.sqrt (of_Z horizon') * Fin 0.1)%js in
  (baseMargin * (Fin 1 + horizonFactor))%js.

Definition calculateScorePrediction (features : ScoreFeatures) (horizon' : Z)
  : ScorePrediction :=
  let baseScore' := averageScore features in
  let trendEffect := (scoreTrend features * of_Z horizon')%js in
  let improvementEffect' :=
    (recentImprovement features * of_Z (Z.min horizon' 7))%js in
  let consistencyEffect' := (consistency features * Fin 10)%js in
  let predictedScore :=
    (baseScore' + trendEffect + improvementEffect' + consistencyEffect')%js in
  let confidence' := calculatePredictionConfidence features in
  let margin := calculatePredictionMargin features horizon' in
  {| prediction := JS.max (Fin 0) (JS.round predictedScore);
     confidence := confidence';
     range := {| rmin := JS.max (Fin 0) (JS.round (predictedScore - margin)%js);
                 rmax := JS.round (predictedScore + margin)%js |};
     factors := Some {| baseScore := baseScore';
                        sTrendEffect := trendEffect;
                        improvementEffect := improvementEffect';
                        consistencyEffect := consistencyEffect' |};
     horizon := horizon' |}.

Definition calculateEngagementTrend (features : EngagementFeatures) : number :=
  (dailyPlayFrequency features * Fin 0.1)%js.

(** The methods an instance of [Date] answers to, among the names the
    engine calls.  [getDayOfYear] is not a method of ECMAScript's
    [Date.prototype] and no file of the repository adds it: looking it up
    gives undefined. *)
Definition Date_prototype (name : string) : option (Z -> number) :=
  if String.eqb name "getDay"
  then Some (fun date => match getDay date with Some day => of_Z day | None => NaN end)
  else if String.eqb name "getTime" then Some of_Z
  else None.

(** [date.name()]; calling undefined throws. *)
Definition callDateMethod (date : Z) (name : string) : completion number :=
  match Date_prototype name with
  | Some method => Normal (method date)
  | None => Throw (TypeError (name +:+ " is not a function"))
  end.

Definition calculateSeasonalEffect (horizon' : Z) : completion number :=
  let* dayOfYear := callDateMethod now "getDayOfYear" in
  Normal (JS.sin (dayOfYear / Fin 365 * Fin 2 * Fin PI) * Fin 0.1)%js.

Definition calculateEngagementConfidence (features : EngagementFeatures) : number :=
  (JS.min (sessionFrequency features / Fin 7) (Fin 1) * Fin 0.8 + Fin 0.2)%js.

Definition calculateEngagementPrediction (features : EngagementFeatures) (horizon' : Z)
  : completion EngagementPrediction :=
  let baseEngagement' := dailyPlayFrequency features in
  let trendEffect := calculateEngagementTrend features in
  let* seasonalEffect' := calculateSeasonalEffect horizon' in
  let predictedEngagement := (baseEngagement' + trendEffect + seasonalEffect')%js in
  let confidence' := calculateEngagementConfidence features in
  Normal
    {| ePrediction :=
         JS.max (Fin 0) (JS.round (predictedEngagement * Fin 100) / Fin 100)%js;
       eConfidence := confidence';
       trend := if (trendEffect >? Fin 0)%js then "increasing" else "decreasing";
       eFactors := Some {| baseEngagement := baseEngagement';
                           eTrendEffect := trendEffect;
                           seasonalEffect := seasonalEffect' |};
       eHorizon := horizon' |}.

Definition calculateChurnConfidence (features : ChurnFeatures) : number :=
  let factors' :=
    [ (JS.min (daysSinceLastActivity features / Fin 30) (Fin 1) * Fin 0.3)%js;
      (JS.min (activityDecline features) (Fin 1) * Fin 0.3)%js;
      (JS.min (scoreDecline features / Fin 50) (Fin 1) * Fin 0.2)%js;
      (JS.min (gameAbandonment features) (Fin 1) * Fin 0.2)%js ] in
  JS.min (sum factors') (Fin 1).

Definition classifyRiskLevel (probability' : number) : string :=
  if (probability' <? Fin 0.3)%js then "low"
  else if (probability' <? Fin 0.6)%js then "medium"
  else "high".

Definition generateChurnRecommendations (features : ChurnFeatures) : list string :=
  (if (activityDecline features >? Fin 0.5)%js
   then ["新しいゲームを試してみましょう"%string] else [])
  ++ (if (scoreDecline features >? Fin 20)%js
      then ["難易度を下げて練習しましょう"%string] else [])
  ++ (if (daysSinceLastActivity features >? Fin 7)%js
      then ["定期的にゲームを楽しみましょう"%string] else []).

(** The raw risk score and the logistic transform of it. *)
Definition churnRiskScore (features : ChurnFeatures) : number :=
  let riskFactors :=
    [ (activityDecline features * Fin 0.3)%js;
      (scoreDecline features * Fin 0.2)%js;
      (sessionDropoff features * Fin 0.25)%js;
      (gameAbandonment features * Fin 0.15)%js;
      ((Fin 30 - daysSinceLastActivity features) * Fin 0.1)%js ] in
  sum riskFactors.

Definition churnProbability (features : ChurnFeatures) : number :=
  (Fin 1 / (Fin 1 + JS.exp (neg (churnRiskScore features))))%js.

Definition calculateChurnPrediction (features : ChurnFeatures) (horizon' : Z)
  : ChurnPrediction :=
  let churnProbability' := churnProbability features in
  let confidence' := calculateChurnConfidence features in
  {| probability := (JS.round (churnProbability' * Fin 100) / Fin 100)%js;
     cConfidence := confidence';
     riskLevel := classifyRiskLevel churnProbability';
     cFactors := Some {| fActivityDecline := activityDecline features;
                         fScoreDecline := scoreDecline features;
                         fSessionDropoff := sessionDropoff features;
                         fGameAbandonment := gameAbandonment features;
                         fDaysSinceLastActivity := daysSinceLastActivity features |};
     recommendations := generateChurnRecommendations features;
     cHorizon := horizon' |}.

Definition generateDifficultyReasoning (features : DifficultyFeatures) : string :=
  if (dAverageScore features >? Fin 80)%js
  then "高いスコアを維持しているため、より難しい課題に挑戦することをお勧めします"
  else if (dAverageScore features <? Fin 40)%js
  then "基礎を固めるため、より簡単なレベルから始めることをお勧めします"
  else "現在のレベルで安定した成績を上げているため、この難易度を継続することをお勧めします".

Definition calculateDifficultyRecommendation (features : DifficultyFeatures)
  : DifficultyRecommendation :=
  let score' := dAverageScore features in
  let consistency' := scoreConsistency features in
  let improvement := improvementRate features in
  let '(recommendedDifficulty, confidence') :=
    if (score' >? Fin 80)%js && (consistency' >? Fin 0.8)%js
       && (improvement >? Fin 0)%js
    then ("hard"%string, Fin 0.9)
    else if (score' >? Fin 60)%js && (consistency' >? Fin 0.6)%js
    then ("medium"%string, Fin 0.7)
    else if (score' <? Fin 40)%js || (consistency' <? Fin 0.4)%js
    then ("easy"%string, Fin 0.8)
    else ("medium"%string, Fin 0.5) in
  {| recommended := recommendedDifficulty;
     dConfidence := confidence';
     reasoning := Some (generateDifficultyReasoning features) |}.

Definition getGameName (gameType' : string) : string :=
  if String.eqb gameType' "memory_game" then "記憶ゲーム"
  else if String.eqb gameType' "reaction_game" then "反応速度ゲーム"
  else if String.eqb gameType' "calculation_game" then "計算ゲーム"
  else if String.eqb gameType' "pattern_memory" then "パターンメモリーゲーム"
  else if String.eqb gameType' "puzzle_game" then "パズルゲーム"
  else gameType'.

Definition calculateGameRecommendationConfidence (score' : number) : number :=
  JS.min (score' * Fin 1.2)%js (Fin 1).

(** [obj[key] || 0] *)
Definition lookup_or_zero (obj : gmap string number) (key : string) : number :=
  match obj !! key with
  | Some v => or_zero v
  | None => Fin 0
  end.

Definition calculateGameRecommendations (features : GameRecommendationFeatures)
    (count' : Z) : list GameRecommendation :=
  let gameScores :=
    map (fun gameType' =>
           let performance := lookup_or_zero (performanceByGame features) gameType' in
           let engagement := lookup_or_zero (engagementByGame features) gameType' in
           let preference := lookup_or_zero (gamePreferences features) gameType' in
           let score' :=
             (performance * Fin 0.4 + engagement * Fin 0.3 + preference * Fin 0.3)%js in
           (gameType', score'))
        gameTypes in
  let gameScores :=
    sort_by (fun a b => (snd b - snd a <? Fin 0)%js) gameScores in
  mapi (fun (game : string * number) index =>
          {| rank := Z.of_nat index + 1;
             rGameType := fst game;
             gameName := getGameName (fst game);
             rScore := snd game;
             rConfidence := calculateGameRecommendationConfidence (snd game) |})
       (slice 0 count' gameScores).

(** ** The engine and its public methods *)

(** The engine instance ([cache], [lastUpdate]) together with the record
    store that answers [getUserData]: [store] maps a user to the data the
    server holds for it (a user absent from it makes the fetch fail).  Every
    fetch parses the response into a new object, and the engine sends
    nothing back.  [fetchCalls] and [extractCalls] count the calls of
    [getUserData] and of the feature extractors. *)
Record World : Type := {
  cache : gmap string Value;
  lastUpdate : Z;
  store : gmap string UserData;
  fetchCalls : nat;
  extractCalls : nat
}.

(** [new PredictionEngine()] in front of a record store. *)
Definition newEngine (store' : gmap string UserData) : World :=
  {| cache := ∅; lastUpdate := 0; store := store';
     fetchCalls := 0; extractCalls := 0 |}.

(** [this.config.updateInterval] *)
Definition updateInterval : Z := 24 * 60 * 60 * 1000.

Definition cacheSet (key : string) (v : Value) (w : World) : World :=
  {| cache := <[key := v]> (cache w); lastUpdate := lastUpdate w;
     store := store w; fetchCalls := fetchCalls w;
     extractCalls := extractCalls w |}.

Definition countFetch (w : World) : World :=
  {| cache := cache w; lastUpdate := lastUpdate w; store := store w;
     fetchCalls := S (fetchCalls w); extractCalls := extractCalls w |}.

Definition countExtract (w : World) : World :=
  {| cache := cache w; lastUpdate := lastUpdate w; store := store w;
     fetchCalls := fetchCalls w; extractCalls := S (extractCalls w) |}.

Definition getUserData (userId : string) (w : World) : completion UserData :=
  match store w !! userId with
  | Some userData => Normal userData
  | None => Throw (Error "Failed to fetch user data")
  end.

(** The cache keys: the template literals of the three cached methods. *)
Definition scoreKey (userId gameType' difficulty' : string) (horizon' : Z) : string :=
  ("score_" +:+ userId +:+ "_" +:+ gameType' +:+ "_" +:+ difficulty' +:+ "_"
   +:+ pretty horizon')%string.

Definition engagementKey (userId : string) (horizon' : Z) : string :=
  ("engagement_" +:+ userId +:+ "_" +:+ pretty horizon')%string.

Definition churnKey (userId : string) (horizon' : Z) : string :=
  ("churn_" +:+ userId +:+ "_" +:+ pretty horizon')%string.

(** [this.cache.has(key) && Date.now() - this.lastUpdate < updateInterval],
    and then [this.cache.get(key)]. *)
Definition cacheHit (key : string) (w : World) : option Value :=
  if (now - lastUpdate w <? updateInterval)%Z then cache w !! key else None.

(** The [try] blocks of the public methods: each gives the value to return
    and the world it leaves.  The world in which the [catch] block runs
    keeps the calls counted so far. *)
Definition scoreBody (userId gameType' difficulty' : string) (horizon' : Z)
    (cacheKey : string) (w : World) : completion (Value * World) :=
  let* userData := getUserData userId w in
  let w := countExtract (countFetch w) in
  let* features := extractScoreFeatures userData gameType' difficulty' in
  let prediction' := calculateScorePrediction features horizon' in
  Normal (VScore prediction', cacheSet cacheKey (VScore prediction') w).

Definition engagementBody (userId : string) (horizon' : Z) (cacheKey : string)
    (w : World) : completion (Value * World) :=
  let* userData := getUserData userId w in
  let w := countExtract (countFetch w) in
  let* features := extractEngagementFeatures userData in
  let* prediction' := calculateEngagementPrediction features horizon' in
  Normal (VEngagement prediction', cacheSet cacheKey (VEngagement prediction') w).

(** [extractChurnFeatures] sorts the [games] array of the object fetched for
    this call; nothing refers to that object once the method has returned. *)
Definition churnBody (userId : string) (horizon' : Z) (cacheKey : string)
    (w : World) : completion (Value * World) :=
  let* userData := getUserData userId w in
  let w := countExtract (countFetch w) in
  let* extracted := extractChurnFeatures userData in
  let '(features, _) := extracted in
  let prediction' := calculateChurnPrediction features horizon' in
  Normal (VChurn prediction', cacheSet cacheKey (VChurn prediction') w).

Definition difficultyBody (userId gameType' : string) (w : World)
  : completion (DifficultyRecommendation * World) :=
  let* userData := getUserData userId w in
  let w := countExtract (countFetch w) in
  let* features := extractDifficultyFeatures userData gameType' in
  Normal (calculateDifficultyRecommendation features, w).

Definition gamesBody (userId : string) (count' : Z) (w : World)
  : completion (list GameRecommendation * World) :=
  let* userData := getUserData userId w in
  let w := countExtract (countFetch w) in
  let* features := extractGameRecommendationFeatures userData in
  Normal (calculateGameRecommendations features count', w).

(** The world a [catch] block runs in: [getUserData] was called; the
    extractor was called when the fetch had succeeded. *)
Definition afterFailure (userId : string) (w : World) : World :=
  match getUserData userId w with
  | Normal _ => countExtract (countFetch w)
  | Throw _ => countFetch w
  end.

Definition predictScore (userId gameType' difficulty' : string)
    (horizon' : option Z) (w : World) : completion (Value * World) :=
  let horizon' := default 7%Z horizon' in
  let cacheKey := scoreKey userId gameType' difficulty' horizon' in
  match cacheHit cacheKey w with
  | Some cached => Normal (cached, w)
  | None =>
      try_catch (scoreBody userId gameType' difficulty' horizon' cacheKey w)
        (fun error => Normal (VScore getDefaultPrediction, afterFailure userId w))
  end.

Definition predictEngagement (userId : string) (horizon' : option Z) (w : World)
  : completion (Value * World) :=
  let horizon' := default 7%Z horizon' in
  let cacheKey := engagementKey userId horizon' in
  match cacheHit cacheKey w with
  | Some cached => Normal (cached, w)
  | None =>
      try_catch (engagementBody userId horizon' cacheKey w)
        (fun error =>
           Normal (VEngagement getDefaultEngagementPrediction, afterFailure userId w))
  end.

Definition predictChurnRisk (userId : string) (horizon' : option Z) (w : World)
  : completion (Value * World) :=
  let horizon' := default 30%Z horizon' in
  let cacheKey := churnKey userId horizon' in
  match cacheHit cacheKey w with
  | Some cached => Normal (cached, w)
  | None =>
      try_catch (churnBody userId horizon' cacheKey w)
        (fun error => Normal (VChurn getDefaultChurnPrediction, afterFailure userId w))
  end.

Definition recommendDifficulty (userId gameType' : string) (w : World)
  : completion (DifficultyRecommendation * World) :=
  try_catch (difficultyBody userId gameType' w)
    (fun error =>
       Normal ({| recommended := "medium"; dConfidence := Fin 0.5;
                  reasoning := None |}, afterFailure userId w)).

Definition recommendGames (userId : string) (count' : option Z) (w : World)
  : completion (list GameRecommendation * World) :=
  let count' := default 3%Z count' in
  try_catch (gamesBody userId count' w)
    (fun error => Normal (getDefaultGameRecommendations count', afterFailure userId w)).

End Clock.

(** * Specification-side definitions and sample inputs *)

(** The cascade as the specification words it: the first rule that matches
    decides. *)
Definition difficultyCascade (score' consistency' improvement : number)
  : string * number :=
  let rule1 := (score' >? Fin 80)%js && (consistency' >? Fin 0.8)%js
               && (improvement >? Fin 0)%js in
  let rule2 := (score' >? Fin 60)%js && (consistency' >? Fin 0.6)%js in
  let rule3 := (score' <? Fin 40)%js || (consistency' <? Fin 0.4)%js in
  match rule1, rule2, rule3 with
  | true, _, _ => ("hard"%string, Fin 0.9)
  | false, true, _ => ("medium"%string, Fin 0.7)
  | false, false, true => ("easy"%string, Fin 0.8)
  | false, false, false => ("medium"%string, Fin 0.5)
  end.

Definition outcome (r : DifficultyRecommendation) : string * number :=
  (recommended r, dConfidence r).

Definition difficultyFeatures (s c i : number) (rest : DifficultyFeatures)
  : DifficultyFeatures :=
  {| dAverageScore := s; scoreConsistency := c;
     preferredDifficulty := preferredDifficulty rest;
     improvementRate := i;
     challengePreference := challengePreference rest;
     frustrationLevel := frustrationLevel rest |}.

(** The filter of [extractScoreFeatures]: the records of the target game
    and difficulty that are younger than thirty days. *)
Definition qualifying (now : Z) (gameType' difficulty' : string) (g : GameRecord)
  : bool :=
  String.eqb (gameType g) gameType' && String.eqb (difficulty g) difficulty'
  && (now - 30 * (24 * 60 * 60 * 1000) <? timestamp g)%Z.

Definition sampleRecord (gameType' difficulty' : string) (score' : R) (ts : Z)
  : GameRecord :=
  {| gameType := gameType'; difficulty := difficulty'; score := Fin score';
     playTime := Fin 120; mistakes := Fin 1; completed := true;
     timestamp := ts |}.

Definition scoreFeatures (average trend variance' improvement consistency' experience
                          : number) (rest : ScoreFeatures) : ScoreFeatures :=
  {| averageScore := average; scoreTrend := trend; scoreVariance := variance';
     averagePlayTime := averagePlayTime rest;
     averageMistakes := averageMistakes rest;
     completionRate := completionRate rest;
     recentImprovement := improvement; consistency := consistency';
     difficultyLevel := difficultyLevel rest; gameExperience := experience |}.



Definition swingingFeatures : ScoreFeatures :=
  {| averageScore := Fin 50; scoreTrend := Fin (60 / 7); scoreVariance := Fin 2500;
     averagePlayTime := Fin 120; averageMistakes := Fin 1;
     completionRate := Fin 1; recentImprovement := Fin 0;
     consistency := Fin 0; difficultyLevel := Fin 2; gameExperience := Fin 6 |}.

(** One play a day over the last week. *)
Definition steadyFeatures : EngagementFeatures :=
  {| dailyPlayFrequency := Fin 1; sessionDuration := Fin 1;
     sessionFrequency := Fin 1; gameDiversity := Fin 0.2;
     eCompletionRate := Fin 1; returnRate := Fin 1;
     socialEngagement := Fin 0.5; achievementRate := Fin 0.3 |}.

(** The record store serving other data; the engine is untouched. *)
Definition withStore (store' : gmap string UserData) (w : World) : World :=
  {| cache := cache w; lastUpdate := lastUpdate w; store := store';
     fetchCalls := fetchCalls w; extractCalls := extractCalls w |}.

(** What a [try] block that completes leaves behind. *)
Definition stored (key : string) (v : Value) (w w' : World) : Prop :=
  cache w' !! key = Some v
  /\ lastUpdate w' = lastUpdate w
  /\ fetchCalls w' = S (fetchCalls w)
  /\ extractCalls w' = S (extractCalls w).

(** The discipline shared by the three cached methods, for a method
    [method now w] with cache key [key], [try] block [body] and default
    [fallback]:
    - a request that finds the key while [now - lastUpdate] is below the
      refresh interval returns the cached value and leaves the world as it
      is (no fetch, no extraction);
    - a request made once the interval has elapsed runs the [try] block:
      when that completes, its value is returned and is in the cache under
      the key; when it throws, the default is returned and the cache is as
      before. *)
Definition getOrCompute
    (method body : Z -> World -> completion (Value * World))
    (key userId : string) (fallback : Value) : Prop :=
  (forall now w v,
      cache w !! key = Some v ->
      (now - lastUpdate w < updateInterval)%Z ->
      method now w = Normal (v, w))
  /\ (forall now w,
        (updateInterval <= now - lastUpdate w)%Z ->
        match body now w with
        | Normal (v, w') => method now w = Normal (v, w') /\ stored key v w w'
        | Throw _ =>
            method now w = Normal (fallback, afterFailure userId w)
            /\ cache (afterFailure userId w) = cache w
            /\ fetchCalls (afterFailure userId w) = S (fetchCalls w)
        end).

(** A pair of identical requests: when the first one left its result in the
    cache (it was a hit, or its [try] block completed) and the second one
    arrives with [now - lastUpdate] below the refresh interval, the second
    returns the same value and changes nothing, whatever the record store
    holds by then. *)
Definition repeatedRequest
    (method body : Z -> World -> completion (Value * World)) (key : string) : Prop :=
  forall now1 now2 w v1 w1 store2,
    method now1 w = Normal (v1, w1) ->
    (cacheHit now1 key w <> None \/ exists r, body now1 w = Normal r) ->
    (now2 - lastUpdate w1 < updateInterval)%Z ->
    cache w1 !! key = Some v1
    /\ method now2 (withStore store2 w1) = Normal (v1, withStore store2 w1).

(** An engine whose [lastUpdate] was set to one second before the requests
    (the constructor leaves it at 0), in front of a store whose object for
    "u1" lacks the [games] property. *)
Definition stampedEngine : World :=
  {| cache := ∅; lastUpdate := 1699999999000;
     store := {[ "u1"%string := {| games := None |} ]};
     fetchCalls := 0; extractCalls := 0 |}.

(** The same engine in front of a store that knows "u2", with no game yet. *)
Definition servingEngine : World :=
  withStore {[ "u2"%string := {| games := Some [] |} ]} stampedEngine.

Definition byTimestamp (a b : GameRecord) : Prop := (timestamp a <= timestamp b)%Z.

(** A history the store holds with the newer game first. *)
Definition laterGame : GameRecord := sampleRecord "memory_game" "medium" 60 1699999002000.
Definition earlierGame : GameRecord := sampleRecord "memory_game" "medium" 40 1699999001000.

Definition churnFeatures (activity scoreDrop dropoff abandonment days : number)
    (rest : ChurnFeatures) : ChurnFeatures :=
  {| activityDecline := activity; cAverageScore := cAverageScore rest;
     scoreDecline := scoreDrop; sessionDropoff := dropoff;
     gameAbandonment := abandonment;
     satisfactionScore := satisfactionScore rest;
     engagementScore := engagementScore rest;
     daysSinceLastActivity := days |}.

(** The raw risk score and the logistic transform over the reals. *)
Definition riskOf (activity scoreDrop dropoff abandonment days : R) : R :=
  0.3 * activity + 0.2 * scoreDrop + 0.25 * dropoff + 0.15 * abandonment
  + 0.1 * (30 - days).

Definition logistic (risk : R) : R := 1 / (1 + Rtrigo_def.exp (- risk)).

(** The transform as the code computes it: [Math.exp(-risk)] is Infinity
    for a risk of -710 or less, which makes the quotient 0, and 0 for a risk
    above 746, which makes it 1. *)
Definition saturatedLogistic (risk : R) : R :=
  if Rle_dec risk (- 710) then 0
  else if Rle_dec risk 746 then logistic risk
  else 1.

(** [Math.round(p * 100) / 100] over the reals. *)
Definition roundedPercent (p : R) : R := IZR (Zfloor (p * 100 + / 2)) / 100.


(** Five games of one kind: a 10, then four zeros. *)
Definition decliningHistory : list GameRecord :=
  [sampleRecord "memory_game" "medium" 10 1699999000000;
   sampleRecord "memory_game" "medium" 0 1699999100000;
   sampleRecord "memory_game" "medium" 0 1699999200000;
   sampleRecord "memory_game" "medium" 0 1699999300000;
   sampleRecord "memory_game" "medium" 0 1699999400000].

Definition decliningFeatures : ScoreFeatures :=
  {| averageScore := Fin 2; scoreTrend := Fin (- 2); scoreVariance := Fin 16;
     averagePlayTime := Fin 120; averageMistakes := Fin 1;
     completionRate := Fin 1; recentImprovement := Fin 0;
     consistency := Fin 0; difficultyLevel := Fin 2; gameExperience := Fin 5 |}.

(** Ordering by an integer key: the comparator of a sort and the order it
    establishes. *)
Definition precedesBy {A} (key : A -> Z) (x y : A) : bool := (key x <? key y)%Z.

Definition ascendingBy {A} (key : A -> Z) : list A -> Prop :=
  StronglySorted (fun x y => (key x <= key y)%Z).

(** ** Definitions for the further properties *)

(** The sum of a list of reals. *)
Definition Rsum (l : list R) : R := fold_right Rplus 0 l.

(** The mean and the population variance over the reals. *)
Definition Rmean (l : list R) : R := Rsum l / INR (length l).

Definition Rvariance (l : list R) : R :=
  Rsum (map (fun v => (v - Rmean l) * (v - Rmean l)) l) / INR (length l).

(** Scores that are whole numbers of moderate size, a million of them at
    most: every sum the statistics form over such scores is a whole number
    (or a multiple of 1/4) far below 2^53, which binary64 holds exactly, so
    that only the final quotients are rounded. *)
Definition integerScores (zs : list Z) : list number :=
  map (fun z => Fin (IZR z)) zs.

Definition moderateScores (zs : list Z) : Prop :=
  (Z.of_nat (length zs) <= 1000000)%Z
  /\ Forall (fun z => (- 1000000 <= z <= 1000000)%Z) zs.

Definition allEqual (zs : list Z) : Prop :=
  forall a b, In a zs -> In b zs -> a = b.

(** The two sums of the least-squares slope, over the pairs (index, value). *)
Definition Rcross (xm ym : R) (ps : list (R * R)) : R :=
  Rsum (map (fun p => (fst p - xm) * (snd p - ym)) ps).

Definition Rsquares (xm : R) (ps : list (R * R)) : R :=
  Rsum (map (fun p => (fst p - xm) * (fst p - xm)) ps).

(** The indices 0, 1, ..., n-1 as reals, and the scores [a + d * i]. *)
Definition indices (n : nat) : list R := map INR (seq 0 n).

Definition linearScores (a d : R) (n : nat) : list R :=
  map (fun x => a + d * x) (indices n).

(** The last element of a list, if any. *)
Definition lastOf {A} (l : list A) : option A := hd_error (rev l).

(** Consecutive records of the list are less than thirty minutes apart. *)
Fixpoint gapsBelowHalfHour (l : list GameRecord) : Prop :=
  match l with
  | a :: (b :: _) as rest =>
      (timestamp b - timestamp a < 30 * 60 * 1000)%Z /\ gapsBelowHalfHour rest
  | _ => True
  end.

(** A session object is consistent with the games it holds. *)
Definition sessionConsistent (s : Session) : Prop :=
  sGames s <> []
  /\ duration s = JS.of_nat (length (sGames s))
  /\ hd_error (map timestamp (sGames s)) = Some (startTime s)
  /\ lastOf (map timestamp (sGames s)) = Some (endTime s)
  /\ gapsBelowHalfHour (sGames s).

(** Each session starts thirty minutes or more after the one before it ended. *)
Fixpoint sessionsApart (sessions : list Session) : Prop :=
  match sessions with
  | s1 :: (s2 :: _) as rest =>
      (30 * 60 * 1000 <= startTime s2 - endTime s1)%Z /\ sessionsApart rest
  | _ => True
  end.

(** What the loop of [groupIntoSessions] keeps true after the records [seen]. *)
Definition sessionLoopInv (st : list Session * list GameRecord)
    (seen : list GameRecord) : Prop :=
  let '(sessions, currentSession) := st in
  concat (map sGames sessions) ++ currentSession = seen
  /\ Forall sessionConsistent sessions
  /\ sessionsApart sessions
  /\ gapsBelowHalfHour currentSession
  /\ (currentSession = [] -> sessions = [])
  /\ (forall s g, lastOf sessions = Some s -> hd_error currentSession = Some g ->
                  (30 * 60 * 1000 <= timestamp g - endTime s)%Z).

(** What the loop of [getMostFrequent] keeps true after the items [seen]:
    the own keys are the items seen other than [__proto__], they are the
    names that have a value, and the value of a name that [Object.prototype]
    does not define is the number of its occurrences. *)
Definition countLoopInv (acc : list string * gmap string tally) (seen : list string)
  : Prop :=
  (forall k, In k (fst acc) <-> In k seen /\ k <> "__proto__"%string)
  /\ (forall k, is_Some (snd acc !! k) <-> In k (fst acc))
  /\ (forall k, In k (fst acc) -> inherited k = false ->
                snd acc !! k = Some (Count (count_occ string_dec seen k))).


(** A cache entry is filed under a key of its own kind. *)
Definition kindMatches (key : string) (v : Value) : Prop :=
  match v with
  | VScore _ => exists rest, key = ("score_" +:+ rest)%string
  | VEngagement _ => exists rest, key = ("engagement_" +:+ rest)%string
  | VChurn _ => exists rest, key = ("churn_" +:+ rest)%string
  end.

Definition cacheWellKinded (w : World) : Prop :=
  forall key v, cache w !! key = Some v -> kindMatches key v.

(** The forecast of [calculateScorePrediction] before rounding and
    flooring, and the half-width of its range. *)
Definition rawForecast (average trend improvement consistency' : R) (horizon' : Z) : R :=
  average + trend * IZR horizon' + improvement * IZR (Z.min horizon' 7)
  + consistency' * 10.

Definition rawMargin (variance' : R) (horizon' : Z) : R :=
  variance' * 0.5 * (1 + R_sqrt.sqrt (IZR horizon') * 0.1).

Definition nearest (r : R) : Z := Zfloor (r + / 2).

(** The recommendation score [calculateGameRecommendations] gives a game of
    the catalog. *)
Definition recommendationScore (features : GameRecommendationFeatures)
    (gameType' : string) : number :=
  (lookup_or_zero (performanceByGame features) gameType' * Fin 0.4
   + lookup_or_zero (engagementByGame features) gameType' * Fin 0.3
   + lookup_or_zero (gamePreferences features) gameType' * Fin 0.3)%js.

(** The comparator [(a, b) => b.score - a.score] read as "a goes before b". *)
Definition higherScoreFirst (a b : string * number) : bool :=
  (snd b - snd a <? Fin 0)%js.

Definition finiteScore (a : string * number) : Prop := exists r, snd a = Fin r.

(** [b] does not score above [a]. *)
Definition notAbove (a b : number) : Prop := JS.le b a = true.

Definition descendingScores (l : list (string * number)) : Prop :=
  StronglySorted (fun a b => notAbove (snd a) (snd b)) l.

(** No entry of the object is [Infinity] or [-Infinity]. *)
Definition noInfinity (obj : gmap string number) : Prop :=
  forall key v, obj !! key = Some v -> v <> PInf /\ v <> NInf.

Definition boundedFeatures (features : GameRecommendationFeatures) : Prop :=
  noInfinity (performanceByGame features)
  /\ noInfinity (engagementByGame features)
  /\ noInfinity (gamePreferences features).

(** Down the catalog the value an object holds for a game (0 where it
    holds none) never goes up. *)
Definition neverRising (obj : gmap string number) : Prop :=
  StronglySorted
    (fun g1 g2 => notAbove (lookup_or_zero obj g1) (lookup_or_zero obj g2))
    gameTypes.

(** The ranks 1, 2, ..., n. *)
Definition ranksUpTo (n : nat) : list Z := map (fun k => (Z.of_nat k + 1)%Z) (seq 0 n).

(** The features of a user who has played nothing but the memory game. *)
Definition memoryPlayerFeatures : GameRecommendationFeatures :=
  {| gamePreferences := {[ "memory_game"%string := Fin 1 ]};
     performanceByGame := {[ "memory_game"%string := Fin 0.75 ]};
     engagementByGame := ∅;
     explorationTendency := Fin 0.2; skillLevel := Fin 0.75;
     timeAvailability := Fin 0 |}.

(** The features of a user about whom nothing is known. *)
Definition noGameFeatures : GameRecommendationFeatures :=
  {| gamePreferences := ∅; performanceByGame := ∅; engagementByGame := ∅;
     explorationTendency := Fin 0; skillLevel := Fin 0;
     timeAvailability := Fin 0 |}.

(** * Properties *)

(** ** Evaluating comparisons of reals *)

Lemma Rltb_true (a b : R) : a < b -> Rltb a b = true.
Proof. intros H. unfold Rltb. destruct (Rlt_dec a b); [reflexivity | contradiction]. Qed.

Lemma Rltb_false (a b : R) : b <= a -> Rltb a b = false.
Proof. intros H. unfold Rltb. destruct (Rlt_dec a b); [lra | reflexivity]. Qed.

Lemma Rltb_spec (a b : R) : reflect (a < b) (Rltb a b).
Proof. unfold Rltb. destruct (Rlt_dec a b); constructor; assumption. Qed.

Lemma Reqb_true (a b : R) : a = b -> Reqb a b = true.
Proof. intros H. unfold Reqb. destruct (Req_dec_T a b); [reflexivity | contradiction]. Qed.

Lemma Reqb_false (a b : R) : a <> b -> Reqb a b = false.
Proof. intros H. unfold Reqb. destruct (Req_dec_T a b); [contradiction | reflexivity]. Qed.

(** Decides every comparison of the goal whose operands [lra] can order. *)
Ltac decide_cmp :=
  repeat match goal with
    | |- context [Rltb ?a ?b] =>
        first [ rewrite (Rltb_true a b) by lra
              | rewrite (Rltb_false a b) by lra ]
    | |- context [Reqb ?a ?b] =>
        first [ rewrite (Reqb_true a b) by lra
              | rewrite (Reqb_false a b) by lra ]
    end.

(** ** C7: the rule cascade of the difficulty recommendation *)

Lemma difficulty_refines_cascade (features : DifficultyFeatures) :
  outcome (calculateDifficultyRecommendation features)
  = difficultyCascade (dAverageScore features) (scoreConsistency features)
      (improvementRate features).
Proof.
  unfold calculateDifficultyRecommendation, difficultyCascade, outcome.
  destruct (_ && _ && _); [reflexivity|].
  destruct (_ && _); [reflexivity|].
  destruct (_ || _); reflexivity.
Qed.

(** On finite features the rules are the inequalities over the reals. *)
Lemma difficultyCascade_finite (s c i : R) :
  (s > 80 /\ c > 0.8 /\ i > 0 ->
   difficultyCascade (Fin s) (Fin c) (Fin i) = ("hard"%string, Fin 0.9))
  /\ (~ (s > 80 /\ c > 0.8 /\ i > 0) -> s > 60 /\ c > 0.6 ->
      difficultyCascade (Fin s) (Fin c) (Fin i) = ("medium"%string, Fin 0.7))
  /\ (~ (s > 80 /\ c > 0.8 /\ i > 0) -> ~ (s > 60 /\ c > 0.6) ->
      s < 40 \/ c < 0.4 ->
      difficultyCascade (Fin s) (Fin c) (Fin i) = ("easy"%string, Fin 0.8))
  /\ (~ (s > 80 /\ c > 0.8 /\ i > 0) -> ~ (s > 60 /\ c > 0.6) ->
      ~ (s < 40 \/ c < 0.4) ->
      difficultyCascade (Fin s) (Fin c) (Fin i) = ("medium"%string, Fin 0.5)).
Proof.
  unfold difficultyCascade, JS.gt, JS.lt.
  destruct (Rltb_spec 80 s), (Rltb_spec 0.8 c), (Rltb_spec 0 i),
    (Rltb_spec 60 s), (Rltb_spec 0.6 c), (Rltb_spec s 40), (Rltb_spec c 0.4);
    cbn [andb orb]; repeat split; intros; try reflexivity; exfalso;
    try tauto; try lra.
Qed.

(** C7.  The recommendation is the first matching rule of the cascade
    (score > 80 and consistency > 0.8 and improvement > 0: hard, 0.9;
    else score > 60 and consistency > 0.6: medium, 0.7; else score < 40 or
    consistency < 0.4: easy, 0.8; else medium, 0.5), for every feature
    vector; on finite features the rules are the inequalities over the
    reals; and the three sample vectors give hard/0.9, easy/0.8 and
    medium/0.5, whatever their other fields hold. *)
Theorem difficulty_recommendation_cascade :
  (forall features,
      outcome (calculateDifficultyRecommendation features)
      = difficultyCascade (dAverageScore features) (scoreConsistency features)
          (improvementRate features))
  /\ (forall (s c i : R) rest,
        let r := outcome (calculateDifficultyRecommendation
                            (difficultyFeatures (Fin s) (Fin c) (Fin i) rest)) in
        let rule1 := s > 80 /\ c > 0.8 /\ i > 0 in
        let rule2 := s > 60 /\ c > 0.6 in
        let rule3 := s < 40 \/ c < 0.4 in
        (rule1 -> r = ("hard"%string, Fin 0.9))
        /\ (~ rule1 -> rule2 -> r = ("medium"%string, Fin 0.7))
        /\ (~ rule1 -> ~ rule2 -> rule3 -> r = ("easy"%string, Fin 0.8))
        /\ (~ rule1 -> ~ rule2 -> ~ rule3 -> r = ("medium"%string, Fin 0.5)))
  /\ (forall rest,
        outcome (calculateDifficultyRecommendation
                   (difficultyFeatures (Fin 85) (Fin 0.85) (Fin 1) rest))
        = ("hard"%string, Fin 0.9))
  /\ (forall improvement rest,
        outcome (calculateDifficultyRecommendation
                   (difficultyFeatures (Fin 30) (Fin 0.3) improvement rest))
        = ("easy"%string, Fin 0.8))
  /\ (forall improvement rest,
        outcome (calculateDifficultyRecommendation
                   (difficultyFeatures (Fin 50) (Fin 0.5) improvement rest))
        = ("medium"%string, Fin 0.5)).
Proof.
  split; [exact difficulty_refines_cascade|].
  split.
  { intros s c i rest r rule1 rule2 rule3. subst r.
    rewrite difficulty_refines_cascade. cbn [difficultyFeatures dAverageScore
      scoreConsistency improvementRate].
    exact (difficultyCascade_finite s c i). }
  repeat split; intros; rewrite difficulty_refines_cascade;
    cbn [difficultyFeatures dAverageScore scoreConsistency improvementRate];
    unfold difficultyCascade, JS.gt, JS.lt.
  - decide_cmp. reflexivity.
  - decide_cmp. destruct improvement; decide_cmp; reflexivity.
  - decide_cmp. destruct improvement; decide_cmp; reflexivity.
Qed.

Lemma difficulty_recommendation_cascade_witness :
  outcome (calculateDifficultyRecommendation
             (difficultyFeatures (Fin 70) (Fin 0.7) (Fin 0)
                getDefaultDifficultyFeatures))
  = ("medium"%string, Fin 0.7).
Proof.
  destruct difficulty_recommendation_cascade as (_ & Hfinite & _).
  destruct (Hfinite 70 0.7 0 getDefaultDifficultyFeatures) as (_ & Hrule2 & _).
  apply Hrule2; lra.
Defined.

(** ** C6: the default score features *)

(** C6.  When fewer than five records of the history match the target game
    type and difficulty inside the thirty-day window, [extractScoreFeatures]
    returns exactly the default vector. *)
Theorem extractScoreFeatures_sparse_default
    (now : Z) (userData : UserData) (history : list GameRecord)
    (gameType' difficulty' : string) :
  games userData = Some history ->
  (length (List.filter (qualifying now gameType' difficulty') history) < 5)%nat ->
  extractScoreFeatures now userData gameType' difficulty'
  = Normal {| averageScore := Fin 50; scoreTrend := Fin 0; scoreVariance := Fin 25;
              averagePlayTime := Fin 300; averageMistakes := Fin 3;
              completionRate := Fin 0.7; recentImprovement := Fin 0;
              consistency := Fin 0.5; difficultyLevel := Fin 2;
              gameExperience := Fin 5 |}.
Proof.
  intros Hgames Hfew.
  unfold extractScoreFeatures, games_of. rewrite Hgames. cbn [JS.bind].
  change (fun g => String.eqb (gameType g) gameType'
                   && String.eqb (difficulty g) difficulty'
                   && withinDays now 30 g)
    with (qualifying now gameType' difficulty').
  apply Nat.ltb_lt in Hfew. rewrite Hfew. reflexivity.
Qed.

Lemma extractScoreFeatures_sparse_default_witness :
  extractScoreFeatures 1700000000000
    {| games := Some [sampleRecord "memory_game" "medium" 40 1699999999000;
                      sampleRecord "memory_game" "medium" 45 1699999999500] |}
    "memory_game" "medium"
  = Normal getDefaultFeatures.
Proof.
  apply (extractScoreFeatures_sparse_default 1700000000000 _
           [sampleRecord "memory_game" "medium" 40 1699999999000;
            sampleRecord "memory_game" "medium" 45 1699999999500]).
  - reflexivity.
  - vm_compute. lia.
Defined.

(** ** Arithmetic on finite numbers *)


Lemma div_Fin (a b : R) : b <> 0 -> (Fin a / Fin b)%js = Fin (a / b).
Proof. intros Hb. unfold JS.div. rewrite Reqb_false by assumption. reflexivity. Qed.

(** ** C4: the confidence of a score prediction *)


(** *** Evaluating the statistics on a literal history *)

Lemma extractScoreFeatures_dense
    (now : Z) (userData : UserData) (history : list GameRecord)
    (gameType' difficulty' : string) :
  games userData = Some history ->
  let recent := List.filter (qualifying now gameType' difficulty') history in
  (5 <= length recent)%nat ->
  extractScoreFeatures now userData gameType' difficulty'
  = Normal
      {| averageScore := mean (map score recent);
         scoreTrend := calculateTrend (map score recent);
         scoreVariance := variance (map score recent);
         averagePlayTime := mean (map playTime recent);
         averageMistakes := mean (map (fun g => or_zero (mistakes g)) recent);
         completionRate := (count completed recent / of_nat (length recent))%js;
         recentImprovement := calculateRecentImprovement (map score recent);
         consistency := calculateConsistency (map score recent);
         difficultyLevel := encodeDifficulty difficulty';
         gameExperience :=
           count (fun g => String.eqb (gameType g) gameType') history |}.
Proof.
  intros Hgames recent Hlen.
  unfold extractScoreFeatures, calculateGameExperience, games_of.
  rewrite Hgames. cbn [JS.bind].
  change (fun g => String.eqb (gameType g) gameType'
                   && String.eqb (difficulty g) difficulty'
                   && withinDays now 30 g)
    with (qualifying now gameType' difficulty').
  fold recent. apply Nat.ltb_ge in Hlen. rewrite Hlen. reflexivity.
Qed.

Lemma sqrt_between (lo hi x : R) :
  0 <= lo -> 0 <= hi -> lo * lo < x < hi * hi -> lo < R_sqrt.sqrt x < hi.
Proof.
  intros Hlo Hhi [H1 H2]. split.
  - rewrite <- (sqrt_square lo Hlo) at 1. apply sqrt_lt_1; nra.
  - rewrite <- (sqrt_square hi Hhi) at 1. apply sqrt_lt_1; nra.
Qed.

(** Unfolds the statistics over a literal list down to real arithmetic. *)
Ltac js_eval :=
  unfold calculateRecentImprovement, calculateConsistency, calculateTrend,
    variance, mean, JS.sum, JS.sub, JS.of_nat, JS.of_Z, JS.gt;
  cbn [fold_left map combine seq length Nat.ltb Nat.leb Nat.eqb fst snd INR
       JS.add JS.neg JS.mul JS.square].

(** Closes [Fin a = Fin b] goals left by [js_eval]. *)
Ltac js_number :=
  js_eval; unfold JS.div; decide_cmp; js_eval; unfold JS.strict_eq; decide_cmp;
  try (f_equal; first [lra | field]).






(** ** C2: the engagement prediction *)

Lemma calculateSeasonalEffect_throws (now tzOffset horizon' : Z) :
  calculateSeasonalEffect now tzOffset horizon'
  = Throw (TypeError "getDayOfYear is not a function").
Proof. reflexivity. Qed.

Lemma calculateEngagementPrediction_throws
    (now tzOffset : Z) (features : EngagementFeatures) (horizon' : Z) :
  calculateEngagementPrediction now tzOffset features horizon'
  = Throw (TypeError "getDayOfYear is not a function").
Proof. reflexivity. Qed.

Lemma engagementBody_throws
    (now tzOffset : Z) (userId : string) (horizon' : Z) (key : string) (w : World) :
  exists e, engagementBody now tzOffset userId horizon' key w = Throw e.
Proof.
  unfold engagementBody.
  destruct (getUserData userId w) as [userData|e]; cbn [JS.bind]; [|eauto].
  destruct (extractEngagementFeatures now tzOffset userData) as [features|e];
    cbn [JS.bind]; eauto.
Qed.

Lemma predictEngagement_miss
    (now tzOffset : Z) (userId : string) (horizon' : option Z) (w : World) :
  cacheHit now (engagementKey userId (default 7%Z horizon')) w = None ->
  predictEngagement now tzOffset userId horizon' w
  = Normal (VEngagement getDefaultEngagementPrediction, afterFailure userId w).
Proof.
  intros Hmiss. unfold predictEngagement. rewrite Hmiss.
  destruct (engagementBody_throws now tzOffset userId (default 7%Z horizon')
              (engagementKey userId (default 7%Z horizon')) w) as [e He].
  rewrite He. reflexivity.
Qed.

(** C2.  The code at a failing input: [calculateEngagementPrediction] throws
    at [new Date().getDayOfYear()] before any value is computed, and
    [predictEngagement] answers with its fixed default, prediction 0.5 and
    trend "stable", where the specification has 1 + 0.1 + seasonal term and the
    label "increasing". *)
Theorem engagement_prediction_throws_at_steady_features :
  calculateEngagementPrediction 1700000000000 0 steadyFeatures 7
  = Throw (TypeError "getDayOfYear is not a function")
  /\ (forall userData,
        predictEngagement 1700000000000 0 "u1" (Some 7%Z)
          (newEngine {[ "u1"%string := userData ]})
        = Normal (VEngagement
                    {| ePrediction := Fin 0.5; eConfidence := Fin 0.5;
                       trend := "stable"; eFactors := None; eHorizon := 7 |},
                  afterFailure "u1" (newEngine {[ "u1"%string := userData ]}))).
Proof.
  split; [reflexivity|].
  intros userData. apply predictEngagement_miss. reflexivity.
Qed.

(** ** C5: failures are caught and answered with the defaults *)

Lemma try_catch_returns {A} (body : completion A) (fallback : A) :
  exists a, try_catch body (fun _ => Normal fallback) = Normal a.
Proof. destruct body; cbn [JS.try_catch]; eauto. Qed.

(** A failed fetch makes every [try] block throw. *)
Lemma bodies_throw_without_user
    (now tzOffset : Z) (userId gameType' difficulty' key : string)
    (horizon' count' : Z) (w : World) :
  store w !! userId = None ->
  let failure := Error "Failed to fetch user data" in
  scoreBody now userId gameType' difficulty' horizon' key w = Throw failure
  /\ engagementBody now tzOffset userId horizon' key w = Throw failure
  /\ churnBody now userId horizon' key w = Throw failure
  /\ difficultyBody userId gameType' w = Throw failure
  /\ gamesBody now userId count' w = Throw failure.
Proof.
  intros Hnone failure.
  unfold scoreBody, engagementBody, churnBody, difficultyBody, gamesBody,
    getUserData.
  rewrite Hnone. cbn [JS.bind]. repeat split; reflexivity.
Qed.

(** C5.  Each of the five public methods returns normally in every world:
    none lets an exception out.  When the request is not served from the
    cache and its [try] block throws, whatever the exception, the result is
    the fixed default of the method: prediction 50, confidence 0.5, range
    30 to 70 for the score; "medium" with confidence 0.5 for the
    difficulty; the defaults of the engagement, churn and game methods
    likewise. *)
Theorem public_methods_catch_and_default
    (now tzOffset : Z) (userId gameType' difficulty' : string)
    (horizon' count' : option Z) (w : World) :
  ((exists r, predictScore now userId gameType' difficulty' horizon' w = Normal r)
   /\ (exists r, predictEngagement now tzOffset userId horizon' w = Normal r)
   /\ (exists r, predictChurnRisk now userId horizon' w = Normal r)
   /\ (exists r, recommendDifficulty userId gameType' w = Normal r)
   /\ (exists r, recommendGames now userId count' w = Normal r))
  /\ (forall e,
        let key := scoreKey userId gameType' difficulty' (default 7%Z horizon') in
        cacheHit now key w = None ->
        scoreBody now userId gameType' difficulty' (default 7%Z horizon') key w
        = Throw e ->
        predictScore now userId gameType' difficulty' horizon' w
        = Normal (VScore {| prediction := Fin 50; confidence := Fin 0.5;
                            range := {| rmin := Fin 30; rmax := Fin 70 |};
                            factors := None; horizon := 7 |},
                  afterFailure userId w))
  /\ (forall e,
        difficultyBody userId gameType' w = Throw e ->
        recommendDifficulty userId gameType' w
        = Normal ({| recommended := "medium"; dConfidence := Fin 0.5;
                     reasoning := None |}, afterFailure userId w))
  /\ (forall e,
        let key := engagementKey userId (default 7%Z horizon') in
        cacheHit now key w = None ->
        engagementBody now tzOffset userId (default 7%Z horizon') key w = Throw e ->
        predictEngagement now tzOffset userId horizon' w
        = Normal (VEngagement getDefaultEngagementPrediction, afterFailure userId w))
  /\ (forall e,
        let key := churnKey userId (default 30%Z horizon') in
        cacheHit now key w = None ->
        churnBody now userId (default 30%Z horizon') key w = Throw e ->
        predictChurnRisk now userId horizon' w
        = Normal (VChurn getDefaultChurnPrediction, afterFailure userId w))
  /\ (forall e,
        gamesBody now userId (default 3%Z count') w = Throw e ->
        recommendGames now userId count' w
        = Normal (getDefaultGameRecommendations (default 3%Z count'),
                  afterFailure userId w)).
Proof.
  split.
  { unfold predictScore, predictEngagement, predictChurnRisk,
      recommendDifficulty, recommendGames.
    repeat split;
      repeat match goal with
        | |- context [match cacheHit ?n ?k ?w with _ => _ end] =>
            destruct (cacheHit n k w)
        end;
      eauto using @try_catch_returns. }
  unfold predictScore, predictEngagement, predictChurnRisk,
    recommendDifficulty, recommendGames.
  repeat split; intros; cbv zeta in *;
    repeat match goal with
      | H : cacheHit _ _ _ = None |- _ => rewrite H
      | H : _ = Throw _ |- _ => rewrite H
      end; reflexivity.
Qed.

Lemma public_methods_catch_and_default_witness :
  predictScore 1700000000000 "nobody" "memory_game" "medium" None (newEngine ∅)
  = Normal (VScore getDefaultPrediction, afterFailure "nobody" (newEngine ∅))
  /\ recommendDifficulty "nobody" "memory_game" (newEngine ∅)
     = Normal ({| recommended := "medium"; dConfidence := Fin 0.5;
                  reasoning := None |}, afterFailure "nobody" (newEngine ∅)).
Proof.
  destruct (public_methods_catch_and_default 1700000000000 0 "nobody"
              "memory_game" "medium" None None (newEngine ∅))
    as (_ & Hscore & Hdifficulty & _).
  split.
  - apply (Hscore (Error "Failed to fetch user data")); reflexivity.
  - apply (Hdifficulty (Error "Failed to fetch user data")); reflexivity.
Defined.

(** ** C1: the result cache *)

Lemma cacheHit_young (now : Z) (key : string) (w : World) :
  (now - lastUpdate w < updateInterval)%Z -> cacheHit now key w = cache w !! key.
Proof. intros H. unfold cacheHit. apply Z.ltb_lt in H. rewrite H. reflexivity. Qed.

Lemma cacheHit_stale (now : Z) (key : string) (w : World) :
  (updateInterval <= now - lastUpdate w)%Z -> cacheHit now key w = None.
Proof. intros H. unfold cacheHit. apply Z.ltb_ge in H. rewrite H. reflexivity. Qed.

Lemma scoreBody_stored now userId gameType' difficulty' horizon' key w v w' :
  scoreBody now userId gameType' difficulty' horizon' key w = Normal (v, w') ->
  stored key v w w'.
Proof.
  unfold scoreBody.
  destruct (getUserData userId w); cbn [JS.bind]; [|discriminate].
  destruct (extractScoreFeatures _ _ _ _); cbn [JS.bind]; [|discriminate].
  intros [= <- <-]. unfold stored. cbn. rewrite lookup_insert_eq. auto.
Qed.

Lemma churnBody_stored now userId horizon' key w v w' :
  churnBody now userId horizon' key w = Normal (v, w') -> stored key v w w'.
Proof.
  unfold churnBody.
  destruct (getUserData userId w); cbn [JS.bind]; [|discriminate].
  destruct (extractChurnFeatures _ _) as [[features userData]|];
    cbn [JS.bind]; [|discriminate].
  intros [= <- <-]. unfold stored. cbn. rewrite lookup_insert_eq. auto.
Qed.

Lemma engagementBody_stored now tzOffset userId horizon' key w v w' :
  engagementBody now tzOffset userId horizon' key w = Normal (v, w') ->
  stored key v w w'.
Proof.
  intros H. destruct (engagementBody_throws now tzOffset userId horizon' key w).
  congruence.
Qed.

Lemma afterFailure_engine (userId : string) (w : World) :
  cache (afterFailure userId w) = cache w
  /\ lastUpdate (afterFailure userId w) = lastUpdate w
  /\ fetchCalls (afterFailure userId w) = S (fetchCalls w).
Proof. unfold afterFailure. destruct (getUserData userId w); cbn; auto. Qed.

Lemma getOrCompute_intro
    (method body : Z -> World -> completion (Value * World))
    (key userId : string) (fallback : Value) :
  (forall now w,
      method now w
      = match cacheHit now key w with
        | Some cached => Normal (cached, w)
        | None =>
            try_catch (body now w)
              (fun _ => Normal (fallback, afterFailure userId w))
        end) ->
  (forall now w v w', body now w = Normal (v, w') -> stored key v w w') ->
  getOrCompute method body key userId fallback.
Proof.
  intros Hmethod Hbody. split.
  - intros now w v Hkey Hyoung.
    rewrite Hmethod, cacheHit_young, Hkey by assumption. reflexivity.
  - intros now w Hstale. rewrite Hmethod, cacheHit_stale by assumption.
    destruct (body now w) as [[v w']|e] eqn:Hrun; cbn [JS.try_catch].
    + split; [reflexivity | eauto].
    + destruct (afterFailure_engine userId w) as (Hc & _ & Hf). auto.
Qed.

Lemma repeatedRequest_intro
    (method body : Z -> World -> completion (Value * World))
    (key userId : string) (fallback : Value) :
  (forall now w,
      method now w
      = match cacheHit now key w with
        | Some cached => Normal (cached, w)
        | None =>
            try_catch (body now w)
              (fun _ => Normal (fallback, afterFailure userId w))
        end) ->
  (forall now w v w', body now w = Normal (v, w') -> stored key v w w') ->
  repeatedRequest method body key.
Proof.
  intros Hmethod Hbody now1 now2 w v1 w1 store2 Hfirst Hkept Hyoung.
  assert (Hkey : cache w1 !! key = Some v1).
  { rewrite Hmethod in Hfirst.
    destruct (cacheHit now1 key w) as [cached|] eqn:Hhit.
    - injection Hfirst as <- <-. unfold cacheHit in Hhit.
      destruct (now1 - lastUpdate w <? updateInterval)%Z;
        [assumption | discriminate].
    - destruct Hkept as [Hkept | [[v w'] Hrun]]; [congruence|].
      rewrite Hrun in Hfirst. cbn [JS.try_catch] in Hfirst.
      injection Hfirst as <- <-. apply (Hbody _ _ _ _ Hrun). }
  split; [exact Hkey|].
  rewrite Hmethod, cacheHit_young by assumption. cbn [withStore cache].
  rewrite Hkey. reflexivity.
Qed.

Lemma predictScore_getOrCompute (userId gameType' difficulty' : string)
    (horizon' : option Z) :
  let key := scoreKey userId gameType' difficulty' (default 7%Z horizon') in
  let method now w := predictScore now userId gameType' difficulty' horizon' w in
  let body now w :=
    scoreBody now userId gameType' difficulty' (default 7%Z horizon') key w in
  getOrCompute method body key userId (VScore getDefaultPrediction)
  /\ repeatedRequest method body key.
Proof.
  intros key method body.
  split; [eapply getOrCompute_intro | eapply repeatedRequest_intro];
    try (intros; reflexivity);
    intros now w v w' H; exact (scoreBody_stored _ _ _ _ _ _ _ _ _ H).
Qed.

Lemma predictEngagement_getOrCompute (tzOffset : Z) (userId : string)
    (horizon' : option Z) :
  let key := engagementKey userId (default 7%Z horizon') in
  let method now w := predictEngagement now tzOffset userId horizon' w in
  let body now w :=
    engagementBody now tzOffset userId (default 7%Z horizon') key w in
  getOrCompute method body key userId (VEngagement getDefaultEngagementPrediction)
  /\ repeatedRequest method body key.
Proof.
  intros key method body.
  split; [eapply getOrCompute_intro | eapply repeatedRequest_intro];
    try (intros; reflexivity);
    intros now w v w' H; exact (engagementBody_stored _ _ _ _ _ _ _ _ H).
Qed.

Lemma predictChurnRisk_getOrCompute (userId : string) (horizon' : option Z) :
  let key := churnKey userId (default 30%Z horizon') in
  let method now w := predictChurnRisk now userId horizon' w in
  let body now w := churnBody now userId (default 30%Z horizon') key w in
  getOrCompute method body key userId (VChurn getDefaultChurnPrediction)
  /\ repeatedRequest method body key.
Proof.
  intros key method body.
  split; [eapply getOrCompute_intro | eapply repeatedRequest_intro];
    try (intros; reflexivity);
    intros now w v w' H; exact (churnBody_stored _ _ _ _ _ _ _ H).
Qed.

(** C1 fails as the specification words it, on requests that end in the
    [catch] block.
    Two identical requests inside the refresh interval: the first fetches,
    runs the extractor, which throws, and caches nothing; the second does
    the same again.  And a request made after the interval whose fetch
    fails stores nothing. *)
Lemma failed_request_is_not_cached :
  (exists w1 w2,
      predictScore 1700000000000 "u1" "memory_game" "medium" None stampedEngine
      = Normal (VScore getDefaultPrediction, w1)
      /\ (1700000000000 - lastUpdate w1 < updateInterval)%Z
      /\ predictScore 1700000000000 "u1" "memory_game" "medium" None w1
         = Normal (VScore getDefaultPrediction, w2)
      /\ cache w1 = ∅
      /\ extractCalls w1 = 1%nat /\ extractCalls w2 = 2%nat
      /\ fetchCalls w1 = 1%nat /\ fetchCalls w2 = 2%nat)
  /\ (exists w1,
        (updateInterval <= 1700000000000 - lastUpdate (newEngine ∅))%Z
        /\ predictScore 1700000000000 "u1" "memory_game" "medium" None (newEngine ∅)
           = Normal (VScore getDefaultPrediction, w1)
        /\ cache w1 = ∅).
Proof.
  split.
  - exists (afterFailure "u1" stampedEngine),
      (afterFailure "u1" (afterFailure "u1" stampedEngine)).
    repeat split; reflexivity.
  - exists (afterFailure "u1" (newEngine ∅)).
    split; [discriminate|]. split; reflexivity.
Qed.

(** C1 (amended).  For each of the three cached methods (score, engagement,
    churn): a request that finds its key in the cache while
    [Date.now() - lastUpdate] is below the 24-hour interval returns the
    cached value without fetching or extracting; of two identical requests,
    when the first left its result in the cache (it was a hit or its [try]
    block completed), the second one inside the interval returns the same
    value and changes nothing; a request made once the interval has elapsed
    fetches again, and returns and stores the fresh value when its [try]
    block completes, or returns the default and stores nothing when it
    throws. *)
Theorem cache_get_or_compute
    (tzOffset : Z) (userId gameType' difficulty' : string) (horizon' : option Z) :
  (let key := scoreKey userId gameType' difficulty' (default 7%Z horizon') in
   let method now w := predictScore now userId gameType' difficulty' horizon' w in
   let body now w :=
     scoreBody now userId gameType' difficulty' (default 7%Z horizon') key w in
   getOrCompute method body key userId (VScore getDefaultPrediction)
   /\ repeatedRequest method body key)
  /\ (let key := engagementKey userId (default 7%Z horizon') in
      let method now w := predictEngagement now tzOffset userId horizon' w in
      let body now w :=
        engagementBody now tzOffset userId (default 7%Z horizon') key w in
      getOrCompute method body key userId
        (VEngagement getDefaultEngagementPrediction)
      /\ repeatedRequest method body key)
  /\ (let key := churnKey userId (default 30%Z horizon') in
      let method now w := predictChurnRisk now userId horizon' w in
      let body now w := churnBody now userId (default 30%Z horizon') key w in
      getOrCompute method body key userId (VChurn getDefaultChurnPrediction)
      /\ repeatedRequest method body key).
Proof.
  split; [apply predictScore_getOrCompute|].
  split; [apply predictEngagement_getOrCompute | apply predictChurnRisk_getOrCompute].
Qed.

Lemma cache_get_or_compute_witness :
  let key := scoreKey "u2" "memory_game" "medium" 7 in
  let v1 := VScore (calculateScorePrediction getDefaultFeatures 7) in
  let w1 := cacheSet key v1 (countExtract (countFetch servingEngine)) in
  predictScore 1700000000000 "u2" "memory_game" "medium" None servingEngine
  = Normal (v1, w1)
  /\ predictScore 1700000005000 "u2" "memory_game" "medium" None (withStore ∅ w1)
     = Normal (v1, withStore ∅ w1).
Proof.
  intros key v1 w1.
  destruct (cache_get_or_compute 0 "u2" "memory_game" "medium" None)
    as ((_ & Hrepeat) & _).
  assert (Hfirst :
           predictScore 1700000000000 "u2" "memory_game" "medium" None
             servingEngine = Normal (v1, w1)) by reflexivity.
  split; [exact Hfirst|].
  apply (Hrepeat 1700000000000%Z 1700000005000%Z servingEngine v1 w1 ∅).
  - exact Hfirst.
  - right. eexists. reflexivity.
  - reflexivity.
Defined.

(** The constructor leaves [lastUpdate] at 0 and no method assigns it: an
    engine made by [new PredictionEngine()] never serves a request from its
    cache once the clock reads one day or more past the epoch. *)
Lemma constructed_engine_always_recomputes
    (now : Z) (key : string) (w : World) :
  lastUpdate w = 0%Z -> (updateInterval <= now)%Z -> cacheHit now key w = None.
Proof. intros H0 Hnow. apply cacheHit_stale. rewrite H0. lia. Qed.

(** ** C8: what feature extraction does to the supplied records *)

Section SortBy.

Context {A : Type} (key : A -> Z).

Lemma insert_sorted_perm (x : A) (l : list A) :
  Permutation (x :: l) (insert_sorted (precedesBy key) x l).
Proof.
  induction l as [|y l IH]; cbn [JS.insert_sorted]; [reflexivity|].
  destruct (precedesBy key x y); [reflexivity|].
  rewrite perm_swap. apply perm_skip. exact IH.
Qed.

Lemma insert_sorted_ascending (x : A) (l : list A) :
  ascendingBy key l -> ascendingBy key (insert_sorted (precedesBy key) x l).
Proof.
  unfold ascendingBy. induction 1 as [|y l Hl IH Hy]; cbn [JS.insert_sorted].
  - repeat constructor.
  - unfold precedesBy at 1.
    destruct (Z.ltb_spec (key x) (key y)) as [Hlt|Hge].
    + constructor; [constructor; assumption|].
      constructor; [lia|]. eapply Forall_impl; [exact Hy|].
      cbn. intros; lia.
    + constructor; [exact IH|].
      eapply Permutation_Forall; [apply insert_sorted_perm|].
      constructor; [lia | assumption].
Qed.

Lemma insert_sorted_last (x : A) (l : list A) :
  Forall (fun y => (key y <= key x)%Z) l ->
  insert_sorted (precedesBy key) x l = l ++ [x].
Proof.
  induction 1 as [|y l Hy Hl IH]; cbn [JS.insert_sorted app]; [reflexivity|].
  unfold precedesBy at 1.
  destruct (Z.ltb_spec (key x) (key y)); [lia|]. rewrite IH. reflexivity.
Qed.

Lemma sort_from_perm (l acc : list A) :
  Permutation (acc ++ l)
    (fold_left (fun acc x => insert_sorted (precedesBy key) x acc) l acc).
Proof.
  revert acc. induction l as [|x l IH]; intros acc; cbn [fold_left].
  - rewrite app_nil_r. reflexivity.
  - rewrite <- IH, <- insert_sorted_perm.
    rewrite <- Permutation_middle. reflexivity.
Qed.

Lemma sort_from_ascending (l acc : list A) :
  ascendingBy key acc ->
  ascendingBy key
    (fold_left (fun acc x => insert_sorted (precedesBy key) x acc) l acc).
Proof.
  revert acc. induction l as [|x l IH]; intros acc Hacc; cbn [fold_left];
    [assumption|].
  apply IH, insert_sorted_ascending, Hacc.
Qed.

Lemma ascending_app_inv (l1 : list A) (x : A) (l2 : list A) :
  ascendingBy key (l1 ++ x :: l2) -> Forall (fun y => (key y <= key x)%Z) l1.
Proof.
  unfold ascendingBy. induction l1 as [|y l1 IH]; cbn [app]; intros H;
    [constructor|].
  apply StronglySorted_inv in H as [Hs Hy].
  constructor; [|exact (IH Hs)].
  apply Forall_app in Hy as [_ Hy]. apply Forall_inv in Hy. exact Hy.
Qed.

Lemma sort_from_fixed (l acc : list A) :
  ascendingBy key (acc ++ l) ->
  fold_left (fun acc x => insert_sorted (precedesBy key) x acc) l acc = acc ++ l.
Proof.
  revert acc. induction l as [|x l IH]; intros acc H; cbn [fold_left].
  - rewrite app_nil_r. reflexivity.
  - rewrite insert_sorted_last by (eapply ascending_app_inv; exact H).
    rewrite IH; rewrite <- app_assoc; [reflexivity | exact H].
Qed.

Lemma sort_by_perm (l : list A) : Permutation l (sort_by (precedesBy key) l).
Proof. exact (sort_from_perm l []). Qed.

Lemma sort_by_ascending (l : list A) : ascendingBy key (sort_by (precedesBy key) l).
Proof. apply sort_from_ascending. constructor. Qed.

Lemma sort_by_fixed_iff (l : list A) :
  sort_by (precedesBy key) l = l <-> ascendingBy key l.
Proof.
  split.
  - intros <-. apply sort_by_ascending.
  - intros H. exact (sort_from_fixed l [] H).
Qed.

End SortBy.

Lemma groupIntoSessions_array (gs : list GameRecord) :
  snd (groupIntoSessions gs) = sortByTimestamp gs.
Proof.
  unfold groupIntoSessions.
  destruct (fold_left sessionStep (sortByTimestamp gs) ([], [])).
  reflexivity.
Qed.

Lemma calculateSessionDropoff_array (gs : list GameRecord) :
  exists dropoff,
    calculateSessionDropoff {| games := Some gs |}
    = Normal (dropoff, {| games := Some (sortByTimestamp gs) |}).
Proof.
  unfold calculateSessionDropoff. cbn [games_of games JS.bind].
  pose proof (groupIntoSessions_array gs) as Harray.
  destruct (groupIntoSessions gs) as [sessions gs']. cbn [snd] in Harray.
  subst gs'.
  destruct (length sessions <? 2)%nat; [eauto|].
  destruct (length (slice (-6) (-3) sessions) =? 0)%nat; eauto.
Qed.

Lemma extractChurnFeatures_array (now : Z) (gs : list GameRecord) :
  exists features,
    extractChurnFeatures now {| games := Some gs |}
    = Normal (features, {| games := Some (sortByTimestamp gs) |}).
Proof.
  unfold extractChurnFeatures, calculateActivityDecline,
    calculateEngagementMetrics, calculateDaysSinceLastActivity.
  cbn [games_of games JS.bind].
  destruct (calculateSessionDropoff_array gs) as [dropoff ->].
  cbn [games_of games JS.bind].
  destruct (rev (sortByTimestamp gs)); eauto.
Qed.

Lemma extractChurnFeatures_needs_games (now : Z) :
  extractChurnFeatures now {| games := None |}
  = Throw (TypeError "Cannot read properties of undefined").
Proof. reflexivity. Qed.

Lemma analyzeSessionPatterns_array (gs : list GameRecord) :
  snd (analyzeSessionPatterns gs) = sortByTimestamp gs.
Proof.
  unfold analyzeSessionPatterns.
  pose proof (groupIntoSessions_array gs) as Harray.
  destruct (groupIntoSessions gs) as [sessions gs']. exact Harray.
Qed.

Lemma afterFailure_store (userId : string) (w : World) :
  store (afterFailure userId w) = store w.
Proof. unfold afterFailure. destruct (getUserData userId w); reflexivity. Qed.

Lemma scoreBody_store now userId gameType' difficulty' horizon' key w v w' :
  scoreBody now userId gameType' difficulty' horizon' key w = Normal (v, w') ->
  store w' = store w.
Proof.
  unfold scoreBody.
  destruct (getUserData userId w); cbn [JS.bind]; [|discriminate].
  destruct (extractScoreFeatures _ _ _ _); cbn [JS.bind]; [|discriminate].
  intros [= <- <-]. reflexivity.
Qed.

Lemma churnBody_store now userId horizon' key w v w' :
  churnBody now userId horizon' key w = Normal (v, w') -> store w' = store w.
Proof.
  unfold churnBody.
  destruct (getUserData userId w); cbn [JS.bind]; [|discriminate].
  destruct (extractChurnFeatures _ _) as [[features userData]|];
    cbn [JS.bind]; [|discriminate].
  intros [= <- <-]. reflexivity.
Qed.

Lemma difficultyBody_store userId gameType' w v w' :
  difficultyBody userId gameType' w = Normal (v, w') -> store w' = store w.
Proof.
  unfold difficultyBody.
  destruct (getUserData userId w); cbn [JS.bind]; [|discriminate].
  destruct (extractDifficultyFeatures _ _); cbn [JS.bind]; [|discriminate].
  intros [= <- <-]. reflexivity.
Qed.

Lemma gamesBody_store now userId count' w v w' :
  gamesBody now userId count' w = Normal (v, w') -> store w' = store w.
Proof.
  unfold gamesBody.
  destruct (getUserData userId w); cbn [JS.bind]; [|discriminate].
  destruct (extractGameRecommendationFeatures _ _); cbn [JS.bind]; [|discriminate].
  intros [= <- <-]. reflexivity.
Qed.

Lemma public_methods_keep_store
    (now tzOffset : Z) (userId gameType' difficulty' : string)
    (horizon' count' : option Z) (w : World) :
  (forall v w', predictScore now userId gameType' difficulty' horizon' w
                = Normal (v, w') -> store w' = store w)
  /\ (forall v w', predictEngagement now tzOffset userId horizon' w
                   = Normal (v, w') -> store w' = store w)
  /\ (forall v w', predictChurnRisk now userId horizon' w = Normal (v, w') ->
                   store w' = store w)
  /\ (forall v w', recommendDifficulty userId gameType' w = Normal (v, w') ->
                   store w' = store w)
  /\ (forall v w', recommendGames now userId count' w = Normal (v, w') ->
                   store w' = store w).
Proof.
  repeat split; intros v w' H.
  - unfold predictScore in H.
    destruct (cacheHit _ _ w); [injection H as <- <-; reflexivity|].
    destruct (scoreBody _ _ _ _ _ _ w) as [[v0 w0]|e] eqn:Hbody;
      cbn [JS.try_catch] in H; injection H as <- <-.
    + exact (scoreBody_store _ _ _ _ _ _ _ _ _ Hbody).
    + apply afterFailure_store.
  - unfold predictEngagement in H.
    destruct (cacheHit _ _ w); [injection H as <- <-; reflexivity|].
    destruct (engagementBody_throws now tzOffset userId (default 7%Z horizon')
                (engagementKey userId (default 7%Z horizon')) w) as [e He].
    rewrite He in H. cbn [JS.try_catch] in H. injection H as <- <-.
    apply afterFailure_store.
  - unfold predictChurnRisk in H.
    destruct (cacheHit _ _ w); [injection H as <- <-; reflexivity|].
    destruct (churnBody _ _ _ _ w) as [[v0 w0]|e] eqn:Hbody;
      cbn [JS.try_catch] in H; injection H as <- <-.
    + exact (churnBody_store _ _ _ _ _ _ _ Hbody).
    + apply afterFailure_store.
  - unfold recommendDifficulty in H.
    destruct (difficultyBody _ _ w) as [[v0 w0]|e] eqn:Hbody;
      cbn [JS.try_catch] in H; injection H as <- <-.
    + exact (difficultyBody_store _ _ _ _ _ Hbody).
    + apply afterFailure_store.
  - unfold recommendGames in H.
    destruct (gamesBody _ _ _ w) as [[v0 w0]|e] eqn:Hbody;
      cbn [JS.try_catch] in H; injection H as <- <-.
    + exact (gamesBody_store _ _ _ _ _ _ Hbody).
    + apply afterFailure_store.
Qed.

Lemma predictChurnRisk_with_games
    (now : Z) (userId : string) (horizon' : option Z) (w : World)
    (gs : list GameRecord) :
  store w !! userId = Some {| games := Some gs |} ->
  exists v w', predictChurnRisk now userId horizon' w = Normal (v, w').
Proof.
  intros Hstore. unfold predictChurnRisk.
  destruct (cacheHit _ _ w); [eauto|].
  unfold churnBody, getUserData. rewrite Hstore. cbn [JS.bind].
  destruct (extractChurnFeatures_array now gs) as [features ->].
  cbn [JS.bind JS.try_catch]. eauto.
Qed.

(** C8 fails as the specification words it: the session grouping, and with
    it churn extraction, leaves the supplied list in another order. *)
Lemma churn_extraction_reorders_history :
  snd (groupIntoSessions [laterGame; earlierGame]) = [earlierGame; laterGame]
  /\ (exists features,
        extractChurnFeatures 1700000000000
          {| games := Some [laterGame; earlierGame] |}
        = Normal (features, {| games := Some [earlierGame; laterGame] |}))
  /\ [earlierGame; laterGame] <> [laterGame; earlierGame].
Proof.
  split; [exact (groupIntoSessions_array [laterGame; earlierGame])|].
  split; [exact (extractChurnFeatures_array 1700000000000 [laterGame; earlierGame])|].
  intros H. apply (f_equal (map timestamp)) in H. discriminate H.
Qed.

(** C8 (amended).  Feature extraction never adds, drops or alters a record,
    but the session grouping is not free of side effects: it sorts the array
    it is handed in place, by ascending timestamp.  The array afterwards is
    the stable sort of the original, a permutation of it, and the same list
    exactly when the original was already in ascending order; so it is
    after [analyzeSessionPatterns], and [calculateSessionDropoff] hands
    [userData.games] itself to the grouping, so that
    [extractChurnFeatures(userData)] leaves the caller's [userData.games]
    sorted.  The five public methods extract from the object they have
    fetched themselves and write nothing back: the record store holds the
    same lists after any call. *)
Theorem extraction_only_sorts_by_timestamp :
  (forall gs,
      snd (groupIntoSessions gs) = sortByTimestamp gs
      /\ snd (analyzeSessionPatterns gs) = sortByTimestamp gs
      /\ Permutation gs (sortByTimestamp gs)
      /\ StronglySorted byTimestamp (sortByTimestamp gs)
      /\ (sortByTimestamp gs = gs <-> StronglySorted byTimestamp gs))
  /\ (forall now gs,
        (exists dropoff,
            calculateSessionDropoff {| games := Some gs |}
            = Normal (dropoff, {| games := Some (sortByTimestamp gs) |}))
        /\ (exists features,
              extractChurnFeatures now {| games := Some gs |}
              = Normal (features, {| games := Some (sortByTimestamp gs) |})))
  /\ (forall now tzOffset userId gameType' difficulty' horizon' count' w,
        (forall v w', predictScore now userId gameType' difficulty' horizon' w
                      = Normal (v, w') -> store w' = store w)
        /\ (forall v w', predictEngagement now tzOffset userId horizon' w
                         = Normal (v, w') -> store w' = store w)
        /\ (forall v w', predictChurnRisk now userId horizon' w = Normal (v, w') ->
                         store w' = store w)
        /\ (forall v w', recommendDifficulty userId gameType' w = Normal (v, w') ->
                         store w' = store w)
        /\ (forall v w', recommendGames now userId count' w = Normal (v, w') ->
                         store w' = store w)).
Proof.
  split.
  { intros gs. split; [apply groupIntoSessions_array|].
    split; [apply analyzeSessionPatterns_array|].
    split; [apply (sort_by_perm timestamp)|].
    split; [apply (sort_by_ascending timestamp)|].
    apply (sort_by_fixed_iff timestamp). }
  split; [|intros; apply public_methods_keep_store].
  intros now gs. split;
    [apply calculateSessionDropoff_array | apply extractChurnFeatures_array].
Qed.

Lemma extraction_only_sorts_by_timestamp_witness :
  sortByTimestamp [earlierGame; laterGame] = [earlierGame; laterGame]
  /\ exists v w',
      predictChurnRisk 1700000000000 "u1" None
        (newEngine {[ "u1"%string := {| games := Some [laterGame; earlierGame] |} ]})
      = Normal (v, w')
      /\ store w' !! "u1"%string = Some {| games := Some [laterGame; earlierGame] |}.
Proof.
  destruct extraction_only_sorts_by_timestamp as (Hsort & _ & Hstore).
  split.
  - apply (Hsort [earlierGame; laterGame]).
    repeat constructor. unfold byTimestamp. cbn. lia.
  - destruct (predictChurnRisk_with_games 1700000000000 "u1" None
                (newEngine
                   {[ "u1"%string := {| games := Some [laterGame; earlierGame] |} ]})
                [laterGame; earlierGame]) as (v & w' & Hcall);
      [apply lookup_singleton_eq|].
    exists v, w'. split; [exact Hcall|].
    destruct (Hstore 1700000000000%Z 0%Z "u1"%string "memory_game"%string
                "medium"%string None None
                (newEngine
                   {[ "u1"%string := {| games := Some [laterGame; earlierGame] |} ]}))
      as (_ & _ & Hchurn & _).
    rewrite (Hchurn v w' Hcall). apply lookup_singleton_eq.
Defined.

(** ** C9: users without recent games *)

Lemma add_NaN_r (a : number) : (a + NaN)%js = NaN.
Proof. destruct a; reflexivity. Qed.

Lemma add_NaN_l (a : number) : (NaN + a)%js = NaN.
Proof. destruct a; reflexivity. Qed.

(** The division of [mean] is applied to empty arrays as it is: 0/0. *)
Lemma mean_empty : mean [] = NaN.
Proof.
  unfold mean, JS.sum, JS.of_nat, JS.div. cbn [fold_left length INR].
  rewrite Reqb_true by reflexivity. reflexivity.
Qed.

Lemma calculateGameAbandonment_empty : calculateGameAbandonment [] = NaN.
Proof.
  unfold calculateGameAbandonment, count, JS.of_nat, JS.div.
  cbn [List.filter length INR]. rewrite Reqb_true by reflexivity. reflexivity.
Qed.

Lemma calculateChurnPrediction_NaN (features : ChurnFeatures) (horizon' : Z) :
  gameAbandonment features = NaN ->
  let result := calculateChurnPrediction features horizon' in
  probability result = NaN /\ cConfidence result = NaN
  /\ riskLevel result = "high"%string.
Proof.
  intros Hnan result. subst result.
  unfold calculateChurnPrediction, churnProbability, churnRiskScore,
    calculateChurnConfidence, classifyRiskLevel, JS.sum.
  cbn [probability cConfidence riskLevel fold_left]. rewrite Hnan.
  cbn [JS.mul JS.min]. rewrite !add_NaN_r, ?add_NaN_l.
  repeat split; reflexivity.
Qed.

Lemma extractChurnFeatures_abandonment
    (now : Z) (gs : list GameRecord) (features : ChurnFeatures) (userData : UserData) :
  extractChurnFeatures now {| games := Some gs |} = Normal (features, userData) ->
  gameAbandonment features
  = calculateGameAbandonment (List.filter (withinDays now 30) gs)
  /\ cAverageScore features = mean (map score (List.filter (withinDays now 30) gs)).
Proof.
  unfold extractChurnFeatures, calculateActivityDecline,
    calculateEngagementMetrics, calculateDaysSinceLastActivity.
  cbn [games_of games JS.bind].
  destruct (calculateSessionDropoff_array gs) as [dropoff ->].
  cbn [games_of games JS.bind].
  destruct (rev (sortByTimestamp gs)); intros [= <- _]; split; reflexivity.
Qed.

(** Whoever has no game in the last thirty days, a new user included, gets
    NaN as churn probability and as confidence, and the label "high". *)
Lemma churn_without_recent_games
    (now : Z) (userId : string) (horizon' : option Z) (gs : list GameRecord)
    (w : World) :
  store w !! userId = Some {| games := Some gs |} ->
  List.filter (withinDays now 30) gs = [] ->
  cacheHit now (churnKey userId (default 30%Z horizon')) w = None ->
  exists result w',
    predictChurnRisk now userId horizon' w = Normal (VChurn result, w')
    /\ probability result = NaN /\ cConfidence result = NaN
    /\ riskLevel result = "high"%string.
Proof.
  intros Hstore Hrecent Hmiss.
  unfold predictChurnRisk, churnBody, getUserData. rewrite Hmiss, Hstore.
  cbn [JS.bind].
  destruct (extractChurnFeatures_array now gs) as [features Hextract].
  rewrite Hextract. cbn [JS.bind JS.try_catch].
  apply extractChurnFeatures_abandonment in Hextract as [Habandon _].
  rewrite Hrecent, calculateGameAbandonment_empty in Habandon.
  do 2 eexists. split; [reflexivity|].
  exact (calculateChurnPrediction_NaN features _ Habandon).
Qed.

(** C9.  The code at a failing input: for a user with zero records,
    [extractChurnFeatures] divides by the length of an empty array (in
    [mean] and in [calculateGameAbandonment]), and [predictChurnRisk]
    returns NaN as probability and as confidence. *)
Theorem churn_of_new_user_is_NaN :
  mean (map score []) = NaN
  /\ calculateGameAbandonment [] = NaN
  /\ exists result w',
      predictChurnRisk 1700000000000 "u1" None
        (newEngine {[ "u1"%string := {| games := Some [] |} ]})
      = Normal (VChurn result, w')
      /\ probability result = NaN /\ cConfidence result = NaN
      /\ riskLevel result = "high"%string.
Proof.
  split; [exact mean_empty|]. split; [exact calculateGameAbandonment_empty|].
  apply (churn_without_recent_games _ _ _ []); reflexivity.
Qed.

(** ** C3: the churn probability *)

Lemma logistic_open (risk : R) : 0 < logistic risk < 1.
Proof.
  unfold logistic. pose proof (exp_pos (- risk)) as Hexp.
  split.
  - apply Rdiv_lt_0_compat; lra.
  - apply (Rmult_lt_reg_r (1 + Rtrigo_def.exp (- risk))); [lra|].
    field_simplify; lra.
Qed.

Lemma exp_le_mono (x y : R) : x <= y -> Rtrigo_def.exp x <= Rtrigo_def.exp y.
Proof.
  intros [Hlt | ->]; [left; apply exp_increasing; exact Hlt | right; reflexivity].
Qed.

Lemma logistic_mono (x y : R) : x <= y -> logistic x <= logistic y.
Proof.
  intros Hxy. unfold logistic.
  pose proof (exp_pos (- x)). pose proof (exp_pos (- y)).
  assert (Rtrigo_def.exp (- y) <= Rtrigo_def.exp (- x)) by (apply exp_le_mono; lra).
  unfold Rdiv. rewrite !Rmult_1_l. apply Rinv_le_contravar; lra.
Qed.

Lemma roundedPercent_mono (p q : R) : p <= q -> roundedPercent p <= roundedPercent q.
Proof.
  intros Hpq. unfold roundedPercent.
  assert (IZR (Zfloor (p * 100 + / 2)) <= IZR (Zfloor (q * 100 + / 2)))
    by (apply IZR_le, Zfloor_le; lra).
  lra.
Qed.




Lemma saturatedLogistic_mono (x y : R) :
  x <= y -> saturatedLogistic x <= saturatedLogistic y.
Proof.
  intros Hxy. unfold saturatedLogistic.
  pose proof (logistic_open x). pose proof (logistic_open y).
  pose proof (logistic_mono x y Hxy).
  destruct (Rle_dec x (- 710)), (Rle_dec y (- 710)), (Rle_dec x 746),
    (Rle_dec y 746); lra.
Qed.

Lemma churnProbability_finite (a s d g days : R) (rest : ChurnFeatures) :
  churnProbability (churnFeatures (Fin a) (Fin s) (Fin d) (Fin g) (Fin days) rest)
  = Fin (saturatedLogistic (riskOf a s d g days)).
Proof.
  unfold churnProbability, churnRiskScore, churnFeatures, JS.sum, JS.sub.
  cbn [activityDecline scoreDecline sessionDropoff gameAbandonment
       daysSinceLastActivity fold_left JS.add JS.mul JS.neg].
  match goal with
  | |- context [JS.exp (Fin ?x)] =>
      replace x with (- riskOf a s d g days) by (unfold riskOf; lra)
  end.
  set (risk := riskOf a s d g days).
  unfold JS.exp, saturatedLogistic.
  destruct (Rle_dec risk (- 710)) as [Hlow|Hlow].
  - rewrite Rltb_false, Rltb_false by lra. reflexivity.
  - destruct (Rle_dec risk 746) as [Hmid|Hmid].
    + rewrite Rltb_false, Rltb_true by lra. cbn [JS.add]. unfold logistic.
      apply div_Fin. pose proof (exp_pos (- risk)). lra.
    + rewrite Rltb_true by lra. cbn [JS.add].
      rewrite div_Fin by lra. f_equal. lra.
Qed.

Lemma churn_probability_finite (a s d g days : R) (rest : ChurnFeatures) (horizon' : Z) :
  probability
    (calculateChurnPrediction
       (churnFeatures (Fin a) (Fin s) (Fin d) (Fin g) (Fin days) rest) horizon')
  = Fin (roundedPercent (saturatedLogistic (riskOf a s d g days))).
Proof.
  unfold calculateChurnPrediction. cbn [probability].
  rewrite churnProbability_finite. cbn [JS.mul JS.round].
  rewrite div_Fin by lra. reflexivity.
Qed.

(** What the code does with the days of inactivity: the term
    [(30 - daysSinceLastActivity) * 0.1] lowers the risk as they grow. *)
Lemma churn_probability_antitone_in_days
    (a s d g days1 days2 : R) (rest : ChurnFeatures) (horizon' : Z) :
  days1 <= days2 ->
  exists p1 p2,
    probability (calculateChurnPrediction
                   (churnFeatures (Fin a) (Fin s) (Fin d) (Fin g) (Fin days1) rest)
                   horizon') = Fin p1
    /\ probability (calculateChurnPrediction
                      (churnFeatures (Fin a) (Fin s) (Fin d) (Fin g) (Fin days2) rest)
                      horizon') = Fin p2
    /\ p2 <= p1.
Proof.
  intros Hdays. do 2 eexists. rewrite !churn_probability_finite.
  split; [reflexivity|]. split; [reflexivity|].
  apply roundedPercent_mono, saturatedLogistic_mono. unfold riskOf. lra.
Qed.












(** ** C10: the range of a score prediction *)

Lemma declining_consistency :
  calculateConsistency [Fin 10; Fin 0; Fin 0; Fin 0; Fin 0] = Fin 0.
Proof.
  js_number. unfold JS.sqrt. decide_cmp. cbn [JS.neg JS.add].
  match goal with
  | |- context [R_sqrt.sqrt ?x] => replace x with (4 * 4) by lra
  end.
  rewrite sqrt_square by lra. unfold JS.max, JS.lt. decide_cmp. reflexivity.
Qed.

Lemma declining_features_extracted :
  extractScoreFeatures 1700000000000 {| games := Some decliningHistory |}
    "memory_game" "medium"
  = Normal decliningFeatures.
Proof.
  rewrite (extractScoreFeatures_dense _ _ decliningHistory)
    by (reflexivity || (vm_compute; lia)).
  assert (Hrecent :
           List.filter (qualifying 1700000000000 "memory_game" "medium")
             decliningHistory = decliningHistory) by reflexivity.
  rewrite Hrecent. unfold decliningHistory, sampleRecord, decliningFeatures, count.
  cbn [map score playTime mistakes completed JS.or_zero List.filter gameType
       String.eqb Ascii.eqb Bool.eqb length].
  rewrite declining_consistency.
  f_equal. f_equal; js_number.
Qed.

Lemma sqrt_7_bounds : 2.64 < R_sqrt.sqrt 7 < 2.65.
Proof. apply sqrt_between; lra. Qed.

Lemma declining_prediction :
  calculateScorePrediction decliningFeatures 7
  = {| prediction := Fin 0;
       confidence := calculatePredictionConfidence decliningFeatures;
       range := {| rmin := Fin 0; rmax := Fin (- 2) |};
       factors := Some {| baseScore := Fin 2; sTrendEffect := Fin (- 2 * 7);
                          improvementEffect := Fin (0 * 7);
                          consistencyEffect := Fin (0 * 10) |};
       horizon := 7 |}.
Proof.
  pose proof sqrt_7_bounds as Hsqrt.
  unfold calculateScorePrediction, calculatePredictionMargin, decliningFeatures.
  cbn [averageScore scoreTrend scoreVariance recentImprovement consistency Z.min].
  unfold JS.of_Z, JS.sqrt, JS.sub. decide_cmp.
  cbn [JS.add JS.mul JS.neg JS.round Z.min Z.compare Pos.compare Pos.compare_cont].
  f_equal.
  - rewrite (Zfloor_eq (- 12)) by (simpl; lra).
    unfold JS.max, JS.lt. decide_cmp. reflexivity.
  - f_equal.
    + rewrite (Zfloor_eq (- 22)) by (simpl; lra).
      unfold JS.max, JS.lt. decide_cmp. reflexivity.
    + rewrite (Zfloor_eq (- 2)) by (simpl; lra). reflexivity.
Qed.

(** C10.  The code at a failing input: for a player whose five recent
    scores are 10, 0, 0, 0, 0 the prediction seven days ahead has
    range.min = 0 and range.max = -2; the variance (16) is not negative and
    the horizon is 7, yet range.min <= range.max is false. *)
Theorem score_range_inverted_on_declining_history :
  extractScoreFeatures 1700000000000 {| games := Some decliningHistory |}
    "memory_game" "medium" = Normal decliningFeatures
  /\ scoreVariance decliningFeatures = Fin 16
  /\ range (calculateScorePrediction decliningFeatures 7)
     = {| rmin := Fin 0; rmax := Fin (- 2) |}
  /\ JS.le (rmin (range (calculateScorePrediction decliningFeatures 7)))
       (rmax (range (calculateScorePrediction decliningFeatures 7))) = false
  /\ exists w',
      predictScore 1700000000000 "u1" "memory_game" "medium" None
        (newEngine {[ "u1"%string := {| games := Some decliningHistory |} ]})
      = Normal (VScore (calculateScorePrediction decliningFeatures 7), w').
Proof.
  split; [exact declining_features_extracted|]. split; [reflexivity|].
  rewrite declining_prediction. cbn [range rmin rmax].
  split; [reflexivity|]. split.
  - unfold JS.le. decide_cmp. reflexivity.
  - unfold predictScore, scoreBody. cbn [default].
    change (cacheHit 1700000000000 (scoreKey "u1" "memory_game" "medium" 7)
              (newEngine _)) with (@None Value).
    cbv iota.
    change (getUserData "u1" (newEngine _))
      with (Normal {| games := Some decliningHistory |}).
    cbn [JS.bind]. rewrite declining_features_extracted.
    cbn [JS.bind JS.try_catch]. rewrite declining_prediction.
    eexists. reflexivity.
Qed.

(** * Further properties of the engine *)

(** ** Statistics over finite arrays *)

Lemma sum_from_Fin (l : list R) (acc : R) :
  fold_left JS.add (map Fin l) (Fin acc) = Fin (acc + Rsum l).
Proof.
  revert acc. induction l as [|x l IH]; intros acc; cbn [map fold_left Rsum fold_right].
  - f_equal. lra.
  - cbn [JS.add]. rewrite IH. f_equal. unfold Rsum. lra.
Qed.

Lemma sum_Fin (l : list R) : JS.sum (map Fin l) = Fin (Rsum l).
Proof. unfold JS.sum. rewrite sum_from_Fin. f_equal. lra. Qed.

Lemma INR_length_pos {A} (l : list A) : l <> [] -> 0 < INR (length l).
Proof.
  destruct l; [congruence|]. intros _. apply lt_0_INR. cbn. lia.
Qed.

Lemma mean_Fin (l : list R) : l <> [] -> mean (map Fin l) = Fin (Rmean l).
Proof.
  intros Hl. unfold mean, JS.of_nat. rewrite sum_Fin, length_map.
  apply div_Fin. pose proof (INR_length_pos l Hl). lra.
Qed.

Lemma squares_from_Fin (l : list R) (m acc : R) :
  fold_left (fun sum val => (sum + JS.square (val - Fin m))%js) (map Fin l) (Fin acc)
  = Fin (acc + Rsum (map (fun v => (v - m) * (v - m)) l)).
Proof.
  revert acc. induction l as [|x l IH]; intros acc;
    cbn [map fold_left Rsum fold_right].
  - f_equal. lra.
  - change ((Fin acc + JS.square (Fin x - Fin m))%js)
      with (Fin (acc + (x + - m) * (x + - m))).
    rewrite IH. f_equal. unfold Rsum. lra.
Qed.

Lemma variance_Fin (l : list R) : l <> [] -> variance (map Fin l) = Fin (Rvariance l).
Proof.
  intros Hl. unfold variance. cbv zeta.
  rewrite (mean_Fin l Hl), squares_from_Fin, length_map.
  unfold JS.of_nat. rewrite div_Fin by (pose proof (INR_length_pos l Hl); lra).
  f_equal. unfold Rvariance. f_equal. lra.
Qed.

Lemma Rsum_nonneg (l : list R) : Forall (fun v => 0 <= v) l -> 0 <= Rsum l.
Proof.
  induction 1 as [|x l Hx Hl IH]; cbn [Rsum fold_right]; [lra|].
  unfold Rsum in IH. lra.
Qed.

Lemma Rsum_zero_inv (l : list R) :
  Forall (fun v => 0 <= v) l -> Rsum l = 0 -> Forall (fun v => v = 0) l.
Proof.
  induction 1 as [|x l Hx Hl IH]; cbn [Rsum fold_right]; intros Hsum;
    [constructor|].
  pose proof (Rsum_nonneg l Hl) as Hrest. unfold Rsum in *.
  constructor; [lra|]. apply IH. lra.
Qed.

Lemma Rsum_bounds (l : list R) (lo hi : R) :
  Forall (fun v => lo <= v <= hi) l ->
  INR (length l) * lo <= Rsum l <= INR (length l) * hi.
Proof.
  induction 1 as [|x l Hx Hl IH]; cbn [Rsum fold_right length].
  - cbn. lra.
  - rewrite S_INR. unfold Rsum in IH. lra.
Qed.

Lemma Rmean_bounds (l : list R) (lo hi : R) :
  l <> [] -> Forall (fun v => lo <= v <= hi) l -> lo <= Rmean l <= hi.
Proof.
  intros Hl Hall. pose proof (INR_length_pos l Hl) as Hn.
  pose proof (Rsum_bounds l lo hi Hall) as [H1 H2]. unfold Rmean.
  split.
  - apply Rmult_le_reg_r with (INR (length l)); [assumption|].
    unfold Rdiv. rewrite Rmult_assoc, Rinv_l by lra. lra.
  - apply Rmult_le_reg_r with (INR (length l)); [assumption|].
    unfold Rdiv. rewrite Rmult_assoc, Rinv_l by lra. lra.
Qed.

Lemma Rvariance_nonneg (l : list R) : l <> [] -> 0 <= Rvariance l.
Proof.
  intros Hl. pose proof (INR_length_pos l Hl) as Hn. unfold Rvariance.
  apply Rmult_le_pos; [|left; apply Rinv_0_lt_compat; assumption].
  apply Rsum_nonneg. apply List.Forall_forall. intros s Hs.
  apply in_map_iff in Hs as (v & <- & _). cbv beta. apply Rle_0_sqr.
Qed.

Lemma Rsum_squares_zero (l : list R) (m : R) :
  Forall (fun v => v = m) l -> Rsum (map (fun v => (v - m) * (v - m)) l) = 0.
Proof.
  induction 1 as [|x l Hx Hl IH]; cbn [map Rsum fold_right]; [reflexivity|].
  unfold Rsum in IH. rewrite IH, Hx. lra.
Qed.

Lemma Rvariance_zero_iff (l : list R) :
  l <> [] -> (Rvariance l = 0 <-> Forall (fun v => v = Rmean l) l).
Proof.
  intros Hl. pose proof (INR_length_pos l Hl) as Hn. unfold Rvariance.
  set (m := Rmean l). split.
  - intros Hzero.
    assert (Hsum : Rsum (map (fun v => (v - m) * (v - m)) l) = 0).
    { apply Rmult_eq_reg_r with (/ INR (length l)).
      - rewrite Rmult_0_l. exact Hzero.
      - apply Rinv_neq_0_compat. lra. }
    apply Rsum_zero_inv in Hsum.
    + apply List.Forall_forall. intros v Hv.
      rewrite List.Forall_forall in Hsum.
      assert ((v - m) * (v - m) = 0) by (apply Hsum, in_map_iff; eauto).
      nra.
    + apply List.Forall_forall. intros s Hs.
      apply in_map_iff in Hs as (v & <- & _). cbv beta. apply Rle_0_sqr.
  - intros Hall.
    rewrite (Rsum_squares_zero l m Hall). lra.
Qed.

Lemma Rmean_all_equal (l : list R) (c : R) :
  l <> [] -> Forall (fun v => v = c) l -> Rmean l = c.
Proof.
  intros Hl Hall.
  assert (Hb : c <= Rmean l <= c).
  { apply Rmean_bounds; [assumption|].
    eapply Forall_impl; [exact Hall|]. cbv beta. intros v ->. lra. }
  lra.
Qed.

Lemma integerScores_Fin (zs : list Z) : integerScores zs = map Fin (map IZR zs).
Proof. unfold integerScores. rewrite map_map. reflexivity. Qed.

Lemma allEqual_Rmean (zs : list Z) :
  zs <> [] ->
  (allEqual zs
   <-> Forall (fun v => v = Rmean (map IZR zs)) (map IZR zs)).
Proof.
  intros Hne. assert (Hl : map IZR zs <> [])
    by (intros H; apply map_eq_nil in H; contradiction).
  split.
  - intros Hall. destruct zs as [|z0 zs']; [congruence|].
    assert (Hz0 : Forall (fun v => v = IZR z0) (map IZR (z0 :: zs'))).
    { apply List.Forall_forall. intros v Hv.
      apply in_map_iff in Hv as (z & <- & Hz). f_equal.
      apply Hall; [exact Hz | left; reflexivity]. }
    rewrite (Rmean_all_equal _ _ Hl Hz0). exact Hz0.
  - intros Hall a b Ha Hb. apply eq_IZR.
    pose proof (proj1 (List.Forall_forall _ _) Hall (IZR a) (in_map IZR _ _ Ha)) as Ea.
    pose proof (proj1 (List.Forall_forall _ _) Hall (IZR b) (in_map IZR _ _ Hb)) as Eb.
    cbv beta in Ea, Eb. congruence.
Qed.

(** X1.  On the empty array [mean] and [variance] are NaN.  On a non-empty
    array of integer scores of moderate size they are finite, the mean lies
    between any two integer bounds of the scores, and the variance is never
    negative and is 0 exactly when all scores are equal. *)
Theorem mean_variance_of_integer_scores (zs : list Z) :
  (mean [] = NaN /\ variance [] = NaN)
  /\ (zs <> [] -> moderateScores zs ->
      exists m v,
        mean (integerScores zs) = Fin m
        /\ variance (integerScores zs) = Fin v
        /\ (forall lo hi : Z,
              Forall (fun z => (lo <= z <= hi)%Z) zs -> IZR lo <= m <= IZR hi)
        /\ 0 <= v
        /\ (v = 0 <-> allEqual zs)).
Proof.
  split.
  - split; [exact mean_empty|].
    unfold variance. rewrite mean_empty. cbn [fold_left length].
    unfold JS.of_nat, JS.div. cbn [INR]. rewrite Reqb_true by reflexivity.
    reflexivity.
  - intros Hne _. rewrite integerScores_Fin.
    assert (Hl : map IZR zs <> [])
      by (intros H; apply map_eq_nil in H; contradiction).
    exists (Rmean (map IZR zs)), (Rvariance (map IZR zs)).
    split; [exact (mean_Fin _ Hl)|]. split; [exact (variance_Fin _ Hl)|].
    split.
    { intros lo hi Hbounds. apply (Rmean_bounds _ _ _ Hl).
      apply List.Forall_forall. intros v Hv.
      apply in_map_iff in Hv as (z & <- & Hz).
      pose proof (proj1 (List.Forall_forall _ _) Hbounds z Hz) as [H1 H2].
      split; apply IZR_le; assumption. }
    split; [exact (Rvariance_nonneg _ Hl)|].
    rewrite (Rvariance_zero_iff _ Hl). symmetry. exact (allEqual_Rmean zs Hne).
Qed.

Lemma mean_variance_of_integer_scores_witness :
  exists m v,
    mean (integerScores [40; 60]%Z) = Fin m
    /\ variance (integerScores [40; 60]%Z) = Fin v
    /\ 40 <= m <= 60
    /\ 0 < v.
Proof.
  destruct (mean_variance_of_integer_scores [40; 60]%Z) as (_ & H).
  destruct H as (m & v & Hmean & Hvar & Hbounds & Hpos & Hzero);
    [discriminate | split; [cbn; lia | repeat constructor; lia] |].
  exists m, v. split; [exact Hmean|]. split; [exact Hvar|].
  split; [apply (Hbounds 40%Z 60%Z); repeat constructor; lia|].
  destruct Hpos as [Hlt|Heq]; [exact Hlt|]. exfalso.
  symmetry in Heq. apply Hzero in Heq.
  specialize (Heq 40%Z 60%Z). cbn [In] in Heq.
  assert (H : 40%Z = 60%Z) by (apply Heq; tauto). discriminate H.
Defined.

(** ** The trend slope *)

Lemma combine_Fin (xs ys : list R) :
  combine (map Fin xs) (map Fin ys)
  = map (fun p => (Fin (fst p), Fin (snd p))) (combine xs ys).
Proof.
  revert ys. induction xs as [|x xs IH]; intros [|y ys]; cbn [map combine];
    try reflexivity.
  rewrite IH. reflexivity.
Qed.

Lemma trend_sums_Fin (xm ym : R) (ps : list (R * R)) (a b : R) :
  fold_left
    (fun (acc xy : number * number) =>
       ((fst acc + (fst xy - Fin xm) * (snd xy - Fin ym))%js,
        (snd acc + JS.square (fst xy - Fin xm))%js))
    (map (fun p => (Fin (fst p), Fin (snd p))) ps) (Fin a, Fin b)
  = (Fin (a + Rcross xm ym ps), Fin (b + Rsquares xm ps)).
Proof.
  revert a b. induction ps as [|[x y] ps IH]; intros a b;
    cbn [map fold_left fst snd].
  - unfold Rcross, Rsquares. cbn [map Rsum fold_right]. f_equal; f_equal; lra.
  - change ((Fin a + (Fin x - Fin xm) * (Fin y - Fin ym))%js)
      with (Fin (a + (x + - xm) * (y + - ym))).
    change ((Fin b + JS.square (Fin x - Fin xm))%js)
      with (Fin (b + (x + - xm) * (x + - xm))).
    rewrite IH. unfold Rcross, Rsquares. cbn [map Rsum fold_right fst snd].
    f_equal; f_equal; unfold Rsum; lra.
Qed.

Lemma indices_length (n : nat) : length (indices n) = n.
Proof. unfold indices. rewrite length_map, length_seq. reflexivity. Qed.

Lemma calculateTrend_Fin (ys : list R) :
  (2 <= length ys)%nat ->
  let xs := indices (length ys) in
  let ps := combine xs ys in
  calculateTrend (map Fin ys)
  = if Reqb (Rsquares (Rmean xs) ps) 0 then Fin 0
    else Fin (Rcross (Rmean xs) (Rmean ys) ps / Rsquares (Rmean xs) ps).
Proof.
  intros Hlen xs ps. unfold calculateTrend. rewrite length_map.
  apply Nat.ltb_ge in Hlen as Hlt. rewrite Hlt. cbv zeta.
  assert (Hys : ys <> []) by (destruct ys; [cbn in Hlen; lia | discriminate]).
  assert (Hxs : xs <> []).
  { intros H. apply (f_equal (@length R)) in H. unfold xs in H.
    rewrite indices_length in H. cbn in H. lia. }
  replace (map JS.of_nat (seq 0 (length ys))) with (map Fin xs)
    by (unfold xs, indices; rewrite map_map; reflexivity).
  rewrite (mean_Fin xs Hxs), (mean_Fin ys Hys), combine_Fin.
  fold ps. rewrite trend_sums_Fin. rewrite !Rplus_0_l.
  unfold JS.strict_eq.
  destruct (Reqb (Rsquares (Rmean xs) ps) 0) eqn:Hden; [reflexivity|].
  unfold JS.div. rewrite Hden. reflexivity.
Qed.

Lemma Rsum_map_linear (a d : R) (xs : list R) :
  Rsum (map (fun x => a + d * x) xs) = INR (length xs) * a + d * Rsum xs.
Proof.
  induction xs as [|x xs IH]; cbn [map Rsum fold_right length].
  - cbn. lra.
  - rewrite S_INR. unfold Rsum in *. rewrite IH. lra.
Qed.

Lemma Rmean_linear (a d : R) (xs : list R) :
  xs <> [] -> Rmean (map (fun x => a + d * x) xs) = a + d * Rmean xs.
Proof.
  intros Hxs. pose proof (INR_length_pos xs Hxs) as Hn.
  unfold Rmean. rewrite Rsum_map_linear, length_map. field. lra.
Qed.

Lemma Rcross_linear (a d xm : R) (xs : list R) :
  Rcross xm (a + d * xm) (combine xs (map (fun x => a + d * x) xs))
  = d * Rsquares xm (combine xs (map (fun x => a + d * x) xs)).
Proof.
  unfold Rcross, Rsquares.
  induction xs as [|x xs IH]; cbn [map combine Rsum fold_right fst snd]; [lra|].
  unfold Rsum in IH. rewrite IH. lra.
Qed.

Lemma Rsquares_nonneg (xm : R) (ps : list (R * R)) : 0 <= Rsquares xm ps.
Proof.
  unfold Rsquares. apply Rsum_nonneg, List.Forall_forall. intros s Hs.
  apply in_map_iff in Hs as (p & <- & _). cbv beta. apply Rle_0_sqr.
Qed.

(** With two points or more the indices are not all equal. *)
Lemma Rsquares_indices_pos (n : nat) (xm : R) (ys : list R) :
  (2 <= n)%nat -> length ys = n -> 0 < Rsquares xm (combine (indices n) ys).
Proof.
  intros Hn Hlen. destruct n as [|[|n]]; try lia.
  destruct ys as [|y0 [|y1 ys]]; cbn in Hlen; try lia.
  unfold indices. cbn [seq map combine].
  change (Rsquares xm ((INR 0, y0) :: (INR 1, y1) :: combine (map INR (seq 2 n)) ys))
    with ((INR 0 - xm) * (INR 0 - xm)
          + ((INR 1 - xm) * (INR 1 - xm)
             + Rsquares xm (combine (map INR (seq 2 n)) ys))).
  pose proof (Rsquares_nonneg xm (combine (map INR (seq 2 n)) ys)).
  cbn [INR]. nra.
Qed.

Lemma repeat_linear (c : R) (n : nat) : repeat c n = linearScores c 0 n.
Proof.
  unfold linearScores, indices. rewrite map_map.
  generalize 0%nat. induction n as [|n IH]; intros s; cbn [repeat seq map];
    [reflexivity|].
  rewrite <- IH. f_equal. lra.
Qed.

Lemma calculateTrend_short (array : list number) :
  (length array < 2)%nat -> calculateTrend array = Fin 0.
Proof.
  intros H. unfold calculateTrend. apply Nat.ltb_lt in H. rewrite H. reflexivity.
Qed.

Lemma calculateTrend_linear (a d : R) (n : nat) :
  (2 <= n)%nat -> calculateTrend (map Fin (linearScores a d n)) = Fin d.
Proof.
  intros Hn.
  assert (Hlen : length (linearScores a d n) = n)
    by (unfold linearScores; rewrite length_map; apply indices_length).
  rewrite calculateTrend_Fin by lia. cbv zeta. rewrite Hlen.
  assert (Hxs : indices n <> []).
  { intros H. apply (f_equal (@length R)) in H. rewrite indices_length in H.
    cbn in H. lia. }
  unfold linearScores at 2 4. rewrite (Rmean_linear a d _ Hxs).
  fold (linearScores a d n).
  pose proof (Rsquares_indices_pos n (Rmean (indices n)) (linearScores a d n) Hn Hlen)
    as Hpos.
  rewrite Reqb_false by lra.
  unfold linearScores. rewrite Rcross_linear. f_equal. field.
  unfold linearScores in Hpos. lra.
Qed.

(** X2.  The trend of fewer than two values is 0.  Of the integer scores
    a, a+d, a+2d, ... (2 to 1000 of them, with a up to a million and d up
    to a thousand either way, sizes at which every intermediate value is
    exact in binary64) it is exactly d: 0 for a constant array, positive for
    a rising one. *)
Theorem trend_of_arithmetic_sequence :
  (forall array, (length array < 2)%nat -> calculateTrend array = Fin 0)
  /\ (forall (a d : Z) (n : nat),
        (2 <= n <= 1000)%nat ->
        (- 1000000 <= a <= 1000000)%Z -> (- 1000 <= d <= 1000)%Z ->
        calculateTrend (map Fin (linearScores (IZR a) (IZR d) n)) = Fin (IZR d)).
Proof.
  split; [exact calculateTrend_short|].
  intros a d n [Hn _] _ _. apply calculateTrend_linear. exact Hn.
Qed.

Lemma trend_of_arithmetic_sequence_witness :
  calculateTrend (map Fin (linearScores 40 5 10)) = Fin 5.
Proof.
  destruct trend_of_arithmetic_sequence as (_ & Hlinear).
  apply (Hlinear 40%Z 5%Z 10%nat); lia.
Defined.

(** ** Consistency *)

Lemma calculateConsistency_positive_mean (l : list R) :
  (2 <= length l)%nat -> 0 < Rmean l ->
  calculateConsistency (map Fin l)
  = Fin (Rmax 0 (1 - R_sqrt.sqrt (Rvariance l) / Rmean l)).
Proof.
  intros Hlen Hmean. unfold calculateConsistency. rewrite length_map.
  apply Nat.ltb_ge in Hlen as Hlt. rewrite Hlt. cbv zeta.
  assert (Hl : l <> []) by (destruct l; [cbn in Hlen; lia | discriminate]).
  rewrite (mean_Fin l Hl), (variance_Fin l Hl).
  pose proof (Rvariance_nonneg l Hl) as Hvar.
  unfold JS.sqrt. rewrite Rltb_false by assumption.
  rewrite div_Fin by lra.
  change ((Fin 1 - Fin (R_sqrt.sqrt (Rvariance l) / Rmean l))%js)
    with (Fin (1 + - (R_sqrt.sqrt (Rvariance l) / Rmean l))).
  unfold JS.max, JS.lt, Rmax.
  destruct (Rltb_spec 0 (1 + - (R_sqrt.sqrt (Rvariance l) / Rmean l))),
    (Rle_dec 0 (1 - R_sqrt.sqrt (Rvariance l) / Rmean l)); f_equal; lra.
Qed.

Lemma calculateConsistency_short (array : list number) :
  (length array < 2)%nat -> calculateConsistency array = Fin 1.
Proof.
  intros H. unfold calculateConsistency. apply Nat.ltb_lt in H. rewrite H.
  reflexivity.
Qed.

Lemma calculateConsistency_unit (l : list R) :
  (2 <= length l)%nat -> 0 < Rmean l ->
  exists c,
    calculateConsistency (map Fin l) = Fin c
    /\ 0 <= c <= 1
    /\ (c = 1 <-> Forall (fun v => v = Rmean l) l).
Proof.
  intros Hlen Hmean.
  assert (Hl : l <> []) by (destruct l; [cbn in Hlen; lia | discriminate]).
  pose proof (Rvariance_nonneg l Hl) as Hvar.
  pose proof (sqrt_pos (Rvariance l)) as Hsqrt.
  assert (Hratio : 0 <= R_sqrt.sqrt (Rvariance l) / Rmean l)
    by (apply Rmult_le_pos; [assumption | left; apply Rinv_0_lt_compat; assumption]).
  eexists. split; [apply calculateConsistency_positive_mean; assumption|].
  split.
  - unfold Rmax. destruct (Rle_dec 0 _); lra.
  - rewrite <- (Rvariance_zero_iff l Hl). split.
    + intros Hone.
      assert (Hzero : R_sqrt.sqrt (Rvariance l) / Rmean l = 0)
        by (unfold Rmax in Hone; destruct (Rle_dec 0 _); lra).
      assert (Hs : R_sqrt.sqrt (Rvariance l) = 0).
      { apply Rmult_eq_reg_r with (/ Rmean l).
        - rewrite Rmult_0_l. exact Hzero.
        - apply Rinv_neq_0_compat. lra. }
      apply sqrt_eq_0; assumption.
    + intros ->. rewrite sqrt_0. unfold Rdiv. rewrite Rmult_0_l, Rminus_0_r.
      unfold Rmax. destruct (Rle_dec 0 1); lra.
Qed.

Lemma calculateConsistency_zeros (l : list R) :
  (2 <= length l)%nat -> Forall (fun v => v = 0) l ->
  calculateConsistency (map Fin l) = NaN.
Proof.
  intros Hlen Hzero. unfold calculateConsistency. rewrite length_map.
  apply Nat.ltb_ge in Hlen as Hlt. rewrite Hlt. cbv zeta.
  assert (Hl : l <> []) by (destruct l; [cbn in Hlen; lia | discriminate]).
  rewrite (mean_Fin l Hl), (variance_Fin l Hl).
  rewrite (Rmean_all_equal l 0 Hl Hzero).
  assert (Hvar : Rvariance l = 0).
  { apply Rvariance_zero_iff; [assumption|].
    rewrite (Rmean_all_equal l 0 Hl Hzero). exact Hzero. }
  rewrite Hvar. unfold JS.sqrt. rewrite Rltb_false by lra. rewrite sqrt_0.
  unfold JS.div. rewrite !Reqb_true by reflexivity. reflexivity.
Qed.

(** X3.  Consistency is 1 on fewer than two scores.  On two or more
    integer scores of moderate size with a positive mean it is a number
    between 0 and 1, and it is 1 exactly when all the scores are equal.  On
    two or more scores that are all 0 the division is 0/0 and the result is
    NaN. *)
Theorem consistency_range (zs : list Z) :
  (forall array, (length array < 2)%nat -> calculateConsistency array = Fin 1)
  /\ ((2 <= length zs)%nat -> moderateScores zs -> 0 < Rmean (map IZR zs) ->
      exists c,
        calculateConsistency (integerScores zs) = Fin c
        /\ 0 <= c <= 1
        /\ (c = 1 <-> allEqual zs))
  /\ ((2 <= length zs)%nat -> Forall (fun z => z = 0%Z) zs ->
      calculateConsistency (integerScores zs) = NaN).
Proof.
  split; [exact calculateConsistency_short|].
  rewrite integerScores_Fin. split.
  - intros Hlen _ Hmean.
    assert (Hne : zs <> []) by (destruct zs; [cbn in Hlen; lia | discriminate]).
    destruct (calculateConsistency_unit (map IZR zs)) as (c & Hc & Hrange & Hone);
      [rewrite length_map; exact Hlen | exact Hmean |].
    exists c. split; [exact Hc|]. split; [exact Hrange|].
    rewrite Hone. symmetry. exact (allEqual_Rmean zs Hne).
  - intros Hlen Hzero. apply calculateConsistency_zeros.
    + rewrite length_map. exact Hlen.
    + apply List.Forall_forall. intros v Hv.
      apply in_map_iff in Hv as (z & <- & Hz).
      rewrite (proj1 (List.Forall_forall _ _) Hzero z Hz). reflexivity.
Qed.

Lemma consistency_range_witness :
  (exists c, calculateConsistency (integerScores [40; 60]%Z) = Fin c /\ 0 <= c < 1)
  /\ calculateConsistency (integerScores [50; 50; 50]%Z) = Fin 1.
Proof.
  split.
  - destruct (consistency_range [40; 60]%Z) as (_ & Hpos & _).
    destruct Hpos as (c & Heq & Hrange & Hone).
    + cbn. lia.
    + split; [cbn; lia | repeat constructor; lia].
    + unfold Rmean. cbn. lra.
    + exists c. split; [exact Heq|]. split; [lra|].
      destruct Hrange as [_ [Hlt|Heq1]]; [exact Hlt|]. exfalso.
      apply Hone in Heq1. specialize (Heq1 40%Z 60%Z). cbn [In] in Heq1.
      assert (H : 40%Z = 60%Z) by (apply Heq1; tauto). discriminate H.
  - destruct (consistency_range [50; 50; 50]%Z) as (_ & Hpos & _).
    destruct Hpos as (c & Heq & _ & Hone).
    + cbn. lia.
    + split; [cbn; lia | repeat constructor; lia].
    + unfold Rmean. cbn. lra.
    + rewrite Heq. f_equal. apply Hone.
      intros a b Ha Hb. cbn [In] in Ha, Hb. intuition congruence.
Defined.

(** ** Slices, recent improvement and score decline *)

Lemma slice_from_suffix {A} (a b : list A) :
  b <> [] -> slice_from (- Z.of_nat (length b)) (a ++ b) = b.
Proof.
  intros Hb. unfold slice_from, rel_index. rewrite length_app.
  assert (0 < length b)%nat by (destruct b; [congruence | cbn; lia]).
  destruct (Z.ltb_spec (- Z.of_nat (length b)) 0); [|lia].
  replace (Z.to_nat (Z.max (Z.of_nat (length a + length b) + - Z.of_nat (length b)) 0))
    with (length a) by lia.
  rewrite skipn_app, skipn_all, Nat.sub_diag. reflexivity.
Qed.

Lemma slice_middle {A} (a b c : list A) :
  c <> [] ->
  slice (- Z.of_nat (length b + length c)) (- Z.of_nat (length c)) (a ++ b ++ c) = b.
Proof.
  intros Hc. unfold slice, rel_index. rewrite !length_app.
  assert (0 < length c)%nat by (destruct c; [congruence | cbn; lia]).
  destruct (Z.ltb_spec (- Z.of_nat (length b + length c)) 0); [|lia].
  destruct (Z.ltb_spec (- Z.of_nat (length c)) 0); [|lia].
  replace (Z.to_nat (Z.max (Z.of_nat (length a + (length b + length c))
                            + - Z.of_nat (length b + length c)) 0))
    with (length a) by lia.
  match goal with
  | |- firstn (Z.to_nat ?n) _ = _ => replace (Z.to_nat n) with (length b) by lia
  end.
  rewrite skipn_app, skipn_all, Nat.sub_diag. cbn [app].
  change (skipn 0 (b ++ c)) with (b ++ c).
  rewrite firstn_app, firstn_all, Nat.sub_diag. cbn [firstn]. apply app_nil_r.
Qed.

Lemma slice_from_map {A B} (f : A -> B) (k : Z) (l : list A) :
  slice_from k (map f l) = map f (slice_from k l).
Proof. unfold slice_from. rewrite length_map, skipn_map. reflexivity. Qed.

Lemma slice_map {A B} (f : A -> B) (i j : Z) (l : list A) :
  slice i j (map f l) = map f (slice i j l).
Proof.
  unfold slice. rewrite length_map, skipn_map, firstn_map. reflexivity.
Qed.

Lemma neg_sub (a b : number) : JS.neg (a - b)%js = (b - a)%js.
Proof.
  destruct a, b; unfold JS.sub; cbn [JS.add JS.neg]; try reflexivity.
  f_equal. lra.
Qed.

(** X4.  The recent improvement is 0 on fewer than ten scores; on ten or
    more it is the mean of the last five minus the mean of the five before
    them, whatever precedes.  The score decline of a list of games is the
    recent improvement of their scores with the sign changed. *)
Theorem recent_improvement_and_decline :
  (forall array, (length array < 10)%nat -> calculateRecentImprovement array = Fin 0)
  /\ (forall before older recent : list number,
        length older = 5%nat -> length recent = 5%nat ->
        calculateRecentImprovement (before ++ older ++ recent)
        = (mean recent - mean older)%js)
  /\ (forall gs,
        calculateScoreDecline gs
        = JS.neg (calculateRecentImprovement (map score gs))).
Proof.
  split.
  { intros array H. unfold calculateRecentImprovement.
    apply Nat.ltb_lt in H. rewrite H. reflexivity. }
  split.
  - intros before older recent Ho Hr. unfold calculateRecentImprovement.
    assert (Hlen : (length (before ++ older ++ recent) <? 10)%nat = false)
      by (apply Nat.ltb_ge; rewrite !length_app; lia).
    rewrite Hlen.
    assert (Hrecent : recent <> []) by (destruct recent; [discriminate | congruence]).
    pose proof (slice_from_suffix (before ++ older) recent Hrecent) as H1.
    pose proof (slice_middle before older recent Hrecent) as H2.
    rewrite Ho, Hr in *. rewrite <- app_assoc in H1.
    change (- Z.of_nat 5)%Z with (-5)%Z in *.
    change (- Z.of_nat (5 + 5))%Z with (-10)%Z in *.
    rewrite H1, H2. reflexivity.
  - intros gs. unfold calculateScoreDecline, calculateRecentImprovement.
    rewrite length_map. destruct (length gs <? 10)%nat.
    + cbn [JS.neg]. f_equal. lra.
    + rewrite neg_sub, slice_from_map, slice_map. reflexivity.
Qed.

Lemma recent_improvement_and_decline_witness :
  calculateRecentImprovement
    ([Fin 1] ++ [Fin 40; Fin 45; Fin 50; Fin 55; Fin 60]
            ++ [Fin 65; Fin 70; Fin 75; Fin 80; Fin 85])
  = (mean [Fin 65; Fin 70; Fin 75; Fin 80; Fin 85]
     - mean [Fin 40; Fin 45; Fin 50; Fin 55; Fin 60])%js.
Proof.
  destruct recent_improvement_and_decline as (_ & Hten & _).
  apply Hten; reflexivity.
Defined.

(** ** Session grouping *)

Lemma lastOf_snoc {A} (l : list A) (x : A) : lastOf (l ++ [x]) = Some x.
Proof. unfold lastOf. rewrite rev_app_distr. reflexivity. Qed.

Lemma lastOf_nil_inv {A} (l : list A) : lastOf l = None -> l = [].
Proof.
  unfold lastOf. intros H. destruct (rev l) eqn:Hrev; [|discriminate].
  apply (f_equal (@rev A)) in Hrev. rewrite rev_involutive in Hrev. exact Hrev.
Qed.

Lemma gapsBelowHalfHour_snoc (l : list GameRecord) (g : GameRecord) :
  gapsBelowHalfHour l ->
  (forall a, lastOf l = Some a -> (timestamp g - timestamp a < 30 * 60 * 1000)%Z) ->
  gapsBelowHalfHour (l ++ [g]).
Proof.
  induction l as [|a [|b l] IH]; intros Hl Hlast.
  - exact I.
  - cbn. split; [|exact I]. apply Hlast. reflexivity.
  - destruct Hl as [Hab Hrest]. split; [exact Hab|].
    apply IH; [exact Hrest|].
    intros c Hc. apply Hlast. unfold lastOf in *. cbn [rev] in *.
    destruct (rev l ++ [b]) eqn:E; [destruct (rev l); discriminate|].
    cbn [app hd_error] in *. exact Hc.
Qed.

Lemma sessionsApart_snoc (sessions : list Session) (s : Session) :
  sessionsApart sessions ->
  (forall l, lastOf sessions = Some l ->
             (30 * 60 * 1000 <= startTime s - endTime l)%Z) ->
  sessionsApart (sessions ++ [s]).
Proof.
  induction sessions as [|a [|b l] IH]; intros Hl Hlast.
  - exact I.
  - cbn. split; [|exact I]. apply Hlast. reflexivity.
  - destruct Hl as [Hab Hrest]. split; [exact Hab|].
    apply IH; [exact Hrest|].
    intros c Hc. apply Hlast. unfold lastOf in *. cbn [rev] in *.
    destruct (rev l ++ [b]) eqn:E; [destruct (rev l); discriminate|].
    cbn [app hd_error] in *. exact Hc.
Qed.

Lemma closeSession_consistent (currentSession : list GameRecord) :
  currentSession <> [] -> gapsBelowHalfHour currentSession ->
  sessionConsistent (closeSession currentSession).
Proof.
  intros Hne Hgaps. unfold sessionConsistent, closeSession.
  cbn [sGames duration startTime endTime].
  split; [exact Hne|]. split; [reflexivity|].
  split; [destruct currentSession; [congruence | reflexivity]|].
  split; [|exact Hgaps].
  unfold lastOf. rewrite <- map_rev.
  destruct (rev currentSession) eqn:E; [|reflexivity].
  apply (f_equal (@rev GameRecord)) in E. rewrite rev_involutive in E.
  contradiction.
Qed.

Lemma closeSession_times (currentSession : list GameRecord) (first lastGame : GameRecord) :
  hd_error currentSession = Some first -> lastOf currentSession = Some lastGame ->
  startTime (closeSession currentSession) = timestamp first
  /\ endTime (closeSession currentSession) = timestamp lastGame.
Proof.
  unfold lastOf, closeSession. cbn [startTime endTime]. intros Hfirst Hlast.
  destruct currentSession; [discriminate|]. injection Hfirst as ->.
  destruct (rev (first :: currentSession)); [discriminate|].
  injection Hlast as ->. split; reflexivity.
Qed.

Lemma sessionStep_inv (st : list Session * list GameRecord)
    (seen : list GameRecord) (game : GameRecord) :
  sessionLoopInv st seen -> sessionLoopInv (sessionStep st game) (seen ++ [game]).
Proof.
  destruct st as [sessions cur]. unfold sessionLoopInv, sessionStep.
  intros (Hcat & Hcons & Hapart & Hgaps & Hempty & Hfar).
  destruct (rev cur) as [|lastGame rest] eqn:Hrev.
  - assert (Hcur : cur = []) by (apply lastOf_nil_inv; unfold lastOf; rewrite Hrev; reflexivity).
    subst cur. rewrite (Hempty eq_refl) in *. cbn in Hcat. subst seen.
    cbn. repeat split; auto; discriminate.
  - assert (Hlast : lastOf cur = Some lastGame) by (unfold lastOf; rewrite Hrev; reflexivity).
    assert (Hne : cur <> []) by (intros ->; discriminate).
    destruct (Z.ltb_spec (timestamp game - timestamp lastGame) (30 * 60 * 1000)) as [Hnear|Hfar'].
    + split; [rewrite app_assoc, Hcat; reflexivity|].
      split; [exact Hcons|]. split; [exact Hapart|].
      split; [apply gapsBelowHalfHour_snoc; [exact Hgaps|];
              intros a Ha; rewrite Hlast in Ha; injection Ha as <-; exact Hnear|].
      split; [intros H; destruct cur; discriminate|].
      intros s g Hs Hg. apply (Hfar s g Hs).
      destruct cur; [congruence | exact Hg].
    + destruct cur as [|first cur'] eqn:Ecur; [congruence|]. rewrite <- Ecur in *.
      destruct (closeSession_times cur first lastGame) as [Hstart Hend];
        [rewrite Ecur; reflexivity | exact Hlast |].
      split.
      { rewrite map_app, concat_app. cbn [map concat sGames closeSession].
        rewrite app_nil_r, <- Hcat, <- !app_assoc. reflexivity. }
      split; [apply Forall_app; split;
              [exact Hcons | repeat constructor; apply closeSession_consistent; assumption]|].
      split.
      { apply sessionsApart_snoc; [exact Hapart|].
        intros l Hl. rewrite Hstart. apply (Hfar l first Hl).
        rewrite Ecur. reflexivity. }
      split; [exact I|]. split; [discriminate|].
      intros s g Hs Hg. rewrite lastOf_snoc in Hs. injection Hs as <-.
      cbn in Hg. injection Hg as <-. rewrite Hend. exact Hfar'.
Qed.

Lemma sessionLoop_inv (l : list GameRecord) (st : list Session * list GameRecord)
    (seen : list GameRecord) :
  sessionLoopInv st seen -> sessionLoopInv (fold_left sessionStep l st) (seen ++ l).
Proof.
  revert st seen. induction l as [|g l IH]; intros st seen Hinv; cbn [fold_left].
  - rewrite app_nil_r. exact Hinv.
  - replace (seen ++ g :: l) with ((seen ++ [g]) ++ l)
      by (rewrite <- app_assoc; reflexivity).
    apply IH, sessionStep_inv, Hinv.
Qed.

Lemma groupIntoSessions_sessions (gs : list GameRecord) :
  let sessions := fst (groupIntoSessions gs) in
  concat (map sGames sessions) = sortByTimestamp gs
  /\ Forall sessionConsistent sessions
  /\ sessionsApart sessions.
Proof.
  unfold groupIntoSessions.
  pose proof (sessionLoop_inv (sortByTimestamp gs) ([], []) []) as Hinv.
  destruct (fold_left sessionStep (sortByTimestamp gs) ([], [])) as [sessions cur].
  cbn [fst]. cbn [app] in Hinv.
  destruct Hinv as (Hcat & Hcons & Hapart & Hgaps & Hempty & Hfar).
  { cbn. repeat split; auto. intros s g Hs. discriminate. }
  destruct cur as [|first cur'] eqn:Ecur.
  - cbn [length Nat.ltb Nat.leb]. rewrite app_nil_r in Hcat. auto.
  - cbn [length Nat.ltb Nat.leb]. rewrite <- Ecur in *.
    assert (Hne : cur <> []) by (rewrite Ecur; discriminate).
    split.
    { rewrite map_app, concat_app. cbn [map concat sGames closeSession].
      rewrite app_nil_r. exact Hcat. }
    split; [apply Forall_app; split;
            [exact Hcons | repeat constructor; apply closeSession_consistent; assumption]|].
    apply sessionsApart_snoc; [exact Hapart|].
    intros l Hl.
    replace (startTime (closeSession cur)) with (timestamp first)
      by (rewrite Ecur; reflexivity).
    apply (Hfar l first Hl). rewrite Ecur. reflexivity.
Qed.

Lemma length_concat_sum (sessions : list Session) :
  length (concat (map sGames sessions))
  = fold_right (fun s n => (length (sGames s) + n)%nat) 0%nat sessions.
Proof.
  induction sessions as [|s l IH]; cbn [map concat fold_right]; [reflexivity|].
  rewrite length_app, IH. reflexivity.
Qed.

(** X5.  The sessions of [groupIntoSessions] partition the records in
    timestamp order: the games of the sessions, one session after the
    other, are the sorted input, so every record is in exactly one session
    and the session sizes add up to the number of records; there is no
    session exactly when there is no record.  Each session is non-empty, its
    duration is the number of its games (not elapsed time), and its start
    and end times are the timestamps of its first and last game. *)
Theorem sessions_partition_the_records (gs : list GameRecord) :
  let sessions := fst (groupIntoSessions gs) in
  concat (map sGames sessions) = sortByTimestamp gs
  /\ Permutation gs (concat (map sGames sessions))
  /\ fold_right (fun s n => (length (sGames s) + n)%nat) 0%nat sessions = length gs
  /\ (sessions = [] <-> gs = [])
  /\ Forall (fun s =>
               sGames s <> []
               /\ duration s = JS.of_nat (length (sGames s))
               /\ hd_error (map timestamp (sGames s)) = Some (startTime s)
               /\ lastOf (map timestamp (sGames s)) = Some (endTime s)) sessions.
Proof.
  intros sessions.
  destruct (groupIntoSessions_sessions gs) as (Hcat & Hcons & _).
  fold sessions in Hcat, Hcons.
  pose proof (sort_by_perm timestamp gs) as Hperm.
  change (sort_by (precedesBy timestamp) gs) with (sortByTimestamp gs) in Hperm.
  split; [exact Hcat|]. split; [rewrite Hcat; exact Hperm|].
  split; [rewrite <- length_concat_sum, Hcat; symmetry; apply Permutation_length, Hperm|].
  split.
  - split.
    + intros Hnil. rewrite Hnil in Hcat. cbn in Hcat.
      rewrite <- Hcat in Hperm. apply Permutation_sym, Permutation_nil in Hperm.
      exact Hperm.
    + intros ->. destruct sessions as [|s l]; [reflexivity|].
      apply Forall_inv in Hcons. destruct Hcons as (Hne & _).
      cbn in Hcat. destruct (sGames s); [congruence | discriminate].
  - eapply Forall_impl; [exact Hcons|].
    intros s (H1 & H2 & H3 & H4 & _). auto.
Qed.

(** X6.  Inside a session consecutive games are less than thirty minutes
    apart, and every session starts thirty minutes or more after the end of
    the session before it. *)
Theorem sessions_split_at_half_hour_gaps (gs : list GameRecord) :
  let sessions := fst (groupIntoSessions gs) in
  Forall (fun s => gapsBelowHalfHour (sGames s)) sessions
  /\ sessionsApart sessions.
Proof.
  intros sessions.
  destruct (groupIntoSessions_sessions gs) as (_ & Hcons & Hapart).
  split; [|exact Hapart].
  eapply Forall_impl; [exact Hcons|].
  intros s (_ & _ & _ & _ & H). exact H.
Qed.

(** ** Daily activity *)

Lemma sum_of_nat (ns : list nat) :
  JS.sum (map JS.of_nat ns) = Fin (INR (list_sum ns)).
Proof.
  replace (map JS.of_nat ns) with (map Fin (map INR ns))
    by (rewrite map_map; reflexivity).
  rewrite sum_Fin. f_equal.
  induction ns as [|n ns IH]; cbn [map Rsum fold_right list_sum]; [reflexivity|].
  rewrite plus_INR. unfold Rsum in IH. rewrite IH. reflexivity.
Qed.

Lemma getDay_range (tzOffset ts : Z) :
  if validTime ts
  then exists day, getDay tzOffset ts = Some day /\ (0 <= day < 7)%Z
  else getDay tzOffset ts = None.
Proof.
  unfold getDay. destruct (validTime ts); [|reflexivity].
  eexists. split; [reflexivity|]. apply Z.mod_pos_bound. lia.
Qed.

Lemma weekday_buckets (tzOffset : Z) (games' : list GameRecord) :
  list_sum
    (map (fun day =>
            length (List.filter
                      (fun game =>
                         bool_decide (getDay tzOffset (timestamp game) = Some day))
                      games'))
       [0; 1; 2; 3; 4; 5; 6]%Z)
  = length (List.filter (fun game => validTime (timestamp game)) games').
Proof.
  induction games' as [|g gs IH]; [reflexivity|].
  cbn [map list_sum List.filter] in *.
  pose proof (getDay_range tzOffset (timestamp g)) as Hrange.
  destruct (validTime (timestamp g)).
  - destruct Hrange as (day & Hday & Hrange). rewrite Hday.
    assert (Hcases : day = 0%Z \/ day = 1%Z \/ day = 2%Z \/ day = 3%Z
                     \/ day = 4%Z \/ day = 5%Z \/ day = 6%Z) by lia.
    destruct Hcases as [H|[H|[H|[H|[H|[H|H]]]]]]; rewrite H;
      repeat match goal with
        | |- context [bool_decide (Some ?x = Some ?y)] =>
            first [ rewrite (bool_decide_eq_true_2 (Some x = Some y)) by reflexivity
                  | rewrite (bool_decide_eq_false_2 (Some x = Some y)) by discriminate ]
        end;
      cbn [length]; unfold list_sum in *; cbn [fold_right] in *; lia.
  - rewrite Hrange.
    repeat match goal with
      | |- context [bool_decide (None = Some ?y)] =>
          rewrite (bool_decide_eq_false_2 (None = Some y)) by discriminate
      end.
    unfold list_sum in *; cbn [fold_right] in *; lia.
Qed.

Lemma filter_all {A} (f : A -> bool) (l : list A) :
  Forall (fun x => f x = true) l -> List.filter f l = l.
Proof.
  induction 1 as [|x l Hx _ IH]; cbn [List.filter]; [reflexivity|].
  rewrite Hx, IH. reflexivity.
Qed.

Lemma calculateDailyActivity_mean (tzOffset : Z) (games' : list GameRecord) :
  mean (calculateDailyActivity tzOffset games')
  = Fin (INR (length (List.filter (fun g => validTime (timestamp g)) games')) / 7).
Proof.
  unfold mean, calculateDailyActivity, count.
  rewrite length_map.
  rewrite <- (map_map
                (fun day =>
                   length (List.filter
                             (fun game =>
                                bool_decide (getDay tzOffset (timestamp game) = Some day))
                             games'))
                JS.of_nat).
  rewrite sum_of_nat, weekday_buckets.
  unfold JS.of_nat. cbn [length]. rewrite div_Fin by (cbn [INR]; lra).
  f_equal. cbn [INR]. lra.
Qed.

(** X7.  [calculateDailyActivity] returns seven counts, one per weekday.
    A game whose timestamp makes an invalid [Date] (beyond 8.64e15
    milliseconds either side of the epoch) is counted on no weekday; every
    other game is counted on exactly one.  So the mean of the seven counts
    is the number of games with a valid timestamp divided by 7, whatever the
    time zone, and the daily play frequency of the engagement features is
    the number of such games among those of the last seven days, divided by
    7: all of them when every timestamp is valid. *)
Theorem daily_activity_counts_every_game :
  (forall tzOffset games',
      length (calculateDailyActivity tzOffset games') = 7%nat
      /\ mean (calculateDailyActivity tzOffset games')
         = Fin (INR (length (List.filter (fun g => validTime (timestamp g)) games'))
                / 7)
      /\ (Forall (fun g => validTime (timestamp g) = true) games' ->
          mean (calculateDailyActivity tzOffset games')
          = Fin (INR (length games') / 7)))
  /\ (forall now tzOffset gs,
        exists features,
          extractEngagementFeatures now tzOffset {| games := Some gs |}
          = Normal features
          /\ dailyPlayFrequency features
             = Fin (INR (length (List.filter (fun g => validTime (timestamp g))
                                   (List.filter (withinDays now 7) gs))) / 7)).
Proof.
  split.
  - intros tzOffset games'. split; [reflexivity|].
    split; [apply calculateDailyActivity_mean|].
    intros Hvalid. rewrite calculateDailyActivity_mean.
    rewrite (filter_all _ games' Hvalid). reflexivity.
  - intros now tzOffset gs. unfold extractEngagementFeatures.
    cbn [games_of games JS.bind].
    destruct (analyzeSessionPatterns _) as [patterns sorted].
    unfold calculateReturnRate. cbn [games_of games JS.bind].
    eexists. split; [reflexivity|]. cbn [dailyPlayFrequency].
    apply calculateDailyActivity_mean.
Qed.

Lemma daily_activity_counts_every_game_witness :
  mean (calculateDailyActivity 0 [earlierGame; laterGame]) = Fin (2 / 7)
  /\ mean (calculateDailyActivity 0
             [sampleRecord "memory_game" "medium" 60 8640000000000001])
     = Fin (0 / 7).
Proof.
  destruct daily_activity_counts_every_game as (Hmean & _).
  split.
  - destruct (Hmean 0%Z [earlierGame; laterGame]) as (_ & _ & Hall).
    rewrite Hall by (repeat constructor). f_equal.
  - destruct (Hmean 0%Z [sampleRecord "memory_game" "medium" 60 8640000000000001])
      as (_ & Hvalid & _).
    rewrite Hvalid. reflexivity.
Defined.

(** ** The most frequent item *)

Lemma count_occ_snoc (l : list string) (x k : string) :
  count_occ string_dec (l ++ [x]) k
  = (count_occ string_dec l k + if string_dec x k then 1 else 0)%nat.
Proof. rewrite count_occ_app. cbn. destruct (string_dec x k); reflexivity. Qed.

Section SortAny.

Context {A : Type} (must_precede : A -> A -> bool).

Lemma insert_sorted_perm_any (x : A) (l : list A) :
  Permutation (x :: l) (insert_sorted must_precede x l).
Proof.
  induction l as [|y l IH]; cbn [JS.insert_sorted]; [reflexivity|].
  destruct (must_precede x y); [reflexivity|].
  rewrite perm_swap. apply perm_skip. exact IH.
Qed.

Lemma sort_from_perm_any (l acc : list A) :
  Permutation (acc ++ l)
    (fold_left (fun acc x => insert_sorted must_precede x acc) l acc).
Proof.
  revert acc. induction l as [|x l IH]; intros acc; cbn [fold_left].
  - rewrite app_nil_r. reflexivity.
  - rewrite <- IH, <- insert_sorted_perm_any.
    rewrite <- Permutation_middle. reflexivity.
Qed.

Lemma sort_by_perm_any (l : list A) : Permutation l (sort_by must_precede l).
Proof. exact (sort_from_perm_any l []). Qed.

End SortAny.

Lemma proto_not_inherited_false : inherited "__proto__" = true.
Proof. reflexivity. Qed.

Lemma countItems_step (acc : list string * gmap string tally) (seen : list string)
    (item : string) :
  countLoopInv acc seen ->
  countLoopInv
    (let '(keys, counts) := acc in
     let value := nextTally counts item in
     if String.eqb item "__proto__" then acc
     else
       (match counts !! item with
        | Some _ => keys
        | None => keys ++ [item]
        end,
        <[item := value]> counts)) (seen ++ [item]).
Proof.
  destruct acc as [keys counts]. unfold countLoopInv. cbn [fst snd].
  intros (Hkeys & Hown & Hcount). cbv zeta.
  destruct (String.eqb_spec item "__proto__") as [->|Hproto]; cbn [fst snd].
  - split; [|split].
    + intros k. rewrite Hkeys, in_app_iff. cbn [In]. intuition congruence.
    + exact Hown.
    + intros k Hk Hclean. rewrite (Hcount k Hk Hclean), count_occ_snoc.
      apply Hkeys in Hk as [_ Hk].
      destruct (string_dec "__proto__" k); [congruence|].
      rewrite Nat.add_0_r. reflexivity.
  - assert (Hitem : In item keys <-> In item seen).
    { rewrite Hkeys. tauto. }
    assert (Hkeys' :
              forall k,
                In k (match counts !! item with
                      | Some _ => keys
                      | None => keys ++ [item]
                      end)
                <-> In k keys \/ k = item).
    { intros k. destruct (counts !! item) as [t|] eqn:Hlookup.
      - assert (In item keys) by (apply Hown; rewrite Hlookup; eauto).
        split; [tauto|]. intros [Hk| ->]; assumption.
      - rewrite in_app_iff. cbn [In]. intuition congruence. }
    split; [|split].
    + intros k. rewrite Hkeys', Hkeys, in_app_iff. cbn [In].
      intuition congruence.
    + intros k. rewrite Hkeys'. destruct (string_dec item k) as [<-|Hne].
      * rewrite lookup_insert_eq. split; [tauto | eauto].
      * rewrite lookup_insert_ne by assumption. rewrite Hown.
        intuition congruence.
    + intros k Hk Hclean. apply Hkeys' in Hk. rewrite count_occ_snoc.
      destruct (string_dec item k) as [<-|Hne].
      * rewrite lookup_insert_eq. f_equal. unfold nextTally.
        destruct (counts !! item) as [t|] eqn:Hlookup.
        -- assert (Hin : In item keys) by (apply Hown; rewrite Hlookup; eauto).
           pose proof (Hcount item Hin Hclean) as Ht. rewrite Hlookup in Ht.
           injection Ht as ->. f_equal. lia.
        -- destruct (String.eqb_spec item "__proto__"); [contradiction|].
           rewrite Hclean.
           assert (Hout : ~ In item seen).
           { intros Hin. apply Hitem, Hown in Hin. rewrite Hlookup in Hin.
             destruct Hin as [? Hin]. discriminate Hin. }
           apply (count_occ_not_In string_dec) in Hout. rewrite Hout.
           reflexivity.
      * rewrite lookup_insert_ne by assumption. rewrite Nat.add_0_r.
        destruct Hk as [Hk|Hk]; [exact (Hcount k Hk Hclean) | congruence].
Qed.

Lemma countItems_loop (l seen : list string) (acc : list string * gmap string tally) :
  countLoopInv acc seen ->
  countLoopInv
    (fold_left
       (fun acc item =>
          let '(keys, counts) := acc in
          let value := nextTally counts item in
          if String.eqb item "__proto__" then acc
          else
            (match counts !! item with
             | Some _ => keys
             | None => keys ++ [item]
             end,
             <[item := value]> counts)) l acc) (seen ++ l).
Proof.
  revert seen acc. induction l as [|x l IH]; intros seen acc Hinv; cbn [fold_left].
  - rewrite app_nil_r. exact Hinv.
  - replace (seen ++ x :: l) with ((seen ++ [x]) ++ l)
      by (rewrite <- app_assoc; reflexivity).
    apply IH. apply (countItems_step acc seen x Hinv).
Qed.

Lemma countItems_spec (array : list string) : countLoopInv (countItems array) array.
Proof.
  apply (countItems_loop array [] ([], ∅)). split; [|split].
  - intros k. cbn. tauto.
  - intros k. cbn. rewrite lookup_empty. split; [intros [? H]; discriminate H | tauto].
  - intros k [].
Qed.

Lemma Object_keys_In (keys : list string) (k : string) :
  In k (Object_keys keys) <-> In k keys.
Proof.
  unfold Object_keys. rewrite in_app_iff.
  split.
  - intros [H|H].
    + apply (Permutation_in _ (Permutation_sym (sort_by_perm_any _ _))) in H.
      apply filter_In in H. tauto.
    + apply filter_In in H. tauto.
  - intros H. destruct (arrayIndex k) as [n|] eqn:Hindex.
    + left. apply (Permutation_in _ (sort_by_perm_any _ _)).
      apply filter_In. split; [exact H|].
      apply bool_decide_eq_true_2. rewrite Hindex. discriminate.
    + right. apply filter_In. split; [exact H|].
      apply bool_decide_eq_true_2. exact Hindex.
Qed.

Lemma fold_pick_In (gt : string -> string -> bool) (ks : list string) (k : string) :
  In (fold_left (fun a b => if gt a b then a else b) ks k) (k :: ks).
Proof.
  revert k. induction ks as [|b ks IH]; intros k; cbn [fold_left];
    [left; reflexivity|].
  destruct (gt k b).
  - destruct (IH k) as [<-|H]; [left; reflexivity | right; right; exact H].
  - right. apply IH.
Qed.

Lemma pick_most (gt : string -> string -> bool) (countOf : string -> nat)
    (P : string -> Prop) :
  (forall a b, P a -> P b -> gt a b = (countOf b <? countOf a)%nat) ->
  forall ks k, P k -> Forall P ks ->
    forall x, In x (k :: ks) ->
      (countOf x <= countOf (fold_left (fun a b => if gt a b then a else b) ks k))%nat.
Proof.
  intros Hgt. induction ks as [|b ks IH]; intros k Hk Hks x Hx; cbn [fold_left].
  - destruct Hx as [<-|[]]. lia.
  - apply Forall_cons_iff in Hks as [Hb Hks]. rewrite (Hgt k b Hk Hb).
    destruct (Nat.ltb_spec (countOf b) (countOf k)) as [Hlt|Hge].
    + destruct Hx as [<-|[<-|Hx]].
      * apply (IH k Hk Hks). left. reflexivity.
      * pose proof (IH k Hk Hks k (or_introl eq_refl)). lia.
      * apply (IH k Hk Hks). right. exact Hx.
    + destruct Hx as [<-|[<-|Hx]].
      * pose proof (IH b Hb Hks b (or_introl eq_refl)). lia.
      * apply (IH b Hb Hks). left. reflexivity.
      * apply (IH b Hb Hks). right. exact Hx.
Qed.

Lemma getMostFrequent_only_proto (array : list string) :
  Forall (fun x => x = "__proto__"%string) array ->
  getMostFrequent array
  = Throw (TypeError "Reduce of empty array with no initial value").
Proof.
  intros Hall. unfold getMostFrequent.
  pose proof (countItems_spec array) as (Hkeys & _).
  destruct (countItems array) as [keys counts]. cbn [fst snd] in *.
  destruct (Object_keys keys) as [|k ks] eqn:Hobj; [reflexivity|].
  assert (Hk : In k keys) by (apply Object_keys_In; rewrite Hobj; left; reflexivity).
  apply Hkeys in Hk as [Hin Hne].
  exfalso. apply Hne. exact (proj1 (List.Forall_forall _ _) Hall k Hin).
Qed.

Lemma getMostFrequent_returns_item (array : list string) :
  Exists (fun x => x <> "__proto__"%string) array ->
  exists r, getMostFrequent array = Normal r /\ In r array.
Proof.
  intros Hex. unfold getMostFrequent.
  pose proof (countItems_spec array) as (Hkeys & _).
  destruct (countItems array) as [keys counts]. cbn [fst snd] in *.
  destruct (Object_keys keys) as [|k ks] eqn:Hobj.
  - exfalso. apply List.Exists_exists in Hex as (x & Hx & Hne).
    assert (Hin : In x (Object_keys keys)) by (apply Object_keys_In, Hkeys; tauto).
    rewrite Hobj in Hin. destruct Hin.
  - eexists. split; [reflexivity|].
    pose proof (fold_pick_In (fun a b => tallyGt (counts !! a) (counts !! b)) ks k)
      as Hin.
    rewrite <- Hobj in Hin. apply Object_keys_In, Hkeys in Hin. tauto.
Qed.

Lemma getMostFrequent_plain_items (array : list string) :
  array <> [] -> Forall (fun x => inherited x = false) array ->
  exists r,
    getMostFrequent array = Normal r
    /\ In r array
    /\ forall x, (count_occ string_dec array x <= count_occ string_dec array r)%nat.
Proof.
  intros Hne Hplain. unfold getMostFrequent.
  pose proof (countItems_spec array) as (Hkeys & _ & Hcount).
  destruct (countItems array) as [keys counts]. cbn [fst snd] in *.
  assert (Hitem : forall x, In x array -> In x keys).
  { intros x Hx. apply Hkeys. split; [exact Hx|]. intros ->.
    pose proof (proj1 (List.Forall_forall _ _) Hplain _ Hx) as H. discriminate H. }
  assert (Hvalue : forall k, In k keys ->
                     counts !! k = Some (Count (count_occ string_dec array k))).
  { intros k Hk. apply (Hcount k Hk). apply Hkeys in Hk as [Hk _].
    exact (proj1 (List.Forall_forall _ _) Hplain _ Hk). }
  destruct (Object_keys keys) as [|k ks] eqn:Hobj.
  - destruct array as [|a l]; [congruence|]. exfalso.
    assert (Hin : In a (Object_keys keys))
      by (apply Object_keys_In, Hitem; left; reflexivity).
    rewrite Hobj in Hin. destruct Hin.
  - assert (Hall : Forall (fun k => In k keys) (k :: ks)).
    { apply List.Forall_forall. intros x Hx. apply Object_keys_In.
      rewrite Hobj. exact Hx. }
    apply Forall_cons_iff in Hall as [Hk Hks].
    eexists. split; [reflexivity|].
    pose proof (fold_pick_In (fun a b => tallyGt (counts !! a) (counts !! b)) ks k)
      as Hin.
    split.
    + rewrite <- Hobj in Hin. apply Object_keys_In, Hkeys in Hin. tauto.
    + intros x. destruct (in_dec string_dec x array) as [Hx|Hx].
      * apply (pick_most (fun a b => tallyGt (counts !! a) (counts !! b))
                 (count_occ string_dec array) (fun k => In k keys)).
        -- intros a b Ha Hb. rewrite (Hvalue a Ha), (Hvalue b Hb). reflexivity.
        -- exact Hk.
        -- exact Hks.
        -- rewrite <- Hobj. apply Object_keys_In, Hitem, Hx.
      * apply (count_occ_not_In string_dec) in Hx. rewrite Hx. lia.
Qed.

(** X8.  [getMostFrequent] counts in an object literal, which inherits from
    [Object.prototype].  It throws on an empty array and on an array that
    holds nothing but [__proto__] (assigning to that name creates no key, and
    [reduce] has no initial value); on an array with any other item it
    returns one of the items.  When no item is a name [Object.prototype]
    defines, no item occurs more often than the one returned.  With such a
    name it need not be so: of [constructor], [constructor], [x] it returns
    [x]. *)
Theorem getMostFrequent_is_most_frequent :
  (forall array,
      Forall (fun x => x = "__proto__"%string) array ->
      getMostFrequent array
      = Throw (TypeError "Reduce of empty array with no initial value"))
  /\ (forall array,
        Exists (fun x => x <> "__proto__"%string) array ->
        exists r, getMostFrequent array = Normal r /\ In r array)
  /\ (forall array,
        array <> [] -> Forall (fun x => inherited x = false) array ->
        exists r,
          getMostFrequent array = Normal r
          /\ In r array
          /\ forall x,
              (count_occ string_dec array x <= count_occ string_dec array r)%nat)
  /\ getMostFrequent ["constructor"; "constructor"; "x"]%string = Normal "x"%string.
Proof.
  split; [exact getMostFrequent_only_proto|].
  split; [exact getMostFrequent_returns_item|].
  split; [exact getMostFrequent_plain_items|].
  vm_compute. reflexivity.
Qed.

Lemma getMostFrequent_is_most_frequent_witness :
  getMostFrequent ["__proto__"]%string
  = Throw (TypeError "Reduce of empty array with no initial value")
  /\ exists r,
      getMostFrequent ["easy"; "hard"; "easy"]%string = Normal r
      /\ (count_occ string_dec ["easy"; "hard"; "easy"]%string "easy"
          <= count_occ string_dec ["easy"; "hard"; "easy"]%string r)%nat.
Proof.
  destruct getMostFrequent_is_most_frequent as (Hproto & _ & Hplain & _).
  split; [apply Hproto; repeat constructor|].
  destruct (Hplain ["easy"; "hard"; "easy"]%string) as (r & Heq & _ & Hmax);
    [discriminate | repeat constructor |].
  exists r. split; [exact Heq | apply Hmax].
Defined.

(** ** Difficulty features *)

Lemma slice_from_nonempty {A} (k : Z) (l : list A) :
  (k < 0)%Z -> l <> [] -> slice_from k l <> [].
Proof.
  intros Hk Hl Hnil. apply (f_equal (@length A)) in Hnil.
  unfold slice_from, rel_index in Hnil. rewrite length_skipn in Hnil.
  destruct (Z.ltb_spec k 0); [|lia].
  assert (0 < length l)%nat by (destruct l; [congruence | cbn; lia]).
  cbn [length] in Hnil. lia.
Qed.

Lemma slice_from_incl {A} (k : Z) (l : list A) (x : A) :
  In x (slice_from k l) -> In x l.
Proof.
  unfold slice_from. intros H.
  rewrite <- (firstn_skipn (Z.to_nat (rel_index (Z.of_nat (length l)) k)) l).
  apply in_or_app. right. exact H.
Qed.

(** X9.  What extracting the difficulty features of user data with a
    [games] list comes to.  Without any game of the requested type the
    features are the defaults.  Otherwise the last ten games of that type
    at most are used: when one of them has a difficulty other than
    [__proto__] the extraction completes, the average is the mean of their
    scores and the preferred difficulty is the difficulty of one of them;
    when every one of them has the difficulty [__proto__] the [reduce] of
    [getMostFrequent] finds no key and the extraction throws. *)
Theorem extractDifficultyFeatures_cases (gs : list GameRecord) (gameType' : string) :
  let gameHistory := List.filter (fun g => String.eqb (gameType g) gameType') gs in
  let recentGames := slice_from (-10) gameHistory in
  (gameHistory = [] ->
   extractDifficultyFeatures {| games := Some gs |} gameType'
   = Normal getDefaultDifficultyFeatures)
  /\ (Exists (fun g => difficulty g <> "__proto__"%string) recentGames ->
      exists features,
        extractDifficultyFeatures {| games := Some gs |} gameType' = Normal features
        /\ dAverageScore features = mean (map score recentGames)
        /\ (length recentGames <= 10)%nat
        /\ exists g, In g recentGames /\ preferredDifficulty features = difficulty g)
  /\ (gameHistory <> [] ->
      Forall (fun g => difficulty g = "__proto__"%string) recentGames ->
      extractDifficultyFeatures {| games := Some gs |} gameType'
      = Throw (TypeError "Reduce of empty array with no initial value")).
Proof.
  intros gameHistory recentGames. unfold extractDifficultyFeatures.
  cbn [games_of games JS.bind]. fold gameHistory. fold recentGames.
  split; [intros ->; reflexivity|].
  assert (Hnonempty : gameHistory <> [] -> (length gameHistory =? 0)%nat = false).
  { intros Hne. destruct gameHistory; [congruence | reflexivity]. }
  split.
  - intros Hex.
    assert (Hne : gameHistory <> []).
    { intros Hnil. apply List.Exists_exists in Hex as (g & Hg & _).
      apply slice_from_incl in Hg. rewrite Hnil in Hg. destruct Hg. }
    rewrite (Hnonempty Hne).
    destruct (getMostFrequent_returns_item (map difficulty recentGames))
      as (r & Hr & Hin).
    { apply List.Exists_exists in Hex as (g & Hg & Hproto).
      apply List.Exists_exists. exists (difficulty g).
      split; [apply in_map; exact Hg | exact Hproto]. }
    rewrite Hr. cbn [JS.bind]. eexists. split; [reflexivity|].
    cbn [dAverageScore preferredDifficulty]. split; [reflexivity|]. split.
    + unfold recentGames, slice_from. rewrite length_skipn. unfold rel_index.
      destruct (Z.ltb_spec (-10) 0); lia.
    + apply in_map_iff in Hin as (g & Hg & Hin).
      exists g. split; [exact Hin | symmetry; exact Hg].
  - intros Hne Hall. rewrite (Hnonempty Hne).
    rewrite getMostFrequent_only_proto; [reflexivity|].
    apply List.Forall_map. exact Hall.
Qed.

Lemma extractDifficultyFeatures_cases_witness :
  exists features,
    extractDifficultyFeatures {| games := Some [laterGame; earlierGame] |}
      "memory_game"
    = Normal features
    /\ preferredDifficulty features = "medium"%string.
Proof.
  destruct (extractDifficultyFeatures_cases [laterGame; earlierGame] "memory_game")
    as (_ & Hsome & _).
  destruct Hsome as (features & Heq & _ & _ & g & Hg & Hpreferred).
  { constructor. discriminate. }
  exists features. split; [exact Heq|]. rewrite Hpreferred.
  destruct Hg as [<-|[<-|[]]]; reflexivity.
Defined.

(** ** Activity decline and return rate *)

Lemma max_of_nat_1 (n : nat) : JS.max (JS.of_nat n) (Fin 1) = Fin (Rmax (INR n) 1).
Proof.
  unfold JS.of_nat, JS.max, JS.lt, Rmax.
  destruct (Rltb_spec (INR n) 1), (Rle_dec (INR n) 1); try reflexivity; f_equal; lra.
Qed.

(** X10.  With a [games] list the activity decline is always a finite
    number, (older - recent) / max(older, 1) for the counts of the games of
    the last seven days and of the seven days before: it is at most 1,
    reaches 1 exactly when last week is empty and the week before is not,
    and goes down to minus the number of recent games when the week before
    is empty. *)
Theorem activity_decline_bounds (now : Z) (gs : list GameRecord) :
  let recent := length (List.filter (withinDays now 7) gs) in
  let older :=
    length (List.filter
              (fun g => withinDays now 14 g
                        && (timestamp g <=? now - 7 * (24 * 60 * 60 * 1000))%Z) gs) in
  exists d,
    calculateActivityDecline now {| games := Some gs |} = Normal (Fin d)
    /\ d = (INR older - INR recent) / Rmax (INR older) 1
    /\ d <= 1
    /\ (d = 1 <-> recent = 0%nat /\ (1 <= older)%nat)
    /\ (older = 0%nat -> d = - INR recent).
Proof.
  intros recent older. unfold calculateActivityDecline. cbn [games_of games JS.bind].
  change day_ms with (24 * 60 * 60 * 1000)%Z. unfold count.
  fold recent. fold older. rewrite max_of_nat_1.
  change ((JS.of_nat older - JS.of_nat recent)%js) with (Fin (INR older + - INR recent)).
  pose proof (pos_INR older) as Ho. pose proof (pos_INR recent) as Hr.
  assert (Hmax : 1 <= Rmax (INR older) 1) by apply Rmax_r.
  rewrite div_Fin by lra.
  eexists. split; [reflexivity|].
  split; [unfold Rdiv; f_equal; lra|].
  assert (Hle : (INR older + - INR recent) / Rmax (INR older) 1 <= 1).
  { apply Rmult_le_reg_r with (Rmax (INR older) 1); [lra|].
    unfold Rdiv. rewrite Rmult_assoc, Rinv_l by lra.
    pose proof (Rmax_l (INR older) 1). lra. }
  split; [exact Hle|]. split.
  - split.
    + intros Hone.
      assert (Heq : INR older + - INR recent = Rmax (INR older) 1).
      { apply Rmult_eq_reg_r with (/ Rmax (INR older) 1);
          [|apply Rinv_neq_0_compat; lra].
        rewrite Rinv_r by lra. exact Hone. }
      pose proof (Rmax_l (INR older) 1) as Hl.
      assert (INR recent = 0) by lra.
      assert (1 <= INR older) by lra.
      split; [apply INR_eq; cbn; assumption | apply INR_le; cbn; assumption].
    + intros [Hrec Hold]. rewrite Hrec. cbn [INR].
      apply le_INR in Hold. cbn [INR] in Hold.
      rewrite Rmax_left by lra. field. lra.
  - intros Hzero. rewrite Hzero. cbn [INR]. rewrite Rmax_right by lra. lra.
Qed.





(** ** Days since the last activity *)

Lemma floor_div_IZR (a b : Z) :
  (0 < b)%Z -> JS.floor (Fin (IZR a) / Fin (IZR b))%js = Fin (IZR (a / b)).
Proof.
  intros Hb. assert (HbR : 0 < IZR b) by (apply (IZR_lt 0); exact Hb).
  rewrite div_Fin by lra. cbn [JS.floor]. do 2 f_equal.
  apply Zfloor_eq.
  pose proof (Z.div_mod a b ltac:(lia)) as Hdm.
  pose proof (Z.mod_pos_bound a b Hb) as [Hlo Hhi].
  apply IZR_le in Hlo. apply IZR_lt in Hhi.
  assert (HaR : IZR a = IZR b * IZR (a / b) + IZR (a mod b))
    by (rewrite <- mult_IZR, <- plus_IZR; f_equal; exact Hdm).
  split.
  - apply Rmult_le_reg_r with (IZR b); [assumption|].
    unfold Rdiv. rewrite Rmult_assoc, Rinv_l by lra. lra.
  - apply Rmult_lt_reg_r with (IZR b); [assumption|].
    unfold Rdiv. rewrite Rmult_assoc, Rinv_l by lra. lra.
Qed.

Lemma sorted_last_is_latest (gs : list GameRecord) (lastGame : GameRecord)
    (rest : list GameRecord) :
  rev (sortByTimestamp gs) = lastGame :: rest ->
  In lastGame gs
  /\ forall g, In g gs -> (timestamp g <= timestamp lastGame)%Z.
Proof.
  intros Hrev.
  assert (Hsorted : sortByTimestamp gs = rev rest ++ [lastGame]).
  { rewrite <- (rev_involutive (sortByTimestamp gs)), Hrev. reflexivity. }
  pose proof (sort_by_perm timestamp gs) as Hperm.
  pose proof (sort_by_ascending timestamp gs) as Hasc.
  change (sort_by (precedesBy timestamp) gs) with (sortByTimestamp gs) in Hperm, Hasc.
  rewrite Hsorted in Hperm, Hasc.
  split.
  - apply (Permutation_in _ (Permutation_sym Hperm)), in_or_app.
    right. left. reflexivity.
  - intros g Hg. apply (Permutation_in _ Hperm) in Hg.
    apply in_app_or in Hg as [Hg|[<-|[]]]; [|lia].
    pose proof (ascending_app_inv timestamp (rev rest) lastGame [] Hasc) as Hall.
    rewrite List.Forall_forall in Hall. apply Hall, Hg.
Qed.

(** X12.  The churn features count the days of inactivity from the latest
    game, whatever the order of the list the store returned, because the
    list has been sorted in place by then: for a non-empty history the
    value is the whole number of days between the greatest timestamp and
    now; for an empty one it is 999.  Called on its own,
    [calculateDaysSinceLastActivity] uses the last element of the list. *)
Theorem days_since_latest_game (now : Z) (gs : list GameRecord) :
  (forall lastGame,
      lastOf gs = Some lastGame ->
      calculateDaysSinceLastActivity now {| games := Some gs |}
      = Normal (Fin (IZR ((now - timestamp lastGame) / (24 * 60 * 60 * 1000)))))
  /\ exists features userData,
      extractChurnFeatures now {| games := Some gs |} = Normal (features, userData)
      /\ (gs = [] -> daysSinceLastActivity features = Fin 999)
      /\ (gs <> [] ->
          exists latest,
            In latest gs
            /\ (forall g, In g gs -> (timestamp g <= timestamp latest)%Z)
            /\ daysSinceLastActivity features
               = Fin (IZR ((now - timestamp latest) / (24 * 60 * 60 * 1000)))).
Proof.
  split.
  - intros lastGame Hlast. unfold calculateDaysSinceLastActivity.
    cbn [games_of games JS.bind]. unfold lastOf in Hlast.
    destruct (rev gs) as [|g rest]; [discriminate|]. injection Hlast as ->.
    f_equal. apply floor_div_IZR. reflexivity.
  - unfold extractChurnFeatures, calculateActivityDecline,
      calculateEngagementMetrics, calculateDaysSinceLastActivity.
    cbn [games_of games JS.bind].
    destruct (calculateSessionDropoff_array gs) as [dropoff ->].
    cbn [games_of games JS.bind].
    destruct (rev (sortByTimestamp gs)) as [|lastGame rest] eqn:Hrev.
    + do 2 eexists. split; [reflexivity|]. cbn [daysSinceLastActivity].
      split; [reflexivity|]. intros Hne. exfalso. apply Hne.
      apply (f_equal (@rev GameRecord)) in Hrev. rewrite rev_involutive in Hrev.
      cbn in Hrev. pose proof (sort_by_perm timestamp gs) as Hperm.
      change (sort_by (precedesBy timestamp) gs) with (sortByTimestamp gs) in Hperm.
      rewrite Hrev in Hperm. apply Permutation_sym, Permutation_nil in Hperm.
      exact Hperm.
    + do 2 eexists. split; [reflexivity|]. cbn [daysSinceLastActivity].
      destruct (sorted_last_is_latest gs lastGame rest Hrev) as [Hin Hmax].
      split; [intros ->; destruct Hin|]. intros _.
      exists lastGame. split; [exact Hin|]. split; [exact Hmax|].
      apply floor_div_IZR. reflexivity.
Qed.

Lemma days_since_latest_game_witness :
  calculateDaysSinceLastActivity 1700000000000
    {| games := Some [laterGame; earlierGame] |}
  = Normal (Fin (IZR ((1700000000000 - timestamp earlierGame)
                      / (24 * 60 * 60 * 1000)))).
Proof.
  destruct (days_since_latest_game 1700000000000 [laterGame; earlierGame]) as (H & _).
  apply H. reflexivity.
Defined.

(** ** What the public methods leave of the engine *)

Lemma scoreBody_engine now userId gameType' difficulty' horizon' key w v w' :
  scoreBody now userId gameType' difficulty' horizon' key w = Normal (v, w') ->
  cache w' = <[key := v]> (cache w) /\ lastUpdate w' = lastUpdate w.
Proof.
  unfold scoreBody.
  destruct (getUserData userId w); cbn [JS.bind]; [|discriminate].
  destruct (extractScoreFeatures _ _ _ _); cbn [JS.bind]; [|discriminate].
  intros [= <- <-]. split; reflexivity.
Qed.

Lemma churnBody_engine now userId horizon' key w v w' :
  churnBody now userId horizon' key w = Normal (v, w') ->
  cache w' = <[key := v]> (cache w) /\ lastUpdate w' = lastUpdate w.
Proof.
  unfold churnBody.
  destruct (getUserData userId w); cbn [JS.bind]; [|discriminate].
  destruct (extractChurnFeatures _ _) as [[features userData]|];
    cbn [JS.bind]; [|discriminate].
  intros [= <- <-]. split; reflexivity.
Qed.

Lemma difficultyBody_engine userId gameType' w v w' :
  difficultyBody userId gameType' w = Normal (v, w') ->
  cache w' = cache w /\ lastUpdate w' = lastUpdate w.
Proof.
  unfold difficultyBody.
  destruct (getUserData userId w); cbn [JS.bind]; [|discriminate].
  destruct (extractDifficultyFeatures _ _); cbn [JS.bind]; [|discriminate].
  intros [= <- <-]. split; reflexivity.
Qed.

Lemma gamesBody_engine now userId count' w v w' :
  gamesBody now userId count' w = Normal (v, w') ->
  cache w' = cache w /\ lastUpdate w' = lastUpdate w.
Proof.
  unfold gamesBody.
  destruct (getUserData userId w); cbn [JS.bind]; [|discriminate].
  destruct (extractGameRecommendationFeatures _ _); cbn [JS.bind]; [|discriminate].
  intros [= <- <-]. split; reflexivity.
Qed.

Lemma afterFailure_cache (userId : string) (w : World) :
  cache (afterFailure userId w) = cache w
  /\ lastUpdate (afterFailure userId w) = lastUpdate w.
Proof. destruct (afterFailure_engine userId w) as (H1 & H2 & _). auto. Qed.

Lemma predictScore_engine now userId gameType' difficulty' horizon' w v w' :
  predictScore now userId gameType' difficulty' horizon' w = Normal (v, w') ->
  lastUpdate w' = lastUpdate w
  /\ (cache w' = cache w
      \/ cache w'
         = <[scoreKey userId gameType' difficulty' (default 7%Z horizon') := v]>
             (cache w)).
Proof.
  unfold predictScore. intros H.
  destruct (cacheHit _ _ w); [injection H as <- <-; auto|].
  destruct (scoreBody _ _ _ _ _ _ w) as [[v0 w0]|e] eqn:Hbody;
    cbn [JS.try_catch] in H; injection H as <- <-.
  - destruct (scoreBody_engine _ _ _ _ _ _ _ _ _ Hbody). auto.
  - destruct (afterFailure_cache userId w). auto.
Qed.

Lemma predictChurnRisk_engine now userId horizon' w v w' :
  predictChurnRisk now userId horizon' w = Normal (v, w') ->
  lastUpdate w' = lastUpdate w
  /\ (cache w' = cache w
      \/ cache w' = <[churnKey userId (default 30%Z horizon') := v]> (cache w)).
Proof.
  unfold predictChurnRisk. intros H.
  destruct (cacheHit _ _ w); [injection H as <- <-; auto|].
  destruct (churnBody _ _ _ _ w) as [[v0 w0]|e] eqn:Hbody;
    cbn [JS.try_catch] in H; injection H as <- <-.
  - destruct (churnBody_engine _ _ _ _ _ _ _ Hbody). auto.
  - destruct (afterFailure_cache userId w). auto.
Qed.

Lemma predictEngagement_engine now tzOffset userId horizon' w v w' :
  predictEngagement now tzOffset userId horizon' w = Normal (v, w') ->
  lastUpdate w' = lastUpdate w /\ cache w' = cache w.
Proof.
  unfold predictEngagement. intros H.
  destruct (cacheHit _ _ w); [injection H as <- <-; auto|].
  destruct (engagementBody_throws now tzOffset userId (default 7%Z horizon')
              (engagementKey userId (default 7%Z horizon')) w) as [e He].
  rewrite He in H. cbn [JS.try_catch] in H. injection H as <- <-.
  destruct (afterFailure_cache userId w). auto.
Qed.

Lemma recommendDifficulty_engine userId gameType' w v w' :
  recommendDifficulty userId gameType' w = Normal (v, w') ->
  lastUpdate w' = lastUpdate w /\ cache w' = cache w.
Proof.
  unfold recommendDifficulty. intros H.
  destruct (difficultyBody _ _ w) as [[v0 w0]|e] eqn:Hbody;
    cbn [JS.try_catch] in H; injection H as <- <-.
  - destruct (difficultyBody_engine _ _ _ _ _ Hbody). auto.
  - destruct (afterFailure_cache userId w). auto.
Qed.

Lemma recommendGames_engine now userId count' w v w' :
  recommendGames now userId count' w = Normal (v, w') ->
  lastUpdate w' = lastUpdate w /\ cache w' = cache w.
Proof.
  unfold recommendGames. intros H.
  destruct (gamesBody _ _ _ w) as [[v0 w0]|e] eqn:Hbody;
    cbn [JS.try_catch] in H; injection H as <- <-.
  - destruct (gamesBody_engine _ _ _ _ _ _ Hbody). auto.
  - destruct (afterFailure_cache userId w). auto.
Qed.

(** X13.  What a call leaves of the engine.  No public method changes
    [lastUpdate].  [predictScore] and [predictChurnRisk] leave the cache as
    it was or add the returned value under their own key, every other entry
    staying as it was; [predictEngagement], [recommendDifficulty] and
    [recommendGames] never write to the cache. *)
Theorem public_methods_engine_frame
    (now tzOffset : Z) (userId gameType' difficulty' : string)
    (horizon' count' : option Z) (w : World) :
  (forall v w',
      predictScore now userId gameType' difficulty' horizon' w = Normal (v, w') ->
      lastUpdate w' = lastUpdate w
      /\ (cache w' = cache w
          \/ cache w'
             = <[scoreKey userId gameType' difficulty' (default 7%Z horizon') := v]>
                 (cache w)))
  /\ (forall v w',
        predictChurnRisk now userId horizon' w = Normal (v, w') ->
        lastUpdate w' = lastUpdate w
        /\ (cache w' = cache w
            \/ cache w' = <[churnKey userId (default 30%Z horizon') := v]> (cache w)))
  /\ (forall v w',
        predictEngagement now tzOffset userId horizon' w = Normal (v, w') ->
        lastUpdate w' = lastUpdate w /\ cache w' = cache w)
  /\ (forall v w',
        recommendDifficulty userId gameType' w = Normal (v, w') ->
        lastUpdate w' = lastUpdate w /\ cache w' = cache w)
  /\ (forall v w',
        recommendGames now userId count' w = Normal (v, w') ->
        lastUpdate w' = lastUpdate w /\ cache w' = cache w).
Proof.
  split; [intros v w'; apply predictScore_engine|].
  split; [intros v w'; apply predictChurnRisk_engine|].
  split; [intros v w'; apply predictEngagement_engine|].
  split; [intros v w'; apply recommendDifficulty_engine
         | intros v w'; apply recommendGames_engine].
Qed.

Lemma public_methods_engine_frame_witness :
  lastUpdate (cacheSet (scoreKey "u2" "memory_game" "medium" 7)
                (VScore (calculateScorePrediction getDefaultFeatures 7))
                (countExtract (countFetch servingEngine)))
  = lastUpdate servingEngine.
Proof.
  destruct (public_methods_engine_frame 1700000000000 0 "u2" "memory_game" "medium"
              None None servingEngine) as (Hscore & _).
  destruct (Hscore (VScore (calculateScorePrediction getDefaultFeatures 7))
              (cacheSet (scoreKey "u2" "memory_game" "medium" 7)
                 (VScore (calculateScorePrediction getDefaultFeatures 7))
                 (countExtract (countFetch servingEngine))))
    as (Hlast & _); [reflexivity | exact Hlast].
Defined.

(** X14.  An engine as the constructor makes it ([lastUpdate] 0), asked at
    any time one day or more after the epoch, never answers from its cache:
    every [predictScore] call fetches the user data again, also when the
    same request has just been computed and stored, and the engine is still
    in that state afterwards. *)
Theorem constructed_engine_fetches_every_time
    (now : Z) (userId gameType' difficulty' : string) (horizon' : option Z)
    (w : World) (v : Value) (w' : World) :
  lastUpdate w = 0%Z -> (updateInterval <= now)%Z ->
  predictScore now userId gameType' difficulty' horizon' w = Normal (v, w') ->
  fetchCalls w' = S (fetchCalls w) /\ lastUpdate w' = 0%Z.
Proof.
  intros Hzero Hnow Hcall.
  destruct (predictScore_engine _ _ _ _ _ _ _ _ Hcall) as [Hlast _].
  split; [|rewrite Hlast; exact Hzero].
  unfold predictScore in Hcall.
  rewrite (constructed_engine_always_recomputes now _ w Hzero Hnow) in Hcall.
  destruct (scoreBody _ _ _ _ _ _ w) as [[v0 w0]|e] eqn:Hbody;
    cbn [JS.try_catch] in Hcall; injection Hcall as <- <-.
  - apply scoreBody_stored in Hbody. destruct Hbody as (_ & _ & Hf & _). exact Hf.
  - destruct (afterFailure_engine userId w) as (_ & _ & Hf). exact Hf.
Qed.

Lemma constructed_engine_fetches_every_time_witness :
  fetchCalls (afterFailure "nobody" (newEngine ∅)) = 1%nat
  /\ lastUpdate (afterFailure "nobody" (newEngine ∅)) = 0%Z.
Proof.
  apply (constructed_engine_fetches_every_time 1700000000000 "nobody" "memory_game"
           "medium" None (newEngine ∅) (VScore getDefaultPrediction)).
  - reflexivity.
  - discriminate.
  - reflexivity.
Defined.

(** ** The kinds of the cached values *)

Lemma scoreKey_kind userId gameType' difficulty' horizon' v :
  kindMatches (scoreKey userId gameType' difficulty' horizon') v ->
  exists p, v = VScore p.
Proof.
  destruct v; cbn [kindMatches]; [eauto | |]; intros [rest H];
    unfold scoreKey in H; discriminate H.
Qed.

Lemma engagementKey_kind userId horizon' v :
  kindMatches (engagementKey userId horizon') v -> exists p, v = VEngagement p.
Proof.
  destruct v; cbn [kindMatches]; [| eauto |]; intros [rest H];
    unfold engagementKey in H; discriminate H.
Qed.

Lemma churnKey_kind userId horizon' v :
  kindMatches (churnKey userId horizon') v -> exists p, v = VChurn p.
Proof.
  destruct v; cbn [kindMatches]; [| | eauto]; intros [rest H];
    unfold churnKey in H; discriminate H.
Qed.

Lemma scoreKey_own_kind userId gameType' difficulty' horizon' p :
  kindMatches (scoreKey userId gameType' difficulty' horizon') (VScore p).
Proof. unfold kindMatches, scoreKey. eexists. reflexivity. Qed.

Lemma churnKey_own_kind userId horizon' p :
  kindMatches (churnKey userId horizon') (VChurn p).
Proof. unfold kindMatches, churnKey. eexists. reflexivity. Qed.

Lemma cacheHit_lookup now key w v :
  cacheHit now key w = Some v -> cache w !! key = Some v.
Proof.
  unfold cacheHit. destruct (now - lastUpdate w <? updateInterval)%Z;
    [auto | discriminate].
Qed.

Lemma predictScore_kind now userId gameType' difficulty' horizon' w v w' :
  cacheWellKinded w ->
  predictScore now userId gameType' difficulty' horizon' w = Normal (v, w') ->
  exists p, v = VScore p.
Proof.
  intros Hkind. unfold predictScore.
  destruct (cacheHit _ _ w) as [cached|] eqn:Hhit.
  - intros [= <- <-]. apply cacheHit_lookup, Hkind in Hhit.
    exact (scoreKey_kind _ _ _ _ _ Hhit).
  - unfold scoreBody.
    destruct (getUserData userId w); cbn [JS.bind JS.try_catch];
      [|intros [= <- <-]; eauto].
    destruct (extractScoreFeatures _ _ _ _); cbn [JS.bind JS.try_catch];
      intros [= <- <-]; eauto.
Qed.

Lemma predictChurnRisk_kind now userId horizon' w v w' :
  cacheWellKinded w ->
  predictChurnRisk now userId horizon' w = Normal (v, w') ->
  exists p, v = VChurn p.
Proof.
  intros Hkind. unfold predictChurnRisk.
  destruct (cacheHit _ _ w) as [cached|] eqn:Hhit.
  - intros [= <- <-]. apply cacheHit_lookup, Hkind in Hhit.
    exact (churnKey_kind _ _ _ Hhit).
  - unfold churnBody.
    destruct (getUserData userId w); cbn [JS.bind JS.try_catch];
      [|intros [= <- <-]; eauto].
    destruct (extractChurnFeatures _ _) as [[features userData]|];
      cbn [JS.bind JS.try_catch]; intros [= <- <-]; eauto.
Qed.

Lemma predictEngagement_kind now tzOffset userId horizon' w v w' :
  cacheWellKinded w ->
  predictEngagement now tzOffset userId horizon' w = Normal (v, w') ->
  exists p, v = VEngagement p.
Proof.
  intros Hkind. unfold predictEngagement.
  destruct (cacheHit _ _ w) as [cached|] eqn:Hhit.
  - intros [= <- <-]. apply cacheHit_lookup, Hkind in Hhit.
    exact (engagementKey_kind _ _ _ Hhit).
  - destruct (engagementBody_throws now tzOffset userId (default 7%Z horizon')
                (engagementKey userId (default 7%Z horizon')) w) as [e ->].
    cbn [JS.try_catch]. intros [= <- <-]. eauto.
Qed.

Lemma cacheWellKinded_insert (w w' : World) (key : string) (v : Value) :
  cacheWellKinded w -> kindMatches key v ->
  cache w' = cache w \/ cache w' = <[key := v]> (cache w) ->
  cacheWellKinded w'.
Proof.
  intros Hkind Hv [Hsame|Hins] k v0; [rewrite Hsame; apply Hkind|].
  rewrite Hins. destruct (decide (key = k)) as [<-|Hne].
  - rewrite lookup_insert_eq. intros [= <-]. exact Hv.
  - rewrite lookup_insert_ne by assumption. apply Hkind.
Qed.

(** X15.  The cache never mixes the kinds of prediction.  A new engine
    holds only entries filed under a key of their own kind (it holds none),
    every public method keeps it so, and in such an engine [predictScore]
    always returns a score prediction, [predictEngagement] an engagement
    prediction and [predictChurnRisk] a churn prediction, also when the
    answer comes from the cache. *)
Theorem cache_keeps_kinds_apart :
  (forall store', cacheWellKinded (newEngine store'))
  /\ (forall now tzOffset userId gameType' difficulty' horizon' count' w,
        cacheWellKinded w ->
        (forall v w',
            predictScore now userId gameType' difficulty' horizon' w = Normal (v, w') ->
            (exists p, v = VScore p) /\ cacheWellKinded w')
        /\ (forall v w',
              predictEngagement now tzOffset userId horizon' w = Normal (v, w') ->
              (exists p, v = VEngagement p) /\ cacheWellKinded w')
        /\ (forall v w',
              predictChurnRisk now userId horizon' w = Normal (v, w') ->
              (exists p, v = VChurn p) /\ cacheWellKinded w')
        /\ (forall v w',
              recommendDifficulty userId gameType' w = Normal (v, w') ->
              cacheWellKinded w')
        /\ (forall v w',
              recommendGames now userId count' w = Normal (v, w') ->
              cacheWellKinded w')).
Proof.
  split.
  { intros store' key v. cbn. rewrite lookup_empty. discriminate. }
  intros now tzOffset userId gameType' difficulty' horizon' count' w Hkind.
  split; [|split; [|split; [|split]]]; intros v w' Hcall.
  - destruct (predictScore_kind _ _ _ _ _ _ _ _ Hkind Hcall) as [p ->].
    split; [eauto|].
    destruct (predictScore_engine _ _ _ _ _ _ _ _ Hcall) as [_ Hcache].
    apply (cacheWellKinded_insert w w' _ _ Hkind (scoreKey_own_kind _ _ _ _ p) Hcache).
  - destruct (predictEngagement_kind _ _ _ _ _ _ _ Hkind Hcall) as [p ->].
    split; [eauto|].
    destruct (predictEngagement_engine _ _ _ _ _ _ _ Hcall) as [_ Hcache].
    intros key v0. rewrite Hcache. apply Hkind.
  - destruct (predictChurnRisk_kind _ _ _ _ _ _ Hkind Hcall) as [p ->].
    split; [eauto|].
    destruct (predictChurnRisk_engine _ _ _ _ _ _ Hcall) as [_ Hcache].
    apply (cacheWellKinded_insert w w' _ _ Hkind (churnKey_own_kind _ _ p) Hcache).
  - destruct (recommendDifficulty_engine _ _ _ _ _ Hcall) as [_ Hcache].
    intros key v0. rewrite Hcache. apply Hkind.
  - destruct (recommendGames_engine _ _ _ _ _ _ Hcall) as [_ Hcache].
    intros key v0. rewrite Hcache. apply Hkind.
Qed.

Lemma cache_keeps_kinds_apart_witness :
  let w0 := newEngine {[ "u2"%string := {| games := Some [] |} ]} in
  exists v1 w1,
    predictScore 1000 "u2" "memory_game" "medium" None w0 = Normal (v1, w1)
    /\ cache w1 !! scoreKey "u2" "memory_game" "medium" 7 = Some v1
    /\ cacheWellKinded w1
    /\ exists p,
        v1 = VScore p
        /\ predictScore 1000 "u2" "memory_game" "medium" None w1
           = Normal (VScore p, w1).
Proof.
  intros w0.
  destruct cache_keeps_kinds_apart as (Hnew & Hstep).
  set (v1 := VScore (calculateScorePrediction getDefaultFeatures 7)).
  set (w1 := cacheSet (scoreKey "u2" "memory_game" "medium" 7) v1
               (countExtract (countFetch w0))).
  assert (Hfirst : predictScore 1000 "u2" "memory_game" "medium" None w0
                   = Normal (v1, w1)) by reflexivity.
  destruct (Hstep 1000%Z 0%Z "u2"%string "memory_game"%string "medium"%string
              None None w0 (Hnew _)) as (Hscore & _).
  destruct (Hscore v1 w1 Hfirst) as ((p & Hp) & Hkind).
  exists v1, w1. split; [exact Hfirst|].
  split; [apply lookup_insert_eq|]. split; [exact Hkind|].
  exists p. split; [exact Hp|]. rewrite <- Hp. reflexivity.
Defined.

(** ** Cache keys that coincide *)

Lemma string_append_assoc (a b c : string) :
  ((a +:+ b) +:+ c = a +:+ (b +:+ c))%string.
Proof.
  induction a as [|x a IH]; [reflexivity|].
  change (String x ((a +:+ b) +:+ c) = String x (a +:+ (b +:+ c))).
  rewrite IH. reflexivity.
Qed.

(** X16.  The cache key joins its parts with underscores without escaping
    them, so different requests can share a key: the key of user [u ++ "_"
    ++ x] for game [g] is the key of user [u] for game [x ++ "_" ++ g].
    While the cache is fresh, a score request for the first is answered
    with what is cached for the second. *)
Theorem score_keys_collide
    (u x g difficulty' : string) (horizon' : Z) :
  scoreKey (u +:+ "_" +:+ x) g difficulty' horizon'
  = scoreKey u (x +:+ "_" +:+ g) difficulty' horizon'
  /\ (forall now w v,
        cache w !! scoreKey u (x +:+ "_" +:+ g) difficulty' horizon' = Some v ->
        (now - lastUpdate w < updateInterval)%Z ->
        predictScore now (u +:+ "_" +:+ x) g difficulty' (Some horizon') w
        = Normal (v, w)).
Proof.
  assert (Hkey : scoreKey (u +:+ "_" +:+ x) g difficulty' horizon'
                 = scoreKey u (x +:+ "_" +:+ g) difficulty' horizon').
  { unfold scoreKey. rewrite !string_append_assoc. reflexivity. }
  split; [exact Hkey|].
  intros now w v Hcached Hfresh. unfold predictScore.
  change (default 7%Z (Some horizon')) with horizon'. cbv zeta.
  rewrite Hkey, cacheHit_young, Hcached by assumption. reflexivity.
Qed.

Lemma score_keys_collide_witness :
  predictScore 1700000000000 "7_memory" "game" "easy" (Some 7%Z)
    (cacheSet (scoreKey "7" "memory_game" "easy" 7) (VScore getDefaultPrediction)
       stampedEngine)
  = Normal (VScore getDefaultPrediction,
            cacheSet (scoreKey "7" "memory_game" "easy" 7)
              (VScore getDefaultPrediction) stampedEngine).
Proof.
  destruct (score_keys_collide "7" "memory" "game" "easy" 7) as (_ & H).
  apply H; reflexivity.
Defined.

(** ** The range of a score prediction *)

Lemma max_zero_Fin (z : Z) : JS.max (Fin 0) (Fin (IZR z)) = Fin (IZR (Z.max 0 z)).
Proof.
  unfold JS.max, JS.lt. destruct (Rltb_spec 0 (IZR z)) as [H|H].
  - apply lt_IZR in H. rewrite Z.max_r by lia. reflexivity.
  - assert (z <= 0)%Z by (apply le_IZR; lra). rewrite Z.max_l by lia. reflexivity.
Qed.

Lemma nearest_mono (a b : R) : a <= b -> (nearest a <= nearest b)%Z.
Proof. intros H. unfold nearest. apply Zfloor_le. lra. Qed.

Lemma nearest_nonneg (a : R) : 0 <= a -> (0 <= nearest a)%Z.
Proof.
  intros H. unfold nearest. apply Zfloor_lub. lra.
Qed.

Lemma rawMargin_nonneg (v : R) (h : Z) : 0 <= v -> 0 <= rawMargin v h.
Proof.
  intros Hv. unfold rawMargin. pose proof (sqrt_pos (IZR h)).
  apply Rmult_le_pos; [lra|lra].
Qed.

Lemma calculateScorePrediction_finite (a t v i c : R) (e : number)
    (rest : ScoreFeatures) (h : Z) :
  (0 <= h)%Z ->
  let p := calculateScorePrediction
             (scoreFeatures (Fin a) (Fin t) (Fin v) (Fin i) (Fin c) e rest) h in
  prediction p = Fin (IZR (Z.max 0 (nearest (rawForecast a t i c h))))
  /\ rmin (range p)
     = Fin (IZR (Z.max 0 (nearest (rawForecast a t i c h - rawMargin v h))))
  /\ rmax (range p) = Fin (IZR (nearest (rawForecast a t i c h + rawMargin v h))).
Proof.
  intros Hh. unfold calculateScorePrediction, calculatePredictionMargin, scoreFeatures.
  cbn [averageScore scoreTrend scoreVariance recentImprovement consistency
       prediction range rmin rmax].
  unfold JS.of_Z, JS.sqrt. rewrite (Rltb_false (IZR h) 0) by (apply IZR_le; exact Hh).
  unfold JS.sub. cbn [JS.mul JS.add JS.neg JS.round].
  fold (rawForecast a t i c h). fold (rawMargin v h).
  fold (nearest (rawForecast a t i c h)).
  fold (nearest (rawForecast a t i c h + - rawMargin v h)).
  fold (nearest (rawForecast a t i c h + rawMargin v h)).
  rewrite !max_zero_Fin. repeat split.
Qed.

(** X17.  For finite score features with a non-negative variance and a
    horizon of at least 0 days, the predicted score and both ends of its
    range are integers, the lower end lies between 0 and the predicted
    score, and the predicted score lies below the upper end exactly when
    the upper end is not negative; that is so whenever the forecast before
    flooring (average + trend * horizon + improvement * min(horizon, 7) +
    consistency * 10) is not negative. *)
Theorem score_range_brackets_prediction (a t v i c : R) (e : number)
    (rest : ScoreFeatures) (h : Z) :
  0 <= v -> (0 <= h)%Z ->
  let p := calculateScorePrediction
             (scoreFeatures (Fin a) (Fin t) (Fin v) (Fin i) (Fin c) e rest) h in
  exists lo mid hi : Z,
    rmin (range p) = Fin (IZR lo) /\ prediction p = Fin (IZR mid)
    /\ rmax (range p) = Fin (IZR hi)
    /\ (0 <= lo <= mid)%Z
    /\ ((mid <= hi)%Z <-> (0 <= hi)%Z)
    /\ (0 <= rawForecast a t i c h -> (mid <= hi)%Z).
Proof.
  intros Hv Hh p.
  destruct (calculateScorePrediction_finite a t v i c e rest h Hh)
    as (Hmid & Hlo & Hhi).
  fold p in Hmid, Hlo, Hhi.
  pose proof (rawMargin_nonneg v h Hv) as Hm.
  pose proof (nearest_mono (rawForecast a t i c h - rawMargin v h)
                (rawForecast a t i c h) ltac:(lra)) as Hlow.
  pose proof (nearest_mono (rawForecast a t i c h)
                (rawForecast a t i c h + rawMargin v h) ltac:(lra)) as Hup.
  eexists _, _, _. split; [exact Hlo|]. split; [exact Hmid|]. split; [exact Hhi|].
  split; [lia|]. split; [lia|].
  intros Hraw. pose proof (nearest_nonneg _ Hraw). lia.
Qed.

Lemma score_range_brackets_prediction_witness :
  let p := calculateScorePrediction
             (scoreFeatures (Fin 50) (Fin 1) (Fin 4) (Fin 2) (Fin 0.9) (Fin 12)
                swingingFeatures) 7 in
  exists lo mid hi : Z,
    rmin (range p) = Fin (IZR lo) /\ prediction p = Fin (IZR mid)
    /\ rmax (range p) = Fin (IZR hi)
    /\ (0 <= lo <= mid)%Z /\ (mid <= hi)%Z.
Proof.
  intros p.
  destruct (score_range_brackets_prediction 50 1 4 2 0.9 (Fin 12) swingingFeatures 7)
    as (lo & mid & hi & H1 & H2 & H3 & H4 & H5 & H6); [lra | lia |].
  exists lo, mid, hi. repeat split; try assumption; try lia.
  apply H6. unfold rawForecast. change (Z.min 7 7) with 7%Z. lra.
Defined.

(** ** Game recommendations *)

Lemma slice_prefix {A} (count' : Z) (l : list A) :
  (0 <= count')%Z ->
  slice 0 count' l = firstn (Z.to_nat (Z.min count' (Z.of_nat (length l)))) l.
Proof.
  intros Hc. unfold slice, rel_index. cbn [Z.ltb Z.compare].
  destruct (Z.ltb_spec count' 0); [lia|].
  rewrite (Z.min_l 0) by lia. cbn [Z.to_nat skipn]. rewrite Z.sub_0_r. reflexivity.
Qed.

Lemma length_mapi {A B} (f : A -> nat -> B) (l : list A) :
  length (mapi f l) = length l.
Proof.
  unfold mapi. rewrite length_map, length_combine, length_seq. lia.
Qed.

Lemma combine_seq_fst {A} (l : list A) (s : nat) :
  map fst (combine (seq s (length l)) l) = seq s (length l).
Proof.
  revert s. induction l as [|x l IH]; intros s; cbn [length seq combine map fst];
    [reflexivity|]. rewrite IH. reflexivity.
Qed.

Lemma combine_seq_snd {A} (l : list A) (s : nat) :
  map snd (combine (seq s (length l)) l) = l.
Proof.
  revert s. induction l as [|x l IH]; intros s; cbn [length seq combine map snd];
    [reflexivity|]. rewrite IH. reflexivity.
Qed.

Lemma mapi_index {A B C} (f : A -> nat -> B) (g : B -> C) (h : nat -> C) (l : list A) :
  (forall x k, g (f x k) = h k) ->
  map g (mapi f l) = map h (seq 0 (length l)).
Proof.
  intros Hg. unfold mapi. rewrite map_map.
  transitivity (map h (map fst (combine (seq 0 (length l)) l)));
    [|rewrite combine_seq_fst; reflexivity].
  rewrite map_map. apply map_ext. intros [k x]. apply Hg.
Qed.

Lemma mapi_item {A B C} (f : A -> nat -> B) (g : B -> C) (h : A -> C) (l : list A) :
  (forall x k, g (f x k) = h x) ->
  map g (mapi f l) = map h l.
Proof.
  intros Hg. unfold mapi. rewrite map_map.
  transitivity (map h (map snd (combine (seq 0 (length l)) l)));
    [|rewrite combine_seq_snd; reflexivity].
  rewrite map_map. apply map_ext. intros [k x]. apply Hg.
Qed.

Lemma higherScoreFirst_Fin (a b : string * number) (x y : R) :
  snd a = Fin x -> snd b = Fin y -> higherScoreFirst a b = Rltb y x.
Proof.
  intros Ha Hb. unfold higherScoreFirst, JS.sub. rewrite Ha, Hb.
  cbn [JS.neg JS.add JS.lt].
  destruct (Rltb_spec y x); [apply Rltb_true | apply Rltb_false]; lra.
Qed.

Lemma notAbove_Fin (x y : R) : notAbove (Fin x) (Fin y) <-> y <= x.
Proof.
  unfold notAbove. cbn [JS.le]. destruct (Rltb_spec x y); cbn [negb]; split;
    intros; try lra; try congruence; reflexivity.
Qed.

Lemma insert_sorted_descending (x : string * number) (l : list (string * number)) :
  finiteScore x -> Forall finiteScore l ->
  descendingScores l -> descendingScores (insert_sorted higherScoreFirst x l).
Proof.
  intros [sx Hx] Hfin. unfold descendingScores.
  induction 1 as [|y l Hl IH Hy]; cbn [JS.insert_sorted].
  - repeat constructor.
  - apply Forall_cons_iff in Hfin as [[sy Hsy] Hfin].
    rewrite (higherScoreFirst_Fin x y sx sy Hx Hsy).
    destruct (Rltb_spec sy sx) as [Hlt|Hge].
    + constructor; [constructor; assumption|].
      constructor; [rewrite Hx, Hsy; apply notAbove_Fin; lra|].
      apply List.Forall_forall. intros z Hz.
      pose proof (proj1 (List.Forall_forall _ _) Hy z Hz) as Hyz.
      pose proof (proj1 (List.Forall_forall _ _) Hfin z Hz) as [sz Hsz].
      rewrite Hsy, Hsz in Hyz. apply notAbove_Fin in Hyz.
      rewrite Hx, Hsz. apply notAbove_Fin. lra.
    + constructor; [exact (IH Hfin)|].
      eapply Permutation_Forall; [apply insert_sorted_perm_any|].
      constructor; [rewrite Hx, Hsy; apply notAbove_Fin; lra | assumption].
Qed.

Lemma sort_from_descending (l acc : list (string * number)) :
  Forall finiteScore l -> Forall finiteScore acc -> descendingScores acc ->
  descendingScores
    (fold_left (fun acc x => insert_sorted higherScoreFirst x acc) l acc).
Proof.
  revert acc. induction l as [|x l IH]; intros acc Hl Hacc Hdesc; cbn [fold_left];
    [assumption|].
  apply Forall_cons_iff in Hl as [Hx Hl].
  apply IH; [exact Hl | | apply insert_sorted_descending; assumption].
  eapply Permutation_Forall; [apply insert_sorted_perm_any|].
  constructor; assumption.
Qed.

Lemma insert_sorted_after (x : string * number) (l : list (string * number)) :
  finiteScore x -> Forall finiteScore l ->
  Forall (fun y => notAbove (snd y) (snd x)) l ->
  insert_sorted higherScoreFirst x l = l ++ [x].
Proof.
  intros [sx Hx] Hfin.
  induction 1 as [|y l Hy Hl IH]; cbn [JS.insert_sorted app]; [reflexivity|].
  apply Forall_cons_iff in Hfin as [[sy Hsy] Hfin].
  rewrite (higherScoreFirst_Fin x y sx sy Hx Hsy).
  rewrite Hx, Hsy in Hy. apply notAbove_Fin in Hy.
  rewrite Rltb_false by lra. rewrite (IH Hfin). reflexivity.
Qed.

Lemma descending_app_inv (l1 : list (string * number)) x l2 :
  descendingScores (l1 ++ x :: l2) ->
  Forall (fun y => notAbove (snd y) (snd x)) l1.
Proof.
  unfold descendingScores. induction l1 as [|y l1 IH]; cbn [app]; intros H;
    [constructor|].
  apply StronglySorted_inv in H as [Hs Hy]. constructor; [|exact (IH Hs)].
  apply Forall_app in Hy as [_ Hy]. apply Forall_inv in Hy. exact Hy.
Qed.

Lemma sort_from_kept (l acc : list (string * number)) :
  Forall finiteScore (acc ++ l) -> descendingScores (acc ++ l) ->
  fold_left (fun acc x => insert_sorted higherScoreFirst x acc) l acc = acc ++ l.
Proof.
  revert acc. induction l as [|x l IH]; intros acc Hfin H; cbn [fold_left].
  - rewrite app_nil_r. reflexivity.
  - pose proof Hfin as Hfin'. apply Forall_app in Hfin' as [Hacc Hxl].
    apply Forall_cons_iff in Hxl as [Hx _].
    rewrite insert_sorted_after;
      [| exact Hx | exact Hacc | eapply descending_app_inv; exact H].
    rewrite IH; rewrite <- app_assoc; [reflexivity | exact Hfin | exact H].
Qed.

Lemma lookup_or_zero_finite (obj : gmap string number) (key : string) :
  noInfinity obj -> exists r, lookup_or_zero obj key = Fin r.
Proof.
  intros Hobj. unfold lookup_or_zero.
  destruct (obj !! key) as [v|] eqn:Hv; [|eauto].
  destruct (Hobj key v Hv) as [Hp Hn].
  destruct v; cbn [or_zero]; eauto; congruence.
Qed.

Lemma recommendationScore_finite features gameType' :
  boundedFeatures features -> exists r, recommendationScore features gameType' = Fin r.
Proof.
  intros (Hp & He & Hg). unfold recommendationScore.
  destruct (lookup_or_zero_finite _ gameType' Hp) as [p ->].
  destruct (lookup_or_zero_finite _ gameType' He) as [e ->].
  destruct (lookup_or_zero_finite _ gameType' Hg) as [g ->].
  cbn [JS.mul JS.add]. eauto.
Qed.

Lemma calculateGameRecommendations_sorted features count' :
  (0 <= count')%Z ->
  let scored := map (fun g => (g, recommendationScore features g)) gameTypes in
  let sorted := sort_by higherScoreFirst scored in
  let n := Z.to_nat (Z.min count' 5) in
  let recs := calculateGameRecommendations features count' in
  map rank recs = ranksUpTo n
  /\ map (fun r => (rGameType r, rScore r)) recs = firstn n sorted.
Proof.
  intros Hc scored sorted n recs.
  assert (Hlen : length sorted = 5%nat).
  { transitivity (length scored); [|reflexivity].
    symmetry. apply Permutation_length, sort_by_perm_any. }
  assert (Hrecs : recs
    = mapi (fun (game : string * number) index =>
              {| rank := Z.of_nat index + 1;
                 rGameType := fst game;
                 gameName := getGameName (fst game);
                 rScore := snd game;
                 rConfidence := calculateGameRecommendationConfidence (snd game) |})
           (firstn n sorted)).
  { assert (Hslice : slice 0 count' sorted = firstn n sorted)
      by (rewrite slice_prefix by assumption; rewrite Hlen; reflexivity).
    rewrite <- Hslice. reflexivity. }
  rewrite Hrecs. split.
  - rewrite (mapi_index _ _ (fun k => (Z.of_nat k + 1)%Z)) by reflexivity.
    rewrite length_firstn, Hlen. unfold ranksUpTo. f_equal. f_equal. lia.
  - rewrite (mapi_item _ _ (fun game => game)); [apply map_id|].
    intros [g s] k. reflexivity.
Qed.

Lemma StronglySorted_map {A B} (R' : B -> B -> Prop) (f : A -> B) (l : list A) :
  StronglySorted R' (map f l) <-> StronglySorted (fun a b => R' (f a) (f b)) l.
Proof.
  induction l as [|x l IH]; cbn [map]; split; intros H; try constructor;
    apply StronglySorted_inv in H as [Hs Hx].
  - apply IH, Hs.
  - rewrite List.Forall_map in Hx. exact Hx.
  - apply IH, Hs.
  - rewrite List.Forall_map. exact Hx.
Qed.

Lemma StronglySorted_app_inv {A} (R' : A -> A -> Prop) (l1 l2 : list A) :
  StronglySorted R' (l1 ++ l2) ->
  StronglySorted R' l1
  /\ (forall a b, In a l1 -> In b l2 -> R' a b).
Proof.
  induction l1 as [|x l1 IH]; cbn [app]; intros H.
  - split; [constructor | intros a b []].
  - apply StronglySorted_inv in H as [Hs Hx]. destruct (IH Hs) as [Hl1 Hcross].
    apply Forall_app in Hx as [Hx1 Hx2]. split; [constructor; assumption|].
    intros a b [<-|Ha] Hb.
    + exact (proj1 (List.Forall_forall _ _) Hx2 b Hb).
    + exact (Hcross a b Ha Hb).
Qed.

Lemma gameTypes_NoDup : NoDup gameTypes.
Proof. apply (bool_decide_unpack _). vm_compute. exact I. Qed.

Lemma scored_finite features :
  boundedFeatures features ->
  Forall finiteScore (map (fun g => (g, recommendationScore features g)) gameTypes).
Proof.
  intros Hb. apply List.Forall_forall. intros [g s] Hin.
  apply in_map_iff in Hin as (g' & [= <- <-] & _).
  exact (recommendationScore_finite features g' Hb).
Qed.

Lemma sorted_scores_descending features :
  boundedFeatures features ->
  descendingScores
    (sort_by higherScoreFirst
       (map (fun g => (g, recommendationScore features g)) gameTypes)).
Proof.
  intros Hb. apply sort_from_descending;
    [exact (scored_finite features Hb) | constructor | constructor].
Qed.

Lemma recommendations_length_ranks
    (features : GameRecommendationFeatures) (count' : Z) :
  (0 <= count')%Z ->
  let recs := calculateGameRecommendations features count' in
  length recs = Z.to_nat (Z.min count' 5)
  /\ map rank recs = ranksUpTo (length recs).
Proof.
  intros Hc recs.
  destruct (calculateGameRecommendations_sorted features count' Hc) as [Hranks _].
  fold recs in Hranks.
  assert (Hlen : length recs = Z.to_nat (Z.min count' 5)).
  { rewrite <- (length_map rank), Hranks. unfold ranksUpTo.
    rewrite length_map, length_seq. reflexivity. }
  split; [exact Hlen | rewrite Hlen; exact Hranks].
Qed.

Lemma recommendations_from_catalog
    (features : GameRecommendationFeatures) (count' : Z) :
  (0 <= count')%Z ->
  let recs := calculateGameRecommendations features count' in
  NoDup (map rGameType recs)
  /\ (forall r, In r recs ->
        In (rGameType r) gameTypes
        /\ rScore r = recommendationScore features (rGameType r)).
Proof.
  intros Hc recs.
  destruct (calculateGameRecommendations_sorted features count' Hc) as [_ Hpairs].
  fold recs in Hpairs.
  set (scored := map (fun g => (g, recommendationScore features g)) gameTypes) in *.
  set (sorted := sort_by higherScoreFirst scored) in *.
  set (n := Z.to_nat (Z.min count' 5)) in *.
  pose proof (sort_by_perm_any higherScoreFirst scored) as Hperm. fold sorted in Hperm.
  assert (Hsplit : sorted = firstn n sorted ++ skipn n sorted)
    by (symmetry; apply firstn_skipn).
  split.
  - assert (Htypes : map rGameType recs = map fst (firstn n sorted))
      by (rewrite <- Hpairs, map_map; reflexivity).
    assert (Hfst : Permutation gameTypes (map fst sorted)).
    { rewrite <- Hperm. unfold scored. rewrite map_map. cbn [fst]. rewrite map_id.
      reflexivity. }
    rewrite Htypes. pose proof gameTypes_NoDup as Hnd.
    rewrite Hfst, Hsplit, map_app in Hnd. apply NoDup_app in Hnd as [Hnd _].
    exact Hnd.
  - intros r Hr.
    assert (Hp : In (rGameType r, rScore r) sorted).
    { rewrite Hsplit. apply in_or_app. left. rewrite <- Hpairs.
      apply (in_map (fun r => (rGameType r, rScore r))). exact Hr. }
    apply (Permutation_in _ (Permutation_sym Hperm)) in Hp.
    apply in_map_iff in Hp as (g & [= <- <-] & Hg). split; [exact Hg | reflexivity].
Qed.

Lemma recommendations_descending
    (features : GameRecommendationFeatures) (count' : Z) :
  (0 <= count')%Z -> boundedFeatures features ->
  StronglySorted (fun a b => notAbove (rScore a) (rScore b))
    (calculateGameRecommendations features count').
Proof.
  intros Hc Hb.
  destruct (calculateGameRecommendations_sorted features count' Hc) as [_ Hpairs].
  pose proof (sorted_scores_descending features Hb) as Hdesc.
  rewrite <- (firstn_skipn (Z.to_nat (Z.min count' 5))) in Hdesc.
  apply StronglySorted_app_inv in Hdesc as [Hhead _].
  apply (StronglySorted_map (fun a b => notAbove (snd a) (snd b))
           (fun r => (rGameType r, rScore r))).
  rewrite Hpairs. exact Hhead.
Qed.

(** X18.  Asked for [count >= 0] games, with features that hold no infinite
    value, [calculateGameRecommendations] returns min(count, 5)
    recommendations ranked 1, 2, ... in that order; they name distinct games
    of the catalog, each with its own recommendation score; the scores never
    increase down the list; and no game of the catalog that was left out
    scores above a recommended one. *)
Theorem recommendations_are_the_top_scores
    (features : GameRecommendationFeatures) (count' : Z) :
  (0 <= count')%Z -> boundedFeatures features ->
  let recs := calculateGameRecommendations features count' in
  length recs = Z.to_nat (Z.min count' 5)
  /\ map rank recs = ranksUpTo (length recs)
  /\ NoDup (map rGameType recs)
  /\ (forall r, In r recs ->
        In (rGameType r) gameTypes
        /\ rScore r = recommendationScore features (rGameType r))
  /\ StronglySorted (fun a b => notAbove (rScore a) (rScore b)) recs
  /\ (forall r g, In r recs -> In g gameTypes -> ~ In g (map rGameType recs) ->
        notAbove (rScore r) (recommendationScore features g)).
Proof.
  intros Hc Hb recs.
  destruct (recommendations_length_ranks features count' Hc) as [Hlen Hranks].
  destruct (recommendations_from_catalog features count' Hc) as [Hnd Hin].
  pose proof (recommendations_descending features count' Hc Hb) as Hdesc.
  fold recs in Hlen, Hranks, Hnd, Hin, Hdesc.
  repeat (split; [assumption|]).
  intros r g Hr Hg Hout.
  destruct (calculateGameRecommendations_sorted features count' Hc) as [_ Hpairs].
  fold recs in Hpairs.
  set (scored := map (fun g => (g, recommendationScore features g)) gameTypes) in *.
  set (sorted := sort_by higherScoreFirst scored) in *.
  set (n := Z.to_nat (Z.min count' 5)) in *.
  pose proof (sorted_scores_descending features Hb) as Hall.
  fold scored in Hall. fold sorted in Hall.
  rewrite <- (firstn_skipn n sorted) in Hall.
  apply StronglySorted_app_inv in Hall as [_ Hcross].
  assert (Hp : In (rGameType r, rScore r) (firstn n sorted)).
  { rewrite <- Hpairs. apply (in_map (fun r => (rGameType r, rScore r))). exact Hr. }
  assert (Hq : In (g, recommendationScore features g) sorted).
  { apply (Permutation_in _ (sort_by_perm_any higherScoreFirst scored)).
    apply (in_map (fun g => (g, recommendationScore features g))). exact Hg. }
  rewrite <- (firstn_skipn n sorted) in Hq. apply in_app_or in Hq as [Hq|Hq].
  - exfalso. apply Hout.
    replace (map rGameType recs) with (map fst (firstn n sorted))
      by (rewrite <- Hpairs, map_map; reflexivity).
    apply (in_map fst) in Hq. exact Hq.
  - exact (Hcross _ _ Hp Hq).
Qed.

Lemma noInfinity_empty : noInfinity ∅.
Proof. intros key v H. rewrite lookup_empty in H. discriminate. Qed.

Lemma noGameFeatures_bounded : boundedFeatures noGameFeatures.
Proof. split; [|split]; exact noInfinity_empty. Qed.

Lemma recommendations_are_the_top_scores_witness :
  let recs := calculateGameRecommendations noGameFeatures 3 in
  length recs = 3%nat
  /\ map rank recs = [1; 2; 3]%Z
  /\ NoDup (map rGameType recs)
  /\ StronglySorted (fun a b => notAbove (rScore a) (rScore b)) recs.
Proof.
  intros recs.
  destruct (recommendations_are_the_top_scores noGameFeatures 3 ltac:(lia)
              noGameFeatures_bounded)
    as (Hlen & Hranks & Hnd & _ & Hdesc & _).
  fold recs in Hlen, Hranks, Hnd, Hdesc.
  split; [exact Hlen|]. split; [rewrite Hranks, Hlen; reflexivity|].
  split; assumption.
Defined.

Lemma StronglySorted_and {A} (R1 R2 : A -> A -> Prop) (l : list A) :
  StronglySorted R1 l -> StronglySorted R2 l ->
  StronglySorted (fun a b => R1 a b /\ R2 a b) l.
Proof.
  induction l as [|x l IH]; intros H1 H2; [constructor|].
  apply StronglySorted_inv in H1 as [H1 Hx1].
  apply StronglySorted_inv in H2 as [H2 Hx2].
  constructor; [exact (IH H1 H2)|].
  apply List.Forall_forall. intros y Hy. split.
  - exact (proj1 (List.Forall_forall _ _) Hx1 y Hy).
  - exact (proj1 (List.Forall_forall _ _) Hx2 y Hy).
Qed.

Lemma StronglySorted_weaken {A} (R1 R2 : A -> A -> Prop) (l : list A) :
  (forall a b, R1 a b -> R2 a b) -> StronglySorted R1 l -> StronglySorted R2 l.
Proof.
  intros Himpl. induction 1 as [|x l Hl IH Hx]; constructor; [exact IH|].
  eapply Forall_impl; [exact Hx|]. intros y. apply Himpl.
Qed.

Lemma recommendationScore_mono features g1 g2 :
  boundedFeatures features ->
  notAbove (lookup_or_zero (performanceByGame features) g1)
    (lookup_or_zero (performanceByGame features) g2) ->
  notAbove (lookup_or_zero (engagementByGame features) g1)
    (lookup_or_zero (engagementByGame features) g2) ->
  notAbove (lookup_or_zero (gamePreferences features) g1)
    (lookup_or_zero (gamePreferences features) g2) ->
  notAbove (recommendationScore features g1) (recommendationScore features g2).
Proof.
  intros (Hp & He & Hg). unfold recommendationScore.
  destruct (lookup_or_zero_finite _ g1 Hp) as [p1 ->].
  destruct (lookup_or_zero_finite _ g2 Hp) as [p2 ->].
  destruct (lookup_or_zero_finite _ g1 He) as [e1 ->].
  destruct (lookup_or_zero_finite _ g2 He) as [e2 ->].
  destruct (lookup_or_zero_finite _ g1 Hg) as [q1 ->].
  destruct (lookup_or_zero_finite _ g2 Hg) as [q2 ->].
  cbn [JS.mul JS.add]. rewrite !notAbove_Fin. lra.
Qed.

(** X19.  The sort is stable and the catalog is scored in its own order.
    When, down the catalog, none of the three values of a game
    (performance, engagement, preference, each 0 where missing) lies above
    that of a game listed before it, so in particular when they are the
    same for all games, as for a user without data, the recommended games
    are the first min(count, 5) of the catalog, in catalog order. *)
Theorem recommendations_keep_catalog_order
    (features : GameRecommendationFeatures) (count' : Z) :
  (0 <= count')%Z -> boundedFeatures features ->
  neverRising (performanceByGame features) ->
  neverRising (engagementByGame features) ->
  neverRising (gamePreferences features) ->
  map rGameType (calculateGameRecommendations features count')
  = firstn (Z.to_nat (Z.min count' 5)) gameTypes.
Proof.
  intros Hc Hb Hperf Heng Hpref.
  assert (Hcat : StronglySorted
                   (fun g1 g2 => notAbove (recommendationScore features g1)
                                   (recommendationScore features g2)) gameTypes).
  { pose proof (StronglySorted_and _ _ _ Hperf
                  (StronglySorted_and _ _ _ Heng Hpref)) as Hall.
    eapply StronglySorted_weaken; [|exact Hall].
    intros g1 g2 (H1 & H2 & H3).
    exact (recommendationScore_mono features g1 g2 Hb H1 H2 H3). }
  destruct (calculateGameRecommendations_sorted features count' Hc) as [_ Hpairs].
  set (scored := map (fun g => (g, recommendationScore features g)) gameTypes) in *.
  assert (Hkept : sort_by higherScoreFirst scored = scored).
  { apply (sort_from_kept scored []); cbn [app].
    - exact (scored_finite features Hb).
    - unfold descendingScores, scored.
      apply (StronglySorted_map (fun a b => notAbove (snd a) (snd b))). exact Hcat. }
  rewrite Hkept in Hpairs.
  transitivity (map fst (map (fun r => (rGameType r, rScore r))
                           (calculateGameRecommendations features count'))).
  { rewrite map_map. reflexivity. }
  rewrite Hpairs. rewrite <- firstn_map. unfold scored. rewrite map_map.
  cbn [fst]. rewrite map_id. reflexivity.
Qed.

Lemma neverRising_empty : neverRising ∅.
Proof.
  unfold neverRising, gameTypes.
  repeat (constructor;
          [|repeat constructor; unfold lookup_or_zero; rewrite !lookup_empty;
            apply notAbove_Fin; lra]).
  constructor.
Qed.

Lemma neverRising_first (v : R) :
  0 <= v -> neverRising {[ "memory_game"%string := Fin v ]}.
Proof.
  intros Hv. unfold neverRising, gameTypes.
  repeat (constructor;
          [|repeat constructor; unfold lookup_or_zero;
            rewrite ?lookup_singleton_eq, ?lookup_singleton_ne by discriminate;
            cbn [or_zero]; apply notAbove_Fin; lra]).
  constructor.
Qed.

Lemma recommendations_keep_catalog_order_witness :
  map rGameType (calculateGameRecommendations memoryPlayerFeatures 3)
  = ["memory_game"; "reaction_game"; "calculation_game"]%string.
Proof.
  apply (recommendations_keep_catalog_order memoryPlayerFeatures 3).
  - lia.
  - split; [|split]; unfold memoryPlayerFeatures;
      cbn [performanceByGame engagementByGame gamePreferences];
      [| exact noInfinity_empty |]; intros key v H;
      apply lookup_singleton_Some in H as [_ <-]; split; discriminate.
  - apply neverRising_first. lra.
  - exact neverRising_empty.
  - apply neverRising_first. lra.
Defined.

(** ** Recommendations for a user with a history *)

Lemma finite_list (xs : list number) :
  Forall (fun x => exists r, x = Fin r) xs -> exists l, xs = map Fin l.
Proof.
  induction 1 as [|x xs [r ->] _ [l ->]]; [exists []; reflexivity|].
  exists (r :: l). reflexivity.
Qed.

Lemma catalog_lookup (f : string -> number) (key : string) (v : number) :
  (list_to_map (map (fun g => (g, f g)) gameTypes) : gmap string number) !! key
  = Some v ->
  v = f key.
Proof.
  intros H. apply elem_of_list_to_map_2 in H.
  apply list_elem_of_In, in_map_iff in H as (g & [= <- <-] & _). reflexivity.
Qed.

Lemma frequency_not_infinite {A} (f : A -> bool) (l : list A) :
  (count f l / of_nat (length l))%js <> PInf
  /\ (count f l / of_nat (length l))%js <> NInf.
Proof.
  unfold count, JS.of_nat, JS.div.
  destruct (Req_dec_T (INR (length l)) 0) as [Hz|Hnz].
  - rewrite (Reqb_true _ _ Hz). apply (INR_eq _ 0%nat) in Hz.
    apply length_zero_iff_nil in Hz. subst l. cbn [List.filter length INR].
    rewrite Reqb_true by reflexivity. split; discriminate.
  - rewrite (Reqb_false _ _ Hnz). split; discriminate.
Qed.

Lemma analyzeGamePreferences_bounded gs : noInfinity (analyzeGamePreferences gs).
Proof.
  intros key v H. unfold analyzeGamePreferences in H.
  apply (catalog_lookup
           (fun g => (count (fun r => String.eqb (gameType r) g) gs
                      / of_nat (length gs))%js)) in H.
  subst v. apply frequency_not_infinite.
Qed.

Lemma analyzeEngagementByGame_bounded gs : noInfinity (analyzeEngagementByGame gs).
Proof.
  intros key v H. unfold analyzeEngagementByGame in H.
  apply (catalog_lookup
           (fun g => (count (fun r => String.eqb (gameType r) g) gs
                      / of_nat (length gs))%js)) in H.
  subst v. apply frequency_not_infinite.
Qed.

Lemma analyzePerformanceByGame_bounded gs :
  Forall (fun g => exists r, score g = Fin r) gs ->
  noInfinity (analyzePerformanceByGame gs).
Proof.
  intros Hfin key v H. unfold analyzePerformanceByGame in H.
  apply (catalog_lookup
           (fun g =>
              if (0 <? length (map score
                                 (List.filter (fun r => String.eqb (gameType r) g) gs)))%nat
              then (mean (map score
                            (List.filter (fun r => String.eqb (gameType r) g) gs))
                    / Fin 100)%js
              else Fin 0)) in H.
  subst v.
  destruct (finite_list
              (map score (List.filter (fun r => String.eqb (gameType r) key) gs)))
    as [l ->].
  { apply List.Forall_map. apply List.Forall_forall. intros g Hg.
    apply filter_In in Hg as [Hg _].
    exact (proj1 (List.Forall_forall _ _) Hfin g Hg). }
  destruct (Nat.ltb_spec 0 (length (map Fin l))) as [Hpos|_]; [|split; discriminate].
  rewrite mean_Fin by (intros ->; cbn in Hpos; lia).
  rewrite div_Fin by lra. split; discriminate.
Qed.

Lemma extractGameRecommendationFeatures_bounded now gs :
  Forall (fun g => exists r, score g = Fin r) gs ->
  exists features,
    extractGameRecommendationFeatures now {| games := Some gs |} = Normal features
    /\ boundedFeatures features.
Proof.
  intros Hfin. eexists. split; [reflexivity|].
  split; [|split]; cbn [performanceByGame engagementByGame gamePreferences].
  - exact (analyzePerformanceByGame_bounded gs Hfin).
  - exact (analyzeEngagementByGame_bounded gs).
  - exact (analyzeGamePreferences_bounded gs).
Qed.

(** X20.  For a user whose data holds a [games] list with finite scores,
    [recommendGames] asked for [count >= 0] games (3 when [count] is left
    out) returns min(count, 5) recommendations, ranked 1, 2, ..., naming
    distinct games of the catalog, with scores that never increase down the
    list; it fetches and extracts once and writes nothing to the cache. *)
Theorem recommendGames_for_known_user
    (now : Z) (userId : string) (count' : option Z) (w : World)
    (gs : list GameRecord) :
  store w !! userId = Some {| games := Some gs |} ->
  Forall (fun g => exists r, score g = Fin r) gs ->
  (0 <= default 3%Z count')%Z ->
  exists recs,
    recommendGames now userId count' w
    = Normal (recs, countExtract (countFetch w))
    /\ length recs = Z.to_nat (Z.min (default 3%Z count') 5)
    /\ map rank recs = ranksUpTo (length recs)
    /\ NoDup (map rGameType recs)
    /\ (forall r, In r recs -> In (rGameType r) gameTypes)
    /\ StronglySorted (fun a b => notAbove (rScore a) (rScore b)) recs.
Proof.
  intros Hstore Hfin Hc.
  destruct (extractGameRecommendationFeatures_bounded now gs Hfin)
    as (features & Hextract & Hb).
  exists (calculateGameRecommendations features (default 3%Z count')).
  destruct (recommendations_length_ranks features (default 3%Z count') Hc)
    as [Hlen Hranks].
  destruct (recommendations_from_catalog features (default 3%Z count') Hc)
    as [Hnd Hin].
  pose proof (recommendations_descending features (default 3%Z count') Hc Hb)
    as Hdesc.
  split; [|repeat split; try assumption; intros r Hr; apply (Hin r Hr)].
  unfold recommendGames, gamesBody, getUserData. rewrite Hstore.
  cbn [JS.bind]. rewrite Hextract. reflexivity.
Qed.

Lemma recommendGames_for_known_user_witness :
  exists recs,
    recommendGames 1700000000000 "u2" None servingEngine
    = Normal (recs, countExtract (countFetch servingEngine))
    /\ length recs = 3%nat
    /\ map rank recs = [1; 2; 3]%Z.
Proof.
  destruct (recommendGames_for_known_user 1700000000000 "u2" None servingEngine [])
    as (recs & Hcall & Hlen & Hranks & _);
    [reflexivity | constructor | cbn; lia |].
  exists recs. split; [exact Hcall|]. split; [exact Hlen|].
  rewrite Hranks, Hlen. reflexivity.
Defined.
